(** * StreamUnzipFunction: a shallow embedding of [lambda_function.py]

    The handler downloads a ZIP archive from the blob store, classifies and
    re-uploads its entries, tracks the job in a document store and calls a
    second function for validation.

    Modelling choices.
    - Text is [string]: the UTF-8 bytes of the Python string.  The
      operations the program applies to names (slicing off an ASCII
      prefix, splitting at a slash, searching for ASCII text) act on the
      bytes as they act on the code points.  File contents are
      [list Byte.byte].
    - The job collection is a finite map from the value of the [jobId]
      filter (a string or Python's [None]) to a document; a document is a
      finite map from field names to values.
    - The blob store is a finite map from (bucket, key) to an object.
    - Everything that happens outside the process (clock, uuid, ZIP
      decoding, failures of the blob store, the answer of the validation
      function) is read from an environment record [Env].
    - Effects are threaded through a state-and-exception monad [M]; the
      state also keeps the chronological list of the calls made to the
      three external clients.  Calls to the job collection do not raise:
      the runs in which the document store fails are not covered. *)

From Stdlib Require Import ZArith Ascii Lia Sorted Floats Uint63.
From stdpp Require Import gmap strings list fin_maps.

Local Open Scope Z_scope.

(** ** Strings as Python uses them *)

Module Str.

Definition lower_char (c : ascii) : ascii :=
  let n := nat_of_ascii c in
  if ((65 <=? n) && (n <=? 90))%nat then ascii_of_nat (n + 32) else c.

(** [s.lower()] on the UTF-8 bytes of [s].  Two code points outside ASCII
    lower-case to text that contains an ASCII letter: U+0130 (bytes C4 B0)
    to [i] followed by U+0307 (bytes CC 87), and U+212A, the Kelvin sign
    (bytes E2 84 AA), to [k].  Every other code point outside ASCII
    lower-cases to code points outside ASCII; its bytes are left as they
    are, which the program cannot observe, since it only searches the
    lower-cased name for ASCII text. *)
Fixpoint lower (s : string) : string :=
  match s with
  | EmptyString => EmptyString
  | String c r =>
      match r with
      | String c2 r2 =>
          if bool_decide (c = "196"%char ∧ c2 = "176"%char) then
            String "i" (String "204" (String "135" (lower r2)))
          else
            match r2 with
            | String c3 r3 =>
                if bool_decide (c = "226"%char ∧ c2 = "132"%char
                                ∧ c3 = "170"%char)
                then String "k" (lower r3)
                else String (lower_char c) (lower r)
            | EmptyString => String (lower_char c) (lower r)
            end
      | EmptyString => String (lower_char c) (lower r)
      end
  end.

(** [s.startswith(p)] *)
Fixpoint startswith (s p : string) : bool :=
  match p, s with
  | EmptyString, _ => true
  | String _ _, EmptyString => false
  | String a p', String b s' => bool_decide (a = b) && startswith s' p'
  end.

(** [sub in s] *)
Fixpoint contains (s sub : string) : bool :=
  startswith s sub ||
  match s with
  | EmptyString => false
  | String _ r => contains r sub
  end.

(** [s.endswith(suf)] *)
Fixpoint endswith (s suf : string) : bool :=
  bool_decide (s = suf) ||
  match s with
  | EmptyString => false
  | String _ r => endswith r suf
  end.

(** [os.path.basename]: what follows the last slash. *)
Fixpoint basename (p : string) : string :=
  match p with
  | EmptyString => EmptyString
  | String c r =>
      if contains r "/" then basename r
      else if bool_decide (c = "/"%char) then r else p
  end.

(** [s.split('/')] *)
Fixpoint split_go (cur : string) (s : string) : list string :=
  match s with
  | EmptyString => [String.rev cur]
  | String c r =>
      if bool_decide (c = "/"%char) then String.rev cur :: split_go "" r
      else split_go (String c cur) r
  end.
Definition split_slash (s : string) : list string := split_go "" s.

(** [s[n:]] *)
Fixpoint drop (n : nat) (s : string) : string :=
  match n, s with
  | O, _ => s
  | S n', String _ r => drop n' r
  | S _, EmptyString => EmptyString
  end.

(** [s[:n]] *)
Fixpoint take (n : nat) (s : string) : string :=
  match n, s with
  | S n', String c r => String c (take n' r)
  | _, _ => EmptyString
  end.

(** Position of the last dot, if any ([s.rfind('.')]). *)
Fixpoint rfind_dot (s : string) : option nat :=
  match s with
  | EmptyString => None
  | String c r =>
      match rfind_dot r with
      | Some i => Some (S i)
      | None => if bool_decide (c = "."%char) then Some O else None
      end
  end.

Fixpoint all_dots (s : string) : bool :=
  match s with
  | EmptyString => true
  | String c r => bool_decide (c = "."%char) && all_dots r
  end.

(** [os.path.splitext(base)[0]] for a name without slash: the name up to
    its last dot, unless only dots precede that dot. *)
Definition splitext_root (base : string) : string :=
  match rfind_dot base with
  | Some i => if all_dots (take i base) then base else take i base
  | None => base
  end.

(** [str(x)] for a value that is a string or [None]. *)
Definition py_str (o : option string) : string :=
  match o with Some s => s | None => "None" end.

(** [a or b] on such values: the empty string is falsy. *)
Definition py_or (a b : option string) : option string :=
  match a with
  | Some s => if bool_decide (s = "") then b else a
  | None => b
  end.

End Str.

(** ** The file classifier *)

Definition JUNK_NAMES : list string :=
  [ "._"; ".ds_store"; ".spotlight-v100"; ".trashes"; ".fseventsd";
    ".temporaryitems"; ".appledouble"; "__macosx"; "thumbs.db";
    "desktop.ini"; "iconcache.db"; "~$"; ".bak"; ".lnk" ].

Definition is_junk_file (filename : string) : bool :=
  if bool_decide (filename = "") then true
  else
    let base_name := Str.basename filename in
    if bool_decide (base_name = "") then true
    else
      let lower_name := Str.lower base_name in
      if existsb (Str.contains lower_name) JUNK_NAMES
         || Str.startswith base_name "." || Str.endswith base_name "~"
      then true
      else if Str.contains filename ".Trash-" || Str.contains filename "/tmp/"
      then true
      else if Str.endswith lower_name ".swp" || Str.endswith lower_name ".swo"
              || Str.endswith lower_name ".log"
              || Str.contains lower_name "cache"
      then true
      else false.

Definition is_valid_pdf (filename : string) (file_size : Z) : bool :=
  Str.endswith (Str.lower filename) ".pdf" && (1024 <=? file_size).

Definition is_valid_excel (filename : string) (file_size : Z) : bool :=
  let lower_name := Str.lower filename in
  (Str.endswith lower_name ".xlsx" || Str.endswith lower_name ".xls")
  && (2048 <=? file_size).

(** ** Data *)

Abbreviation bytes := (list Byte.byte).

(** One accepted PDF, spreadsheet or other file, as appended to
    [pdf_files], stored in [excel_file] or appended to [other_files]. *)
Record pdf_item := PdfItem {
  pdf_s3Key : string;
  pdf_fileName : string;
  pdf_uniqueCode : string;
  pdf_fileSize : Z;
  pdf_s3Bucket : option string }.

Record excel_item := ExcelItem {
  xl_s3Key : string;
  xl_fileName : string;
  xl_fileSize : Z;
  xl_s3Bucket : option string }.

Record other_item := OtherItem {
  oth_s3Key : string;
  oth_fileName : string;
  oth_fileSize : Z }.

Record skip_record := Skip { skip_fileName : string; skip_reason : string }.

(** Values of the fields of a job document. *)
Inductive fval :=
| FNull
| FStr (s : string)
| FInt (z : Z)
| FBool (b : bool)
| FPdfs (l : list pdf_item)
| FExcel (x : excel_item).

Definition fopt (o : option string) : fval :=
  match o with Some s => FStr s | None => FNull end.

Abbreviation doc := (gmap string fval).
Abbreviation jobs := (gmap (option string) (gmap string fval)).

(** An object of the blob store. *)
Record blob := Blob {
  blob_body : bytes;
  blob_ctype : option string;
  blob_sse : option string }.

Abbreviation blobs := (gmap (string * string) blob).

(** An entry of an opened archive: its name in [namelist()] and what
    [zip_file.read(name)] gives, the data or the text of the exception. *)
Record zentry := ZEntry { ze_name : string; ze_read : string + bytes }.

(** A key of a dict that is absent, or present with [None] or a value. *)
Inductive field (A : Type) := Absent | Null | Val (a : A).
Arguments Absent {A}.
Arguments Null {A}.
Arguments Val {A} a.

(** ['k' in d], [d.get('k')], [d.get('k', dflt)] *)
Definition fhas {A} (f : field A) : bool :=
  match f with Absent => false | _ => true end.
Definition fget {A} (f : field A) : option A :=
  match f with Val a => Some a | _ => None end.
Definition fget_default {A} (f : field A) (dflt : A) : option A :=
  match f with Absent => Some dflt | Null => None | Val a => Some a end.

(** The trigger.  [ev_Records] is [None] when the key is absent. *)
Record s3_record := S3Record {
  rec_eventSource : option string;
  rec_s3 : option (string * string) }.

Record event := Event {
  ev_Records : option (list s3_record);
  ev_jobId : field string;
  ev_s3Bucket : field string;
  ev_bucket : field string;
  ev_s3Key : field string;
  ev_examCode : field string;
  ev_courseCode : field string;
  ev_uploadedBy : field string }.

(** The dict returned by [parse_event]. *)
Record parsed := Parsed {
  p_jobId : option string;
  p_s3Bucket : option string;
  p_s3Key : option string;
  p_examCode : option string;
  p_courseCode : option string;
  p_uploadedBy : option string;
  p_source : string }.

(** The decoded answer of the validation function. *)
Record payload := Payload {
  pl_errorMessage : field string;
  pl_statusCode : field Z;
  pl_error : field string }.

(** What [lambda_client.invoke] and the decoding of its answer do: raise,
    or give the transport status (if any) and the decoded payload. *)
Inductive invoke_outcome :=
| InvokeRaises (msg : string)
| InvokeReturns (StatusCode : option Z) (pl : payload).

(** The dict returned by [invoke_lambda2_sync]. *)
Inductive l2_result :=
| L2Ok (response : payload)
| L2Fail (error : option string).

Definition l2_success (r : l2_result) : bool :=
  match r with L2Ok _ => true | L2Fail _ => false end.

(** The dict returned by [lambda_handler]. *)
Record result := Result {
  r_statusCode : Z;
  r_jobId : option string;
  r_status : string;
  r_error : option string }.

(** Calls made to the three external clients, with their arguments.
    [OpUpsert] also records whether the document was inserted. *)
Inductive op :=
| OpUpsert (jid : option string) (fs : list (string * fval)) (inserted : bool)
| OpUpdate (jid : option string) (fs : list (string * fval))
| OpGet (b k : option string)
| OpPut (b : option string) (k : string) (body : bytes) (ctype : option string)
| OpDelete (b k : option string)
| OpInvoke (jid : option string).

Record world := World {
  w_db : jobs;
  w_s3 : blobs;
  w_tick : nat;
  w_trace : list op }.

Record Env := {
  env_clock : nat → Z;
  env_uuid : string;
  env_unquote_plus : string → string;
  env_DELETE_ZIP_AFTER_SUCCESS : bool;
  env_zip_open : bytes → string + list zentry;
  env_put_error : string → string → option string;
  env_delete_error : string → string → option string;
  env_invoke : option string → invoke_outcome }.

(** ** The state-and-exception monad *)

Definition M (A : Type) : Type := world → (string + A) * world.

Definition ret {A} (a : A) : M A := λ w, (inr a, w).
Definition raise {A} (msg : string) : M A := λ w, (inl msg, w).
Definition bind {A B} (m : M A) (k : A → M B) : M B :=
  λ w, match m w with
       | (inr a, w') => k a w'
       | (inl e, w') => (inl e, w')
       end.
(** [try: m  except Exception as e: h(str(e))] *)
Definition try_except {A} (m : M A) (h : string → M A) : M A :=
  λ w, match m w with
       | (inr a, w') => (inr a, w')
       | (inl e, w') => h e w'
       end.

Notation "x <- m ;; k" := (bind m (λ x, k))
  (at level 100, m at next level, right associativity).
Notation "m ;;; k" := (bind m (λ _, k))
  (at level 100, right associativity).

Definition log (o : op) : M unit :=
  λ w, (inr tt, World (w_db w) (w_s3 w) (w_tick w) (w_trace w ++ [o])).
Definition set_db (f : jobs → jobs) : M unit :=
  λ w, (inr tt, World (f (w_db w)) (w_s3 w) (w_tick w) (w_trace w)).
Definition set_s3 (f : blobs → blobs) : M unit :=
  λ w, (inr tt, World (w_db w) (f (w_s3 w)) (w_tick w) (w_trace w)).
Definition read_world : M world := λ w, (inr w, w).

(** ** The accumulators of the extraction loop *)

Record acc := Acc {
  pdf_files : list pdf_item;
  excel_file : option excel_item;
  other_files : list other_item;
  skipped_files : list skip_record;
  valid_files_processed : Z }.

Definition acc0 : acc := Acc [] None [] [] 0.

Definition add_skip (a : acc) (name reason : string) : acc :=
  Acc (pdf_files a) (excel_file a) (other_files a)
      (skipped_files a ++ [Skip name reason]) (valid_files_processed a).
Definition add_pdf (a : acc) (x : pdf_item) : acc :=
  Acc (pdf_files a ++ [x]) (excel_file a) (other_files a)
      (skipped_files a) (valid_files_processed a + 1).
Definition set_excel (a : acc) (x : excel_item) : acc :=
  Acc (pdf_files a) (Some x) (other_files a)
      (skipped_files a) (valid_files_processed a + 1).
Definition add_other (a : acc) (x : other_item) : acc :=
  Acc (pdf_files a) (excel_file a) (other_files a ++ [x])
      (skipped_files a) (valid_files_processed a + 1).

(** How one iteration leaves the part of the body before the progress
    update: through [continue], or by reaching the update. *)
Inductive flow := Continue (a : acc) | Reached (a : acc).

(** Texts of exceptions raised by libraries, as far as the model needs
    them.  [ERR_PARAM] stands for the text of the exception the storage
    client raises when the bucket or the key is [None]; that text depends
    on the versions of the client library and of Python, and no statement
    below depends on it (where such a run is described, the text is left
    open).  [ERR_NO_SUCH_KEY] is the text of the client error for a
    missing object. *)
Definition ERR_PARAM : string := "Parameter validation failed".
Definition ERR_NO_SUCH_KEY : string :=
  "An error occurred (NoSuchKey) when calling the GetObject operation: "
  +:+ "The specified key does not exist.".
Definition ERR_KEY_S3 : string := "'s3'".
Definition ERR_NONE_SUBSCRIPT : string :=
  "'NoneType' object is not subscriptable".

Definition CREATED_ON : string := "createdOn_KJUSYSCommon_DateTime".
Definition UPDATED_ON : string := "updatedOn_KJUSYSCommon_DateTime".
Definition ZIP_PREFIX : string := "Answer_Scripts_Zip_Files/".
Definition XLSX_TYPE : string :=
  "application/vnd.openxmlformats-officedocument.spreadsheetml.sheet".

(** [$set] on a document: the given fields replace or extend it. *)
Definition set_fields (fs : list (string * fval)) (d : doc) : doc :=
  list_to_map fs ∪ d.

Section Program.

Variable E : Env.

(** *** External clients *)

Definition get_ist_millis : M Z :=
  λ w, (inr (env_clock E (w_tick w)),
        World (w_db w) (w_s3 w) (S (w_tick w)) (w_trace w)).

(** [jobs_collection.update_one({"jobId": jid}, {"$set": fs})]: nothing
    changes when no document matches. *)
Definition update_one (jid : option string) (fs : list (string * fval))
  : M unit :=
  log (OpUpdate jid fs) ;;; set_db (alter (set_fields fs) jid).

(** [jobs_collection.update_one({"jobId": jid}, {"$setOnInsert": fs},
    upsert=True)]: an existing document is left as it is. *)
Definition update_one_upsert (jid : option string)
    (fs : list (string * fval)) : M unit :=
  w <- read_world ;;
  match w_db w !! jid with
  | Some _ => log (OpUpsert jid fs false)
  | None =>
      log (OpUpsert jid fs true) ;;;
      set_db (<[jid := set_fields (("jobId", fopt jid) :: fs) ∅]>)
  end.

Definition get_object (b k : option string) : M bytes :=
  log (OpGet b k) ;;;
  match b, k with
  | Some bn, Some kn =>
      w <- read_world ;;
      match w_s3 w !! (bn, kn) with
      | Some o => ret (blob_body o)
      | None => raise ERR_NO_SUCH_KEY
      end
  | _, _ => raise ERR_PARAM
  end.

Definition put_object (b : option string) (k : string) (body : bytes)
    (ctype : option string) : M unit :=
  log (OpPut b k body ctype) ;;;
  match b with
  | Some bn =>
      match env_put_error E bn k with
      | Some msg => raise msg
      | None => set_s3 (<[(bn, k) := Blob body ctype (Some "AES256")]>)
      end
  | None => raise ERR_PARAM
  end.

Definition delete_object (b k : option string) : M unit :=
  log (OpDelete b k) ;;;
  match b, k with
  | Some bn, Some kn =>
      match env_delete_error E bn kn with
      | Some msg => raise msg
      | None => set_s3 (delete (bn, kn))
      end
  | _, _ => raise ERR_PARAM
  end.

(** *** [parse_event] *)

Definition exam_and_course (key : string) : string * string :=
  if Str.startswith key ZIP_PREFIX then
    let path := Str.drop (String.length ZIP_PREFIX) key in
    match Str.split_slash path with
    | exam_code :: course_code :: _ :: _ => (exam_code, course_code)
    | _ => ("UNKNOWN", "UNKNOWN")
    end
  else ("UNKNOWN", "UNKNOWN").

(** [inl] is the text of a raised exception; [inr None] is the function
    falling off its end. *)
Definition parse_event (ev : event) : string + option parsed :=
  match ev_Records ev with
  | Some (record :: _) =>
      if bool_decide (rec_eventSource record = Some "aws:s3") then
        match rec_s3 record with
        | None => inl ERR_KEY_S3
        | Some (bucket, key0) =>
            let key := env_unquote_plus E key0 in
            let ec := exam_and_course key in
            inr (Some {| p_jobId := Some ("JOB-" +:+ env_uuid E);
                         p_s3Bucket := Some bucket;
                         p_s3Key := Some key;
                         p_examCode := Some (fst ec);
                         p_courseCode := Some (snd ec);
                         p_uploadedBy := Some "S3_AUTO_TRIGGER";
                         p_source := "S3_EVENT" |})
        end
      else inr None
  | _ =>
      if fhas (ev_jobId ev) || fhas (ev_s3Key ev) then
        inr (Some {| p_jobId := fget (ev_jobId ev);
                     p_s3Bucket :=
                       Str.py_or (fget (ev_s3Bucket ev)) (fget (ev_bucket ev));
                     p_s3Key := fget (ev_s3Key ev);
                     p_examCode := fget_default (ev_examCode ev) "UNKNOWN";
                     p_courseCode := fget_default (ev_courseCode ev) "UNKNOWN";
                     p_uploadedBy := fget_default (ev_uploadedBy ev) "BACKEND";
                     p_source := "DIRECT_INVOCATION" |})
      else inl "Invalid event format"
  end.

(** *** [delete_zip_file] and [invoke_lambda2_sync] *)

Definition delete_zip_file (bucket key job_id : option string) : M bool :=
  try_except
    (delete_object bucket key ;;;
     now_millis <- get_ist_millis ;;
     update_one job_id
       [ ("originalZipDeleted", FBool true);
         ("zipDeletedAt_KJUSYSCommon_DateTime", FInt now_millis) ] ;;;
     ret true)
    (λ _, ret false).

Definition l2_of_outcome (o : invoke_outcome) : l2_result :=
  match o with
  | InvokeRaises msg => L2Fail (Some msg)
  | InvokeReturns sc response_payload =>
      let status_code := default 0 sc in
      if fhas (pl_errorMessage response_payload)
      then L2Fail (fget (pl_errorMessage response_payload))
      else if bool_decide
                (fget_default (pl_statusCode response_payload) status_code
                 = Some 200)
      then L2Ok response_payload
      else L2Fail (fget_default (pl_error response_payload) "Unknown error")
  end.

Definition invoke_lambda2_sync (job_id : option string) : M l2_result :=
  log (OpInvoke job_id) ;;; ret (l2_of_outcome (env_invoke E job_id)).

(** *** The extraction loop *)

Section Loop.

Variables (job_id bucket : option string) (unzip_prefix : string)
          (total_entries : Z).

(** The body of the loop up to, and without, the progress update. *)
Definition route_entry (e : zentry) (a : acc) : M flow :=
  let file_name := ze_name e in
  if Str.endswith file_name "/" then ret (Continue a)
  else if is_junk_file file_name
  then ret (Continue (add_skip a file_name "Junk"))
  else
    match ze_read e with
    | inl err => ret (Continue (add_skip a file_name err))
    | inr file_data =>
        let base_name := Str.basename file_name in
        let file_size := Z.of_nat (length file_data) in
        if file_size =? 0
        then ret (Continue (add_skip a base_name "Empty"))
        else
          let dest_key := unzip_prefix +:+ base_name in
          let lower_name := Str.lower base_name in
          if Str.endswith lower_name ".pdf" then
            if negb (is_valid_pdf base_name file_size)
            then ret (Continue (add_skip a base_name "Too small"))
            else
              put_object bucket dest_key file_data
                         (Some "application/pdf") ;;;
              ret (Reached
                     (add_pdf a
                        (PdfItem dest_key base_name
                                 (Str.splitext_root base_name)
                                 file_size bucket)))
          else if Str.endswith lower_name ".xlsx"
                  || Str.endswith lower_name ".xls" then
            if negb (is_valid_excel base_name file_size)
            then ret (Continue (add_skip a base_name "Too small"))
            else
              put_object bucket dest_key file_data (Some XLSX_TYPE) ;;;
              match excel_file a with
              | None =>
                  ret (Reached
                         (set_excel a
                            (ExcelItem dest_key base_name file_size
                                       bucket)))
              | Some _ =>
                  ret (Reached (add_skip a base_name "Duplicate"))
              end
          else
            put_object bucket dest_key file_data None ;;;
            ret (Reached
                   (add_other a (OtherItem dest_key base_name file_size)))
    end.

(** [progress = 10 + int((idx + 1) / total_entries * 30)].  The source
    divides and multiplies in binary64.  For [idx + 1 <= total_entries]
    the truncated result is the exact floor written here: a value
    [(idx + 1) * 30 / total_entries] that is not an integer is at least
    [1 / total_entries] away from one, far more than the rounding error
    for any archive, and the 31 quotients [k / 30] come back to [k]
    (lemma [binary64_quotients_round_trip]). *)
Definition progress_at (idx : nat) : Z :=
  10 + (Z.of_nat idx + 1) * 30 / total_entries.

Definition checkpoint (idx : nat) : M unit :=
  if (Z.of_nat idx + 1) mod 10 =? 0 then
    now_millis <- get_ist_millis ;;
    update_one job_id
      [ ("progress", FInt (progress_at idx));
        (UPDATED_ON, FInt now_millis) ]
  else ret tt.

Definition loop_body (idx : nat) (e : zentry) (a : acc) : M acc :=
  f <- route_entry e a ;;
  match f with
  | Continue a' => ret a'
  | Reached a' => checkpoint idx ;;; ret a'
  end.

(** [for idx, file_name in enumerate(file_list)], from index [idx]. *)
Fixpoint extract_entries (idx : nat) (file_list : list zentry) (a : acc)
  : M acc :=
  match file_list with
  | [] => ret a
  | e :: rest =>
      a' <- loop_body idx e a ;;
      extract_entries (S idx) rest a'
  end.

End Loop.

(** *** [lambda_handler] *)

Definition failure_boundary (job_id : option string) (msg : string)
  : M result :=
  now_millis <- get_ist_millis ;;
  update_one job_id
    [ ("status", FStr "FAILED");
      ("error", FStr msg);
      (UPDATED_ON, FInt now_millis) ] ;;;
  ret (Result 500 job_id "FAILED" (Some msg)).

Definition zip_open (zip_bytes : bytes) : M (list zentry) :=
  match env_zip_open E zip_bytes with
  | inl msg => raise msg
  | inr file_list => ret file_list
  end.

Definition unzip_prefix_of (exam_code course_code : option string) : string :=
  ZIP_PREFIX +:+ Str.py_str exam_code +:+ "/" +:+ Str.py_str course_code
    +:+ "/unzipped/".

(** Steps 3 to 9; [now_millis] is the time read before step 2. *)
Definition steps_after_create (p : parsed) (now_millis : Z) : M result :=
  let job_id := p_jobId p in
  let bucket := p_s3Bucket p in
  let key := p_s3Key p in
  update_one job_id
    [ ("status", FStr "UNZIPPING");
      ("currentStep", FStr "Extracting files");
      ("progress", FInt 10);
      ("s3Bucket", fopt bucket);
      ("s3Key", fopt key);
      (UPDATED_ON, FInt now_millis) ] ;;;
  zip_bytes <- get_object bucket key ;;
  file_list <- zip_open zip_bytes ;;
  let total_entries := Z.of_nat (length file_list) in
  let unzip_prefix := unzip_prefix_of (p_examCode p) (p_courseCode p) in
  a <- extract_entries job_id bucket unzip_prefix total_entries
         0 file_list acc0 ;;
  match excel_file a with
  | None => raise "No Excel file found"
  | Some xl =>
      if bool_decide (pdf_files a = []) then raise "No PDF files found"
      else
        now_millis <- get_ist_millis ;;
        update_one job_id
          [ ("progress", FInt 40);
            ("status", FStr "UNZIPPED");
            ("currentStep", FStr "Starting validation");
            (UPDATED_ON, FInt now_millis);
            ("totalFiles", FInt total_entries);
            ("validFilesProcessed", FInt (valid_files_processed a));
            ("totalPDFs", FInt (Z.of_nat (length (pdf_files a))));
            ("pdfFiles", FPdfs (pdf_files a));
            ("excelFile", FExcel xl);
            ("unzipFolderPath", FStr unzip_prefix) ] ;;;
        lambda2_result <- invoke_lambda2_sync job_id ;;
        match lambda2_result with
        | L2Fail error_msg =>
            now_millis <- get_ist_millis ;;
            update_one job_id
              [ ("status", FStr "VALIDATION_FAILED");
                ("error",
                 FStr ("Validation failed: " +:+ Str.py_str error_msg));
                (UPDATED_ON, FInt now_millis) ] ;;;
            raise ("Lambda 2 failed: " +:+ Str.py_str error_msg)
        | L2Ok _ =>
            (if env_DELETE_ZIP_AFTER_SUCCESS E
             then delete_zip_file bucket key job_id
             else ret false) ;;;
            now_millis <- get_ist_millis ;;
            update_one job_id
              [ ("status", FStr "COMPLETED");
                (UPDATED_ON, FInt now_millis) ] ;;;
            ret (Result 200 job_id "SUCCESS" None)
        end
  end.

(** Steps 2 to 9, run inside the [try]: the creation of the job
    document, then the rest. *)
Definition handler_steps (p : parsed) : M result :=
  now_millis <- get_ist_millis ;;
  update_one_upsert (p_jobId p)
    [ (CREATED_ON, FInt now_millis);
      ("type", FStr "ANSWER_SCRIPT_PROCESSING");
      ("examCode_Examination_Text", fopt (p_examCode p));
      ("courseCode_Examination_Text", fopt (p_courseCode p));
      ("uploadedBy", fopt (p_uploadedBy p));
      ("eventSource", FStr (p_source p));
      ("status", FStr "PENDING");
      ("progress", FInt 0) ] ;;;
  steps_after_create p now_millis.

(** [job_id] as the [except] clause sees it: assigned only when
    [parse_event] returned a dict. *)
Definition job_id_of_parse (r : string + option parsed) : option string :=
  match r with inr (Some p) => p_jobId p | _ => None end.

Definition parse_step (ev : event) : M parsed :=
  match parse_event ev with
  | inl msg => raise msg
  | inr None => raise ERR_NONE_SUBSCRIPT
  | inr (Some p) => ret p
  end.

Definition lambda_handler (ev : event) : M result :=
  try_except
    (p <- parse_step ev ;; handler_steps p)
    (failure_boundary (job_id_of_parse (parse_event ev))).

End Program.

Arguments extract_entries E job_id bucket unzip_prefix total_entries
  idx file_list a : simpl nomatch.

(** ** The decision taken for an entry, as a pure function

    [classify] follows the tests of the loop body in their order and names
    the branch taken; [route_verdict] is what the body then does.  Lemma
    [route_entry_classify] below shows that the body is their
    composition. *)

Inductive verdict :=
| VDir
| VSkip (name reason : string)
| VPdf (base_name : string) (file_data : bytes)
| VExcel (base_name : string) (file_data : bytes)
| VOther (base_name : string) (file_data : bytes).

Definition classify (e : zentry) : verdict :=
  let file_name := ze_name e in
  if Str.endswith file_name "/" then VDir
  else if is_junk_file file_name then VSkip file_name "Junk"
  else
    match ze_read e with
    | inl err => VSkip file_name err
    | inr file_data =>
        let base_name := Str.basename file_name in
        let file_size := Z.of_nat (length file_data) in
        let lower_name := Str.lower base_name in
        if file_size =? 0 then VSkip base_name "Empty"
        else if Str.endswith lower_name ".pdf" then
          if negb (is_valid_pdf base_name file_size)
          then VSkip base_name "Too small"
          else VPdf base_name file_data
        else if Str.endswith lower_name ".xlsx"
                || Str.endswith lower_name ".xls" then
          if negb (is_valid_excel base_name file_size)
          then VSkip base_name "Too small"
          else VExcel base_name file_data
        else VOther base_name file_data
    end.

(** The entry gets past every [continue]: it is uploaded and the progress
    update at the end of the body is reached. *)
Definition reaches (e : zentry) : bool :=
  match classify e with
  | VDir | VSkip _ _ => false
  | VPdf _ _ | VExcel _ _ | VOther _ _ => true
  end.

Definition size_of (file_data : bytes) : Z := Z.of_nat (length file_data).

Definition pdf_item_of (bucket : option string) (unzip_prefix : string)
    (base_name : string) (file_data : bytes) : pdf_item :=
  PdfItem (unzip_prefix +:+ base_name) base_name
          (Str.splitext_root base_name) (size_of file_data) bucket.

Definition excel_item_of (bucket : option string) (unzip_prefix : string)
    (base_name : string) (file_data : bytes) : excel_item :=
  ExcelItem (unzip_prefix +:+ base_name) base_name (size_of file_data) bucket.

Definition accept_excel (a : acc) (x : excel_item) (base_name : string) : acc :=
  match excel_file a with
  | None => set_excel a x
  | Some _ => add_skip a base_name "Duplicate"
  end.

Definition route_verdict (E : Env) (bucket : option string)
    (unzip_prefix : string) (v : verdict) (a : acc) : M flow :=
  match v with
  | VDir => ret (Continue a)
  | VSkip name reason => ret (Continue (add_skip a name reason))
  | VPdf base_name file_data =>
      put_object E bucket (unzip_prefix +:+ base_name) file_data
                 (Some "application/pdf") ;;;
      ret (Reached (add_pdf a (pdf_item_of bucket unzip_prefix
                                           base_name file_data)))
  | VExcel base_name file_data =>
      put_object E bucket (unzip_prefix +:+ base_name) file_data
                 (Some XLSX_TYPE) ;;;
      ret (Reached (accept_excel a (excel_item_of bucket unzip_prefix
                                                  base_name file_data)
                                 base_name))
  | VOther base_name file_data =>
      put_object E bucket (unzip_prefix +:+ base_name) file_data None ;;;
      ret (Reached (add_other a (OtherItem (unzip_prefix +:+ base_name)
                                           base_name (size_of file_data))))
  end.

(** ** Observations on a list of calls *)

Fixpoint field_of (name : string) (fs : list (string * fval)) : option fval :=
  match fs with
  | [] => None
  | (k, v) :: rest => if bool_decide (k = name) then Some v else field_of name rest
  end.

(** Fields written to the job collection by a call: those of a [$set], and
    those of a [$setOnInsert] that did insert. *)
Definition written (o : op) : option (list (string * fval)) :=
  match o with
  | OpUpdate _ fs => Some fs
  | OpUpsert _ fs true => Some fs
  | _ => None
  end.

Definition int_written (name : string) (o : op) : option Z :=
  match written o ≫= field_of name with
  | Some (FInt z) => Some z
  | _ => None
  end.

Definition str_written (name : string) (o : op) : option string :=
  match written o ≫= field_of name with
  | Some (FStr s) => Some s
  | _ => None
  end.

(** The progress values, and the statuses, persisted by a list of calls,
    in order. *)
Definition progress_writes (t : list op) : list Z :=
  omap (int_written "progress") t.
Definition status_writes (t : list op) : list string :=
  omap (str_written "status") t.

(** A [$set] that also sets the last-update timestamp. *)
Definition stamped (o : op) : Prop :=
  match o with
  | OpUpdate _ fs => is_Some (field_of UPDATED_ON fs)
  | _ => True
  end.

(** The [$set] of [delete_zip_file]. *)
Definition deletion_update (o : op) : Prop :=
  match o with
  | OpUpdate _ fs =>
      ∃ now_millis, fs = [ ("originalZipDeleted", FBool true);
                           ("zipDeletedAt_KJUSYSCommon_DateTime",
                            FInt now_millis) ]
  | _ => False
  end.

(** The [$set] of a progress checkpoint. *)
Definition progress_update (fs : list (string * fval)) : Prop :=
  ∃ v now_millis, fs = [ ("progress", FInt v); (UPDATED_ON, FInt now_millis) ].

(** Calls the loop can make for job [jid]. *)
Definition loop_op (jid : option string) (o : op) : Prop :=
  match o with
  | OpPut _ _ _ _ => True
  | OpUpdate j fs => j = jid ∧ progress_update fs
  | _ => False
  end.

(** Calls the handler can make for job [jid] once the document has been
    created: no upsert, and every [$set] leaves the creation timestamp
    alone and either sets the last-update timestamp or is the one of
    [delete_zip_file]. *)
Definition late_op (jid : option string) (o : op) : Prop :=
  match o with
  | OpUpsert _ _ _ => False
  | OpUpdate j fs =>
      j = jid ∧ field_of CREATED_ON fs = None ∧ (stamped o ∨ deletion_update o)
  | _ => True
  end.

(** ** Reasoning principles for [M] *)

Definition preserves {A} (I : world → Prop) (m : M A) : Prop :=
  ∀ w, I w → I (m w).2.

(** Closure conditions on an invariant, one per kind of state change. *)
Definition log_closed (I : world → Prop) (o : op) : Prop :=
  ∀ w, I w → I (World (w_db w) (w_s3 w) (w_tick w) (w_trace w ++ [o])).
Definition db_closed (I : world → Prop) (f : jobs → jobs) : Prop :=
  ∀ w, I w → I (World (f (w_db w)) (w_s3 w) (w_tick w) (w_trace w)).
Definition s3_closed (I : world → Prop) : Prop :=
  ∀ w f, I w → I (World (w_db w) (f (w_s3 w)) (w_tick w) (w_trace w)).
Definition tick_closed (I : world → Prop) : Prop :=
  ∀ w, I w → I (World (w_db w) (w_s3 w) (S (w_tick w)) (w_trace w)).

(** [I] is kept by the clock, by the blob store, by logging a call that
    satisfies [P] and by the [$set] of an update that satisfies [P]. *)
Definition closed (P : op → Prop) (I : world → Prop) : Prop :=
  tick_closed I ∧ s3_closed I ∧ (∀ o, P o → log_closed I o) ∧
  (∀ jid fs, P (OpUpdate jid fs) → db_closed I (alter (set_fields fs) jid)).

(** The calls made since [w0] all satisfy [P]. *)
Definition since (w0 : world) (P : op → Prop) (w : world) : Prop :=
  ∃ delta, w_trace w = w_trace w0 ++ delta ∧ Forall P delta.

(** ** The loop seen from outside *)

(** What an entry uploads: base name, data and content type. *)
Definition upload_of (e : zentry) : option (string * bytes * option string) :=
  match classify e with
  | VPdf base_name file_data =>
      Some (base_name, file_data, Some "application/pdf")
  | VExcel base_name file_data => Some (base_name, file_data, Some XLSX_TYPE)
  | VOther base_name file_data => Some (base_name, file_data, None)
  | VDir | VSkip _ _ => None
  end.

(** The accumulators after an entry. *)
Definition step_acc (bucket : option string) (unzip_prefix : string)
    (a : acc) (e : zentry) : acc :=
  match classify e with
  | VDir => a
  | VSkip name reason => add_skip a name reason
  | VPdf base_name file_data =>
      add_pdf a (pdf_item_of bucket unzip_prefix base_name file_data)
  | VExcel base_name file_data =>
      accept_excel a (excel_item_of bucket unzip_prefix base_name file_data)
                   base_name
  | VOther base_name file_data =>
      add_other a (OtherItem (unzip_prefix +:+ base_name) base_name
                             (size_of file_data))
  end.

(** The world after a successful [put_object]. *)
Definition after_put (bn k : string) (body : bytes) (ctype : option string)
    (w : world) : world :=
  World (w_db w) (<[(bn, k) := Blob body ctype (Some "AES256")]> (w_s3 w))
        (w_tick w) (w_trace w ++ [OpPut (Some bn) k body ctype]).

(** The world after the progress update at the end of iteration [idx]. *)
Definition after_checkpoint (E : Env) (jid : option string) (total : Z)
    (idx : nat) (w : world) : world :=
  if (Z.of_nat idx + 1) mod 10 =? 0 then
    let fs := [ ("progress", FInt (progress_at total idx));
                (UPDATED_ON, FInt (env_clock E (w_tick w))) ] in
    World (alter (set_fields fs) jid (w_db w)) (w_s3 w) (S (w_tick w))
          (w_trace w ++ [OpUpdate jid fs])
  else w.

(** The progress values the loop persists over [file_list], whose first
    entry has index [idx]: one for each entry that gets past every
    [continue] and whose 1-based index is a multiple of 10. *)
Fixpoint checkpoints (total : Z) (idx : nat) (file_list : list zentry)
  : list Z :=
  match file_list with
  | [] => []
  | e :: rest =>
      (if reaches e && ((Z.of_nat idx + 1) mod 10 =? 0)
       then [progress_at total idx] else [])
      ++ checkpoints total (S idx) rest
  end.

(** A call that writes neither a progress value nor a status. *)
Definition quiet (o : op) : Prop :=
  int_written "progress" o = None ∧ str_written "status" o = None.

(** A spreadsheet that passes every test of the spreadsheet branch, with
    its base name and data. *)
Definition qualifying_spreadsheet (e : zentry) : option (string * bytes) :=
  match classify e with
  | VExcel base_name file_data => Some (base_name, file_data)
  | _ => None
  end.

(** The manifest item of an accepted PDF. *)
Definition accepted_pdf (bucket : option string) (unzip_prefix : string)
    (e : zentry) : option pdf_item :=
  match classify e with
  | VPdf base_name file_data =>
      Some (pdf_item_of bucket unzip_prefix base_name file_data)
  | _ => None
  end.

Definition is_duplicate (s : skip_record) : Prop := skip_reason s = "Duplicate".

Global Instance is_duplicate_dec s : Decision (is_duplicate s).
Proof. unfold is_duplicate. apply _. Defined.

Definition duplicate_of (x : string * bytes) : skip_record :=
  Skip x.1 "Duplicate".

(** The last character of a string, if any. *)
Fixpoint last_char (s : string) : option ascii :=
  match s with
  | EmptyString => None
  | String c EmptyString => Some c
  | String _ r => last_char r
  end.

(** Destination key and size of an upload. *)
Definition put_summary (o : op) : option (string * nat) :=
  match o with
  | OpPut _ k body _ => Some (k, length body)
  | _ => None
  end.

(** The document with filter value [k] has creation timestamp [v]. *)
Definition created_at (k : option string) (v : fval) (w : world) : Prop :=
  ∃ d, w_db w !! k = Some d ∧ d !! CREATED_ON = Some v.

(** The status the invoker compares with 200: the [statusCode] of the
    payload, or, when the payload has none, the transport status, or 0. *)
Definition effective_status (sc : option Z) (pl : payload) : option Z :=
  fget_default (pl_statusCode pl) (default 0 sc).

(** The binary64 computation [k / 30 * 30] of the source, for a small
    natural number [k], compared with [k]. *)
Definition float_of_nat (n : nat) : float :=
  PrimFloat.of_uint63 (Uint63.of_Z (Z.of_nat n)).

Definition quotient_round_trips (k : nat) : bool :=
  PrimFloat.eqb
    (PrimFloat.mul (PrimFloat.div (float_of_nat k) (float_of_nat 30))
                   (float_of_nat 30))
    (float_of_nat k).

(** The job document exists. *)
Definition has_job (jid : option string) (w : world) : Prop :=
  is_Some (w_db w !! jid).

(** Kinds of entries named by the scenarios. *)
Definition is_dir (e : zentry) : Prop := Str.endswith (ze_name e) "/" = true.

Definition tiny_pdf (e : zentry) : Prop :=
  Str.endswith (ze_name e) "/" = false
  ∧ Str.endswith (Str.lower (Str.basename (ze_name e))) ".pdf" = true
  ∧ ∃ file_data, ze_read e = inr file_data ∧ length file_data = 500%nat.

(** ** Sample inputs *)

Definition file_of_size (name : string) (n : nat) : zentry :=
  ZEntry name (inr (repeat Byte.x00 n)).

Definition ok_payload : invoke_outcome :=
  InvokeReturns (Some 200) (Payload Absent (Val 200) Absent).

Definition bad_header_payload : invoke_outcome :=
  InvokeReturns (Some 200) (Payload Absent (Val 500) (Val "bad header")).

(** An environment whose archive decodes to [entries], whose blob store
    never fails and whose validation function answers [outcome]. *)
Definition sample_env (entries : list zentry) (outcome : invoke_outcome) : Env :=
  {| env_clock := λ n, 1700000000000 + Z.of_nat n;
     env_uuid := "0000";
     env_unquote_plus := λ s, s;
     env_DELETE_ZIP_AFTER_SUCCESS := true;
     env_zip_open := λ _, inr entries;
     env_put_error := λ _ _, None;
     env_delete_error := λ _ _, None;
     env_invoke := λ _, outcome |}.

Definition sample_key : string := "Answer_Scripts_Zip_Files/E1/C1/batch.zip".

(** A direct invocation for job J1. *)
Definition direct_event : event :=
  Event None (Val "J1") (Val "exams") Absent (Val sample_key)
        (Val "E1") (Val "C1") Absent.

(** A trigger of neither recognised shape. *)
Definition empty_event : event :=
  Event None Absent Absent Absent Absent Absent Absent Absent.

(** The archive is in the blob store; the job collection is empty. *)
Definition zip_world : world :=
  World ∅ {[ ("exams", sample_key) := Blob [] None None ]} 0 [].

(** The job collection holds one document whose [jobId] is null, as an
    earlier direct invocation without [jobId] leaves it. *)
Definition orphan_world : world :=
  World {[ None := {[ "status" := FStr "PENDING" ]} ]} ∅ 0 [].

(** ** Notions used by the further properties *)

(** The string has no slash. *)
Definition no_slash (s : string) : Prop := Str.contains s "/" = false.

(** The number of accepted files the accumulators hold. *)
Definition accepted_count (a : acc) : nat :=
  (length (pdf_files a) + length (other_files a)
   + match excel_file a with Some _ => 1 | None => 0 end)%nat.

(** The entry is not a directory marker. *)
Definition is_file (e : zentry) : bool := negb (Str.endswith (ze_name e) "/").

(** An upload, among the calls. *)
Definition put_call (o : op) : option op :=
  match o with OpPut _ _ _ _ => Some o | _ => None end.

(** The upload the loop makes for an entry, if any. *)
Definition upload_call (bucket : option string) (unzip_prefix : string)
    (e : zentry) : option op :=
  match upload_of e with
  | Some (base_name, file_data, ctype) =>
      Some (OpPut bucket (unzip_prefix +:+ base_name) file_data ctype)
  | None => None
  end.

(** What [lambda_handler] does after the loop, as written in
    [steps_after_create], named to state facts about it. *)
Definition finish_job (E : Env) (p : parsed) (total_entries : Z) (a : acc)
  : M result :=
  let job_id := p_jobId p in
  let unzip_prefix := unzip_prefix_of (p_examCode p) (p_courseCode p) in
  match excel_file a with
  | None => raise "No Excel file found"
  | Some xl =>
      if bool_decide (pdf_files a = []) then raise "No PDF files found"
      else
        now_millis <- get_ist_millis E ;;
        update_one job_id
          [ ("progress", FInt 40);
            ("status", FStr "UNZIPPED");
            ("currentStep", FStr "Starting validation");
            (UPDATED_ON, FInt now_millis);
            ("totalFiles", FInt total_entries);
            ("validFilesProcessed", FInt (valid_files_processed a));
            ("totalPDFs", FInt (Z.of_nat (length (pdf_files a))));
            ("pdfFiles", FPdfs (pdf_files a));
            ("excelFile", FExcel xl);
            ("unzipFolderPath", FStr unzip_prefix) ] ;;;
        lambda2_result <- invoke_lambda2_sync E job_id ;;
        match lambda2_result with
        | L2Fail error_msg =>
            now_millis <- get_ist_millis E ;;
            update_one job_id
              [ ("status", FStr "VALIDATION_FAILED");
                ("error",
                 FStr ("Validation failed: " +:+ Str.py_str error_msg));
                (UPDATED_ON, FInt now_millis) ] ;;;
            raise ("Lambda 2 failed: " +:+ Str.py_str error_msg)
        | L2Ok _ =>
            (if env_DELETE_ZIP_AFTER_SUCCESS E
             then delete_zip_file E (p_s3Bucket p) (p_s3Key p) job_id
             else ret false) ;;;
            now_millis <- get_ist_millis E ;;
            update_one job_id
              [ ("status", FStr "COMPLETED");
                (UPDATED_ON, FInt now_millis) ] ;;;
            ret (Result 200 job_id "SUCCESS" None)
        end
  end.

(** A call other than a deletion in the blob store. *)
Definition not_delete (o : op) : Prop :=
  match o with OpDelete _ _ => False | _ => True end.

(** The calls made since [w0] contain a call to the validation function
    for [jid]; nothing is deleted before it, and only the object [(b, k)]
    after it. *)
Definition guarded (w0 : world) (jid b k : option string) (w : world)
  : Prop :=
  ∃ delta,
    w_trace w = w_trace w0 ++ delta
    ∧ ∃ pre post,
        delta = pre ++ OpInvoke jid :: post
        ∧ Forall not_delete pre
        ∧ Forall (λ o, not_delete o ∨ o = OpDelete b k) post.

(** A property of the world that looks at the blob store only. *)
Definition on_blobs (F : blobs → Prop) (w : world) : Prop := F (w_s3 w).

(** What a successful upload stores. *)
Definition store_upload (s : blobs) (o : op) : blobs :=
  match o with
  | OpPut (Some bn) k body ctype =>
      <[(bn, k) := Blob body ctype (Some "AES256")]> s
  | _ => s
  end.

(** The object [(bn, kn)] is outside what a run for [p] may write or
    delete: another bucket, or a key that is neither the archive's nor
    under the unzip prefix. *)
Definition outside_footprint (p : parsed) (bn kn : string) : Prop :=
  p_s3Bucket p = Some bn →
  p_s3Key p ≠ Some kn
  ∧ Str.startswith kn (unzip_prefix_of (p_examCode p) (p_courseCode p))
    = false.

(** The extension [.pdf], in either case of each letter. *)
Definition pdf_ext (ext : string) : Prop :=
  ∃ c1 c2 c3, ext = String "." (String c1 (String c2 (String c3 "")))
              ∧ (c1 = "p"%char ∨ c1 = "P"%char)
              ∧ (c2 = "d"%char ∨ c2 = "D"%char)
              ∧ (c3 = "f"%char ∨ c3 = "F"%char).

(** * Properties *)

(** ** The classifier on some names *)

Example junk_ds_store : is_junk_file "photos/.DS_Store" = true.
Proof. reflexivity. Qed.
Example junk_cache : is_junk_file "cache.xlsx" = true.
Proof. reflexivity. Qed.

(** The Kelvin sign lower-cases to [k], which makes a backup extension. *)
Example junk_kelvin_sign :
  let name := "notes.ba" +:+ String "226" (String "132" (String "170" "")) in
  Str.lower name = "notes.bak" ∧ is_junk_file name = true.
Proof. vm_compute. by split. Qed.

(** Capital I with dot above lower-cases to [i] and a combining dot. *)
Example lower_dotted_capital_i :
  Str.lower ("F" +:+ String "196" (String "176" "LE.PDF"))
  = "fi" +:+ String "204" (String "135" "le.pdf").
Proof. vm_compute. reflexivity. Qed.
Example not_junk_pdf : is_junk_file "batch1/answer.pdf" = false.
Proof. reflexivity. Qed.
Example basename_dir : Str.basename "a/b/" = "".
Proof. reflexivity. Qed.
Example split3 : Str.split_slash "E1/C1/x.zip" = ["E1"; "C1"; "x.zip"].
Proof. reflexivity. Qed.
Example splitext_pdf : Str.splitext_root "R123.v2.pdf" = "R123.v2".
Proof. reflexivity. Qed.

(** ** The loop body follows the classifier *)

Lemma route_entry_classify E bucket unzip_prefix e a :
  route_entry E bucket unzip_prefix e a
  = route_verdict E bucket unzip_prefix (classify e) a.
Proof.
  unfold route_entry, classify.
  destruct (Str.endswith (ze_name e) "/"); [reflexivity|].
  destruct (is_junk_file (ze_name e)); [reflexivity|].
  destruct (ze_read e) as [err|file_data]; [reflexivity|].
  destruct (Z.of_nat (length file_data) =? 0); [reflexivity|].
  destruct (Str.endswith (Str.lower (Str.basename (ze_name e))) ".pdf").
  { destruct (negb _); reflexivity. }
  destruct (_ || _).
  { destruct (negb _); [reflexivity|].
    cbn [route_verdict]. unfold accept_excel.
    destruct (excel_file a); reflexivity. }
  reflexivity.
Qed.

(** ** Invariants of monadic programs *)

Section Preserves.

Context (I : world → Prop).

Lemma preserves_ret {A} (a : A) : preserves I (ret a).
Proof. intros w Hw. exact Hw. Qed.

Lemma preserves_raise {A} msg : preserves I (@raise A msg).
Proof. intros w Hw. exact Hw. Qed.

Lemma preserves_read : preserves I read_world.
Proof. intros w Hw. exact Hw. Qed.

Lemma preserves_bind {A B} (m : M A) (k : A → M B) :
  preserves I m → (∀ a, preserves I (k a)) → preserves I (bind m k).
Proof.
  intros Hm Hk w Hw. unfold bind. specialize (Hm w Hw).
  destruct (m w) as [[e|a] w']; [exact Hm|]. apply Hk, Hm.
Qed.

Lemma preserves_try {A} (m : M A) (h : string → M A) :
  preserves I m → (∀ e, preserves I (h e)) → preserves I (try_except m h).
Proof.
  intros Hm Hh w Hw. unfold try_except. specialize (Hm w Hw).
  destruct (m w) as [[e|a] w']; [apply Hh, Hm | exact Hm].
Qed.

Lemma preserves_log o : log_closed I o → preserves I (log o).
Proof. intros H w Hw. apply H, Hw. Qed.

Lemma preserves_set_db f : db_closed I f → preserves I (set_db f).
Proof. intros H w Hw. apply H, Hw. Qed.

Lemma preserves_set_s3 f : s3_closed I → preserves I (set_s3 f).
Proof. intros H w Hw. apply H, Hw. Qed.

Variable E : Env.

Lemma preserves_clock : tick_closed I → preserves I (get_ist_millis E).
Proof. intros H w Hw. apply H, Hw. Qed.

Lemma preserves_update_one jid fs :
  log_closed I (OpUpdate jid fs) → db_closed I (alter (set_fields fs) jid) →
  preserves I (update_one jid fs).
Proof.
  intros Hl Hd. apply preserves_bind; [by apply preserves_log|].
  intros _. by apply preserves_set_db.
Qed.

Lemma preserves_upsert jid fs :
  (∀ b, log_closed I (OpUpsert jid fs b)) →
  (∀ w, I w → w_db w !! jid = None →
        I (World (<[jid := set_fields (("jobId", fopt jid) :: fs) ∅]> (w_db w))
                 (w_s3 w) (w_tick w) (w_trace w))) →
  preserves I (update_one_upsert jid fs).
Proof.
  intros Hl Hd w Hw. unfold update_one_upsert, bind, read_world.
  destruct (w_db w !! jid) eqn:Hj; cbn.
  - apply Hl, Hw.
  - apply (Hd _ (Hl true w Hw)). exact Hj.
Qed.

Lemma preserves_get_object b k : log_closed I (OpGet b k) →
  preserves I (get_object b k).
Proof.
  intros Hl. apply preserves_bind; [by apply preserves_log|]. intros _.
  destruct b, k; try apply preserves_raise.
  apply preserves_bind; [apply preserves_read|]. intros w.
  destruct (w_s3 w !! _); [apply preserves_ret | apply preserves_raise].
Qed.

Lemma preserves_put_object b k body ctype :
  log_closed I (OpPut b k body ctype) → s3_closed I →
  preserves I (put_object E b k body ctype).
Proof.
  intros Hl Hs. apply preserves_bind; [by apply preserves_log|]. intros _.
  destruct b; [|apply preserves_raise].
  destruct (env_put_error E _ _); [apply preserves_raise|].
  by apply preserves_set_s3.
Qed.

Lemma preserves_delete_object b k :
  log_closed I (OpDelete b k) → s3_closed I →
  preserves I (delete_object E b k).
Proof.
  intros Hl Hs. apply preserves_bind; [by apply preserves_log|]. intros _.
  destruct b, k; try apply preserves_raise.
  destruct (env_delete_error E _ _); [apply preserves_raise|].
  by apply preserves_set_s3.
Qed.

Lemma preserves_invoke jid : log_closed I (OpInvoke jid) →
  preserves I (invoke_lambda2_sync E jid).
Proof.
  intros Hl. apply preserves_bind; [by apply preserves_log|]. intros _.
  apply preserves_ret.
Qed.

End Preserves.

(** ** Documents *)

Lemma lookup_list_to_map_field_of (fs : list (string * fval)) name :
  (list_to_map fs : doc) !! name = field_of name fs.
Proof.
  induction fs as [|[k v] fs IH]; [reflexivity|].
  cbn [list_to_map foldr field_of curry fst snd].
  rewrite lookup_insert. case_decide; case_bool_decide; congruence.
Qed.

Lemma lookup_set_fields fs (d : doc) name :
  set_fields fs d !! name
  = match field_of name fs with Some v => Some v | None => d !! name end.
Proof.
  unfold set_fields. rewrite lookup_union, lookup_list_to_map_field_of.
  destruct (field_of name fs), (d !! name); reflexivity.
Qed.

(** ** What the loop and the handler keep *)

Lemma closed_weaken (P Q : op → Prop) I :
  (∀ o, P o → Q o) → closed Q I → closed P I.
Proof.
  intros HPQ (Ht & Hs & Hl & Hd). repeat split; auto.
Qed.

Lemma loop_op_late jid o : loop_op jid o → late_op jid o.
Proof.
  destruct o; cbn; try tauto.
  intros [-> (v & now & ->)]. split; [reflexivity|]. split; [reflexivity|].
  left. cbn. eauto.
Qed.

Lemma since_refl w0 P : since w0 P w0.
Proof. exists []. split; [by rewrite app_nil_r | constructor]. Qed.

Lemma since_closed w0 P : closed P (since w0 P).
Proof.
  split; [|split; [|split]].
  - intros w Hw. exact Hw.
  - intros w f Hw. exact Hw.
  - intros o Ho w (delta & Ht & Hd). exists (delta ++ [o]). cbn. split.
    + by rewrite Ht, app_assoc.
    + apply Forall_app. split; [exact Hd | by constructor].
  - intros jid fs _ w Hw. exact Hw.
Qed.

Section Closed.

Context (E : Env) (I : world → Prop).

Ltac pres :=
  repeat lazymatch goal with
    | |- preserves _ (ret _) => apply preserves_ret
    | |- preserves _ (raise _) => apply preserves_raise
    | |- preserves _ (bind _ _) => apply preserves_bind; [|intros ?]
    | |- preserves _ (try_except _ _) => apply preserves_try; [|intros ?]
    end.

Lemma preserves_checkpoint jid total idx :
  closed (loop_op jid) I → preserves I (checkpoint E jid total idx).
Proof.
  intros (Ht & Hs & Hl & Hd). unfold checkpoint.
  destruct (_ =? _); pres.
  - by apply preserves_clock.
  - apply preserves_update_one; [apply Hl | apply Hd];
      (split; [reflexivity | eexists _, _; reflexivity]).
Qed.

Lemma preserves_route_verdict jid bucket unzip_prefix v a :
  closed (loop_op jid) I →
  preserves I (route_verdict E bucket unzip_prefix v a).
Proof.
  intros (Ht & Hs & Hl & Hd).
  destruct v; cbn [route_verdict]; pres;
    apply preserves_put_object; auto; by apply Hl.
Qed.

Lemma preserves_loop_body jid bucket unzip_prefix total idx e a :
  closed (loop_op jid) I →
  preserves I (loop_body E jid bucket unzip_prefix total idx e a).
Proof.
  intros HI. unfold loop_body. rewrite route_entry_classify.
  apply preserves_bind; [by eapply preserves_route_verdict|].
  intros [a'|a']; pres. by apply preserves_checkpoint.
Qed.

Lemma preserves_extract_entries jid bucket unzip_prefix total file_list :
  closed (loop_op jid) I →
  ∀ idx a,
    preserves I (extract_entries E jid bucket unzip_prefix total
                                 idx file_list a).
Proof.
  intros HI. induction file_list as [|e rest IH]; intros idx a.
  - apply preserves_ret.
  - cbn [extract_entries]. apply preserves_bind.
    + by apply preserves_loop_body.
    + intros a'. apply IH.
Qed.

Lemma preserves_delete_zip_file bucket key jid :
  closed (late_op jid) I → preserves I (delete_zip_file E bucket key jid).
Proof.
  intros (Ht & Hs & Hl & Hd). unfold delete_zip_file. pres.
  - apply preserves_delete_object; auto. by apply Hl.
  - by apply preserves_clock.
  - apply preserves_update_one; [apply Hl | apply Hd];
      (split; [reflexivity|]; split; [reflexivity|]; right; cbn; eauto).
Qed.

Lemma late_op_stamped jid fs :
  field_of CREATED_ON fs = None → is_Some (field_of UPDATED_ON fs) →
  late_op jid (OpUpdate jid fs).
Proof. intros H1 H2. split; [reflexivity|]. split; [exact H1|]. by left. Qed.

Lemma preserves_stamped_update jid fs :
  closed (late_op jid) I →
  field_of CREATED_ON fs = None → is_Some (field_of UPDATED_ON fs) →
  preserves I (update_one jid fs).
Proof.
  intros (Ht & Hs & Hl & Hd) H1 H2.
  pose proof (late_op_stamped jid fs H1 H2).
  apply preserves_update_one; [by apply Hl | by apply Hd].
Qed.

Lemma preserves_failure_boundary jid msg :
  closed (late_op jid) I → preserves I (failure_boundary E jid msg).
Proof.
  intros HI. unfold failure_boundary. pres.
  - apply preserves_clock, HI.
  - apply preserves_stamped_update; [exact HI | reflexivity | cbn; eauto].
Qed.

Lemma preserves_steps_after_create p now_millis :
  closed (late_op (p_jobId p)) I →
  preserves I (steps_after_create E p now_millis).
Proof.
  intros HI. pose proof HI as (Ht & Hs & Hl & Hd).
  unfold steps_after_create.
  repeat (pres; lazymatch goal with
    | |- preserves _ (get_ist_millis _) => by apply preserves_clock
    | |- preserves _ (update_one _ _) =>
        apply preserves_stamped_update;
        [exact HI | reflexivity | cbn; eauto]
    | |- preserves _ (get_object _ _) =>
        apply preserves_get_object; by apply Hl
    | |- preserves _ (invoke_lambda2_sync _ _) =>
        apply preserves_invoke; by apply Hl
    | |- preserves _ (zip_open _ _) => unfold zip_open
    | |- preserves _ (extract_entries _ _ _ _ _ _ _ _) =>
        apply preserves_extract_entries;
        eapply closed_weaken; [apply loop_op_late | exact HI]
    | |- preserves _ (delete_zip_file _ _ _ _) =>
        by apply preserves_delete_zip_file
    | |- preserves _ (match ?x with _ => _ end) => destruct x
    | _ => idtac
    end).
Qed.

End Closed.

(** ** Running the primitives *)

Lemma update_one_run jid fs w :
  update_one jid fs w
  = (inr tt, World (alter (set_fields fs) jid (w_db w)) (w_s3 w) (w_tick w)
                   (w_trace w ++ [OpUpdate jid fs])).
Proof. reflexivity. Qed.

Lemma get_ist_millis_run E w :
  get_ist_millis E w
  = (inr (env_clock E (w_tick w)),
     World (w_db w) (w_s3 w) (S (w_tick w)) (w_trace w)).
Proof. reflexivity. Qed.

Lemma update_one_upsert_run jid fs w :
  update_one_upsert jid fs w
  = (inr tt,
     World (match w_db w !! jid with
            | Some _ => w_db w
            | None => <[jid := set_fields (("jobId", fopt jid) :: fs) ∅]> (w_db w)
            end)
           (w_s3 w) (w_tick w)
           (w_trace w ++ [OpUpsert jid fs (bool_decide (w_db w !! jid = None))])).
Proof.
  unfold update_one_upsert, bind, read_world.
  destruct (w_db w !! jid); reflexivity.
Qed.

Lemma failure_boundary_run E jid msg w :
  failure_boundary E jid msg w
  = (inr (Result 500 jid "FAILED" (Some msg)),
     World (alter (set_fields [ ("status", FStr "FAILED"); ("error", FStr msg);
                                (UPDATED_ON, FInt (env_clock E (w_tick w))) ])
                  jid (w_db w))
           (w_s3 w) (S (w_tick w))
           (w_trace w ++ [OpUpdate jid
                            [ ("status", FStr "FAILED"); ("error", FStr msg);
                              (UPDATED_ON, FInt (env_clock E (w_tick w))) ]])).
Proof. reflexivity. Qed.

Lemma parse_step_ok {A} E ev p (k : parsed → M A) w :
  parse_event E ev = inr (Some p) →
  (p <- parse_step E ev ;; k p) w = k p w.
Proof. intros Hp. unfold bind, parse_step. by rewrite Hp. Qed.

Lemma parse_step_fails {A} E ev (k : parsed → M A) w :
  (∀ p, parse_event E ev ≠ inr (Some p)) →
  ∃ msg, (p <- parse_step E ev ;; k p) w = (inl msg, w).
Proof.
  intros Hp. unfold bind, parse_step.
  destruct (parse_event E ev) as [e|[p|]]; [by eexists | | by eexists].
  by destruct (Hp p).
Qed.

(** ** The job document exists from step 2 on *)

Lemma has_job_closed jid P : closed P (has_job jid).
Proof.
  split; [|split; [|split]]; try (intros; intros w Hw; exact Hw).
  - intros w f Hw. exact Hw.
  - intros j fs _ w Hw. unfold has_job in *. cbn.
    rewrite lookup_alter. case_decide; [subst|exact Hw].
    destruct Hw as [d ->]. cbn. eauto.
Qed.

Lemma handler_steps_has_job E p w :
  has_job (p_jobId p) (handler_steps E p w).2.
Proof.
  unfold handler_steps, bind at 1 2.
  rewrite get_ist_millis_run, update_one_upsert_run.
  apply preserves_steps_after_create; [apply has_job_closed|].
  unfold has_job. cbn. destruct (w_db w !! p_jobId p) eqn:Hj.
  - rewrite Hj. eauto.
  - rewrite lookup_insert_eq. eauto.
Qed.

(** ** The outer boundary *)

Lemma lambda_handler_catches E ev w msg w1 :
  (p <- parse_step E ev ;; handler_steps E p) w = (inl msg, w1) →
  lambda_handler E ev w
  = failure_boundary E (job_id_of_parse (parse_event E ev)) msg w1.
Proof. intros Hbody. unfold lambda_handler, try_except. by rewrite Hbody. Qed.

Lemma failed_document E jid msg w :
  has_job jid w →
  ∃ d, w_db (failure_boundary E jid msg w).2 !! jid = Some d
       ∧ d !! "status" = Some (FStr "FAILED")
       ∧ d !! "error" = Some (FStr msg).
Proof.
  intros [d Hd]. rewrite failure_boundary_run. cbn [snd w_db].
  eexists. rewrite lookup_alter, decide_True, Hd by reflexivity.
  split; [reflexivity|]. rewrite !lookup_set_fields. split; reflexivity.
Qed.

(** ** C2 *)

(** C2 (as amended).  An exception raised inside the [try], at or after
    trigger normalization, is caught by the one [except] clause: the
    handler returns the failure result with the text of the exception and
    issues one [$set] of status FAILED, the text and the last-update
    timestamp, filtered on the job identifier.  When normalization
    succeeded the job document exists and ends with status FAILED and that
    text.  When normalization failed the identifier is [None]: nothing was
    done before, and the [$set] is still issued, with the filter
    [jobId = None]; the blob store and the documents with an actual
    identifier are unchanged. *)
Theorem C2_outer_boundary E ev w msg w1 :
  (p <- parse_step E ev ;; handler_steps E p) w = (inl msg, w1) →
  let jid := job_id_of_parse (parse_event E ev) in
  let fs := [ ("status", FStr "FAILED"); ("error", FStr msg);
              (UPDATED_ON, FInt (env_clock E (w_tick w1))) ] in
  let w' := (lambda_handler E ev w).2 in
  (lambda_handler E ev w).1 = inr (Result 500 jid "FAILED" (Some msg))
  ∧ w_trace w' = w_trace w1 ++ [OpUpdate jid fs]
  ∧ w_db w' = alter (set_fields fs) jid (w_db w1)
  ∧ (∀ p, parse_event E ev = inr (Some p) →
       ∃ d, w_db w' !! p_jobId p = Some d
            ∧ d !! "status" = Some (FStr "FAILED")
            ∧ d !! "error" = Some (FStr msg))
  ∧ ((∀ p, parse_event E ev ≠ inr (Some p)) →
       jid = None ∧ w1 = w ∧ w_s3 w' = w_s3 w
       ∧ ∀ j, w_db w' !! Some j = w_db w !! Some j).
Proof.
  intros Hbody jid fs w'. subst w'.
  rewrite (lambda_handler_catches _ _ _ _ _ Hbody). fold jid.
  split; [reflexivity|]. split; [reflexivity|]. split; [reflexivity|]. split.
  - intros p Hp. subst jid. rewrite Hp. cbn [job_id_of_parse].
    apply failed_document.
    rewrite (parse_step_ok _ _ _ _ _ Hp) in Hbody.
    pose proof (handler_steps_has_job E p w) as Hjob.
    by rewrite Hbody in Hjob.
  - intros Hnone.
    destruct (parse_step_fails E ev (handler_steps E) w Hnone) as [msg' Hf].
    rewrite Hf in Hbody. injection Hbody as -> ->.
    assert (jid = None) as ->.
    { subst jid. destruct (parse_event E ev) as [e|[p|]]; try reflexivity.
      by destruct (Hnone p). }
    repeat split. intros j. rewrite failure_boundary_run. cbn [snd w_db].
    by rewrite lookup_alter_ne.
Qed.

(** The boundary at work on an archive without spreadsheet. *)
Lemma C2_outer_boundary_witness :
  let E := sample_env [file_of_size "tiny.pdf" 500] ok_payload in
  let body := (p <- parse_step E direct_event ;; handler_steps E p) zip_world in
  body.1 = inl "No Excel file found"
  ∧ (lambda_handler E direct_event zip_world).1
    = inr (Result 500 (Some "J1") "FAILED" (Some "No Excel file found")).
Proof.
  intros E body.
  assert (body = (inl "No Excel file found", body.2)) as Hbody
    by (vm_compute; reflexivity).
  split; [by rewrite Hbody|].
  exact (proj1 (C2_outer_boundary E direct_event zip_world _ _ Hbody)).
Defined.

(** A trigger of unknown shape still reaches the job collection: one
    [$set] is issued with the filter [jobId = None], and it rewrites the
    document whose [jobId] is null. *)
Lemma C2_counterexample :
  let E := sample_env [] ok_payload in
  let w' := (lambda_handler E empty_event orphan_world).2 in
  parse_event E empty_event = inl "Invalid event format"
  ∧ w_trace w'
    = [ OpUpdate None [ ("status", FStr "FAILED");
                        ("error", FStr "Invalid event format");
                        (UPDATED_ON, FInt 1700000000000) ] ]
  ∧ w_db orphan_world !! None ≫= (.!! "status") = Some (FStr "PENDING")
  ∧ w_db w' !! None ≫= (.!! "status") = Some (FStr "FAILED").
Proof. vm_compute. repeat split. Qed.

(** ** Stepping through a sequence *)

Lemma bind_inr {A B} (m : M A) (k : A → M B) w a w' :
  m w = (inr a, w') → bind m k w = k a w'.
Proof. intros H. unfold bind. by rewrite H. Qed.

Lemma get_object_run b k o w :
  w_s3 w !! (b, k) = Some o →
  get_object (Some b) (Some k) w
  = (inr (blob_body o),
     World (w_db w) (w_s3 w) (w_tick w) (w_trace w ++ [OpGet (Some b) (Some k)])).
Proof.
  intros H. unfold get_object, bind, log, read_world. cbn. by rewrite H.
Qed.

Lemma zip_open_run E zip_bytes file_list w :
  env_zip_open E zip_bytes = inr file_list →
  zip_open E zip_bytes w = (inr file_list, w).
Proof. intros H. unfold zip_open. by rewrite H. Qed.

(** ** Entries that leave the body through [continue] *)

Lemma route_not_reached E bucket unzip_prefix e a w :
  reaches e = false →
  ∃ a', route_entry E bucket unzip_prefix e a w = (inr (Continue a'), w)
        ∧ pdf_files a' = pdf_files a ∧ excel_file a' = excel_file a
        ∧ other_files a' = other_files a
        ∧ valid_files_processed a' = valid_files_processed a.
Proof.
  intros Hr. rewrite route_entry_classify. unfold reaches in Hr.
  destruct (classify e); try discriminate; cbn; eauto 10.
Qed.

Lemma extract_entries_not_reached E jid bucket unzip_prefix total file_list :
  Forall (λ e, reaches e = false) file_list →
  ∀ idx a w,
    ∃ a', extract_entries E jid bucket unzip_prefix total idx file_list a w
          = (inr a', w)
          ∧ pdf_files a' = pdf_files a ∧ excel_file a' = excel_file a
          ∧ other_files a' = other_files a
          ∧ valid_files_processed a' = valid_files_processed a.
Proof.
  induction 1 as [|e rest He _ IH]; intros idx a w.
  - exists a. by cbn.
  - destruct (route_not_reached E bucket unzip_prefix e a w He)
      as (a1 & Hroute & H1 & H2 & H3 & H4).
    destruct (IH (S idx) a1 w) as (a2 & Hrest & G1 & G2 & G3 & G4).
    exists a2. cbn [extract_entries]. unfold loop_body.
    rewrite (bind_inr _ _ _ a1 w).
    + split; [exact Hrest|]. repeat split; congruence.
    + by rewrite (bind_inr _ _ _ (Continue a1) w).
Qed.

Lemma is_dir_not_reached e : is_dir e → reaches e = false.
Proof. unfold is_dir, reaches, classify. by intros ->. Qed.

Lemma tiny_pdf_not_reached e : tiny_pdf e → reaches e = false.
Proof.
  intros (Hd & Hpdf & data & Hread & Hlen). unfold reaches, classify.
  rewrite Hd, Hread, Hlen, Hpdf. unfold is_valid_pdf. rewrite Hpdf. cbn.
  by destruct (is_junk_file (ze_name e)).
Qed.

(** ** C1 *)

(** The steps up to the end of the loop, for an archive none of whose
    entries gets past a [continue]: the missing spreadsheet is reported
    first. *)
Lemma no_upload_no_excel E p now_millis b k o file_list w :
  p_s3Bucket p = Some b → p_s3Key p = Some k →
  w_s3 w !! (b, k) = Some o →
  env_zip_open E (blob_body o) = inr file_list →
  Forall (λ e, reaches e = false) file_list →
  ∃ w1, steps_after_create E p now_millis w = (inl "No Excel file found", w1).
Proof.
  intros Hb Hk Ho Hzip Hall. unfold steps_after_create.
  rewrite Hb, Hk.
  erewrite bind_inr by apply update_one_run.
  erewrite bind_inr by (apply get_object_run; exact Ho).
  erewrite bind_inr by (apply zip_open_run; exact Hzip).
  match goal with
  | |- ∃ _, bind (extract_entries ?E ?j ?bk ?pre ?tot ?idx ?l ?a) _ ?W = _ =>
      destruct (extract_entries_not_reached E j bk pre tot l Hall idx a W)
        as (a' & Hloop & _ & Hx & _)
  end.
  erewrite bind_inr by exact Hloop.
  rewrite Hx. cbn. eauto.
Qed.

(** C1 (as amended).  For every archive whose entries are directory
    markers and PDF-named files of 500 bytes, the run fails with the
    message "No Excel file found" (the spreadsheet is looked for before the
    PDFs), the job document ends with status FAILED, and its error field
    holds that message. *)
Theorem C1_tiny_pdf_only E ev w p b k o file_list :
  parse_event E ev = inr (Some p) →
  p_s3Bucket p = Some b → p_s3Key p = Some k →
  w_s3 w !! (b, k) = Some o →
  env_zip_open E (blob_body o) = inr file_list →
  Forall (λ e, is_dir e ∨ tiny_pdf e) file_list →
  (lambda_handler E ev w).1
  = inr (Result 500 (p_jobId p) "FAILED" (Some "No Excel file found"))
  ∧ ∃ d, w_db (lambda_handler E ev w).2 !! p_jobId p = Some d
         ∧ d !! "status" = Some (FStr "FAILED")
         ∧ d !! "error" = Some (FStr "No Excel file found").
Proof.
  intros Hp Hb Hk Ho Hzip Hall.
  assert (Forall (λ e, reaches e = false) file_list) as Hnone.
  { eapply Forall_impl; [exact Hall|]. intros e [He|He].
    - by apply is_dir_not_reached.
    - by apply tiny_pdf_not_reached. }
  assert (∃ w1, (p <- parse_step E ev ;; handler_steps E p) w
                = (inl "No Excel file found", w1)) as [w1 Hbody].
  { rewrite (parse_step_ok _ _ _ _ _ Hp). unfold handler_steps.
    erewrite bind_inr by apply get_ist_millis_run.
    erewrite bind_inr by apply update_one_upsert_run.
    eapply no_upload_no_excel; eauto. }
  rewrite (lambda_handler_catches _ _ _ _ _ Hbody), Hp. cbn [job_id_of_parse].
  split; [reflexivity|]. apply failed_document.
  rewrite (parse_step_ok _ _ _ _ _ Hp) in Hbody.
  pose proof (handler_steps_has_job E p w) as Hjob.
  by rewrite Hbody in Hjob.
Qed.

Lemma C1_tiny_pdf_only_witness :
  let E := sample_env [file_of_size "tiny.pdf" 500] ok_payload in
  (lambda_handler E direct_event zip_world).1
  = inr (Result 500 (Some "J1") "FAILED" (Some "No Excel file found")).
Proof.
  intros E.
  refine (proj1 (C1_tiny_pdf_only E direct_event zip_world
                   (Parsed (Some "J1") (Some "exams") (Some sample_key)
                           (Some "E1") (Some "C1") (Some "BACKEND")
                           "DIRECT_INVOCATION")
                   "exams" sample_key (Blob [] None None)
                   [file_of_size "tiny.pdf" 500]
                   eq_refl eq_refl eq_refl _ eq_refl _)).
  - vm_compute. reflexivity.
  - constructor; [|constructor]. right.
    split; [reflexivity|]. split; [reflexivity|].
    exists (repeat Byte.x00 500). split; reflexivity.
Defined.

(** Scenario B of the specification: the archive holds only [tiny.pdf] of
    500 bytes.  The message is not "No PDF files found". *)
Lemma C1_counterexample :
  let E := sample_env [file_of_size "tiny.pdf" 500] ok_payload in
  let r := lambda_handler E direct_event zip_world in
  r.1 = inr (Result 500 (Some "J1") "FAILED" (Some "No Excel file found"))
  ∧ r.1 ≠ inr (Result 500 (Some "J1") "FAILED" (Some "No PDF files found"))
  ∧ w_db r.2 !! Some "J1" ≫= (.!! "error")
    = Some (FStr "No Excel file found").
Proof.
  vm_compute. split; [reflexivity|]. split; [discriminate|reflexivity].
Qed.

(** ** One iteration, and the whole loop *)

Lemma bind_inv_inr {A B} (m : M A) (k : A → M B) w b w' :
  bind m k w = (inr b, w') →
  ∃ a w1, m w = (inr a, w1) ∧ k a w1 = (inr b, w').
Proof.
  unfold bind. destruct (m w) as [[e|a] w1]; [discriminate|]. eauto.
Qed.

Lemma put_object_inv E b k body ctype w w1 :
  put_object E b k body ctype w = (inr tt, w1) →
  ∃ bn, b = Some bn ∧ env_put_error E bn k = None
        ∧ w1 = after_put bn k body ctype w.
Proof.
  unfold put_object, bind, log. cbn.
  destruct b as [bn|]; [|discriminate].
  destruct (env_put_error E bn k) eqn:Herr; [discriminate|].
  intros [= <-]. eauto.
Qed.

Lemma put_object_run E bn k body ctype w :
  env_put_error E bn k = None →
  put_object E (Some bn) k body ctype w
  = (inr tt, after_put bn k body ctype w).
Proof. intros H. unfold put_object, bind, log. cbn. by rewrite H. Qed.

Lemma checkpoint_run E jid total idx w :
  checkpoint E jid total idx w
  = (inr tt, after_checkpoint E jid total idx w).
Proof.
  unfold checkpoint, after_checkpoint. by destruct (_ =? _).
Qed.

Lemma upload_of_None e : upload_of e = None ↔ reaches e = false.
Proof. unfold reaches, upload_of. destruct (classify e); split; done. Qed.

Lemma loop_body_inv E jid bucket unzip_prefix total idx e a w a1 w1 :
  loop_body E jid bucket unzip_prefix total idx e a w = (inr a1, w1) →
  a1 = step_acc bucket unzip_prefix a e
  ∧ match upload_of e with
    | None => w1 = w
    | Some (base_name, file_data, ctype) =>
        ∃ bn, bucket = Some bn
              ∧ env_put_error E bn (unzip_prefix +:+ base_name) = None
              ∧ w1 = after_checkpoint E jid total idx
                       (after_put bn (unzip_prefix +:+ base_name)
                                  file_data ctype w)
    end.
Proof.
  unfold loop_body, step_acc, upload_of. rewrite route_entry_classify.
  intros H. apply bind_inv_inr in H as (f & w2 & Hroute & Hrest).
  destruct (classify e); cbn [route_verdict] in Hroute;
    try (injection Hroute as <- <-; injection Hrest as <- <-; done);
    apply bind_inv_inr in Hroute as ([] & w3 & Hput & Hret);
    injection Hret as <- <-;
    apply put_object_inv in Hput as (bn & -> & Herr & ->);
    apply bind_inv_inr in Hrest as ([] & w4 & Hcp & Hret);
    injection Hret as <- <-;
    rewrite checkpoint_run in Hcp; injection Hcp as <-; eauto.
Qed.

Lemma loop_body_run E jid bn unzip_prefix total idx e a w :
  (∀ k, env_put_error E bn k = None) →
  loop_body E jid (Some bn) unzip_prefix total idx e a w
  = (inr (step_acc (Some bn) unzip_prefix a e),
     match upload_of e with
     | None => w
     | Some (base_name, file_data, ctype) =>
         after_checkpoint E jid total idx
           (after_put bn (unzip_prefix +:+ base_name) file_data ctype w)
     end).
Proof.
  intros Hput. unfold loop_body, step_acc, upload_of.
  rewrite route_entry_classify.
  destruct (classify e); cbn [route_verdict]; try reflexivity;
    (erewrite bind_inr;
     [|erewrite bind_inr by (apply put_object_run, Hput); reflexivity]);
    cbv beta iota; (erewrite bind_inr by apply checkpoint_run); reflexivity.
Qed.

(** With a bucket and a blob store that accepts every upload, the loop
    returns, and its accumulators are the fold of [step_acc]. *)
Lemma extract_entries_total E jid bn unzip_prefix total file_list :
  (∀ k, env_put_error E bn k = None) →
  ∀ idx a w,
    (extract_entries E jid (Some bn) unzip_prefix total idx file_list a w).1
    = inr (foldl (step_acc (Some bn) unzip_prefix) a file_list).
Proof.
  intros Hput. induction file_list as [|e rest IH]; intros idx a w.
  - reflexivity.
  - cbn [extract_entries foldl].
    erewrite bind_inr by (by apply loop_body_run). apply IH.
Qed.

Lemma extract_entries_acc E jid bucket unzip_prefix total file_list :
  ∀ idx a w a' w',
    extract_entries E jid bucket unzip_prefix total idx file_list a w
    = (inr a', w') →
    a' = foldl (step_acc bucket unzip_prefix) a file_list.
Proof.
  induction file_list as [|e rest IH]; intros idx a w a' w' H.
  - by injection H as <- <-.
  - cbn [extract_entries foldl] in *.
    apply bind_inv_inr in H as (a1 & w1 & Hbody & Hrest).
    apply loop_body_inv in Hbody as [-> _]. eapply IH, Hrest.
Qed.

(** ** The calls made by the loop *)

Lemma progress_writes_app t1 t2 :
  progress_writes (t1 ++ t2) = progress_writes t1 ++ progress_writes t2.
Proof. apply omap_app. Qed.

Lemma status_writes_app t1 t2 :
  status_writes (t1 ++ t2) = status_writes t1 ++ status_writes t2.
Proof. apply omap_app. Qed.

Lemma status_writes_cons o t :
  status_writes (o :: t)
  = match str_written "status" o with
    | Some s => s :: status_writes t
    | None => status_writes t
    end.
Proof. reflexivity. Qed.

Lemma loop_op_no_status jid delta :
  Forall (loop_op jid) delta → status_writes delta = [].
Proof.
  induction 1 as [|o delta Ho _ IH]; [reflexivity|].
  rewrite status_writes_cons, IH.
  destruct o; cbn in Ho; try done.
  by destruct Ho as [_ (v & now & ->)].
Qed.

Lemma after_checkpoint_trace E jid total idx w :
  ∃ delta,
    w_trace (after_checkpoint E jid total idx w) = w_trace w ++ delta
    ∧ progress_writes delta
      = (if (Z.of_nat idx + 1) mod 10 =? 0 then [progress_at total idx] else [])
    ∧ Forall (loop_op jid) delta.
Proof.
  unfold after_checkpoint. destruct (_ =? _).
  - eexists [_]. split; [reflexivity|]. split; [reflexivity|].
    constructor; [|constructor]. split; [reflexivity|]. by eexists _, _.
  - exists []. split; [by rewrite app_nil_r|]. split; [reflexivity|constructor].
Qed.

Lemma loop_body_trace E jid bucket unzip_prefix total idx e a w a1 w1 :
  loop_body E jid bucket unzip_prefix total idx e a w = (inr a1, w1) →
  ∃ delta,
    w_trace w1 = w_trace w ++ delta
    ∧ progress_writes delta
      = (if reaches e && ((Z.of_nat idx + 1) mod 10 =? 0)
         then [progress_at total idx] else [])
    ∧ Forall (loop_op jid) delta.
Proof.
  intros H. apply loop_body_inv in H as [_ H].
  destruct (upload_of e) as [[[base_name file_data] ctype]|] eqn:Hup.
  - destruct H as (bn & -> & _ & ->).
    assert (reaches e = true) as ->.
    { destruct (reaches e) eqn:Hr; [done|].
      apply upload_of_None in Hr. congruence. }
    destruct (after_checkpoint_trace E jid total idx
                (after_put bn (unzip_prefix +:+ base_name) file_data ctype w))
      as (d & Ht & Hp & Hl).
    eexists (_ :: d). rewrite Ht. cbn [after_put w_trace].
    split; [by rewrite <- app_assoc|]. split; [exact Hp|].
    constructor; [exact Logic.I | exact Hl].
  - subst w1. apply upload_of_None in Hup. rewrite Hup.
    exists []. split; [by rewrite app_nil_r|]. split; [reflexivity|constructor].
Qed.

Lemma extract_entries_trace E jid bucket unzip_prefix total file_list :
  ∀ idx a w a' w',
    extract_entries E jid bucket unzip_prefix total idx file_list a w
    = (inr a', w') →
    ∃ delta,
      w_trace w' = w_trace w ++ delta
      ∧ progress_writes delta = checkpoints total idx file_list
      ∧ Forall (loop_op jid) delta.
Proof.
  induction file_list as [|e rest IH]; intros idx a w a' w' H.
  - injection H as <- <-. exists [].
    split; [by rewrite app_nil_r|]. split; [reflexivity|constructor].
  - cbn [extract_entries checkpoints] in *.
    apply bind_inv_inr in H as (a1 & w1 & Hbody & Hrest).
    apply loop_body_trace in Hbody as (d1 & Ht1 & Hp1 & Hl1).
    apply IH in Hrest as (d2 & Ht2 & Hp2 & Hl2).
    exists (d1 ++ d2). rewrite Ht2, Ht1, progress_writes_app, Hp1, Hp2.
    split; [by rewrite app_assoc|]. split; [reflexivity|].
    by apply Forall_app.
Qed.

(** ** The checkpoint values *)

(** When [(idx + 1) * 30 / total_entries] is an integer [k], the quotient
    [(idx + 1) / total_entries] is the rational [k / 30], and the binary64
    product of its rounding with 30 is exactly [k]: truncation does not
    lose a unit. *)
Lemma binary64_quotients_round_trip :
  forallb quotient_round_trips (seq 0 31) = true.
Proof. vm_compute. reflexivity. Qed.

Lemma progress_at_bounds total idx :
  Z.of_nat idx + 1 ≤ total → 10 ≤ progress_at total idx ≤ 40.
Proof.
  intros H. unfold progress_at.
  assert (0 ≤ (Z.of_nat idx + 1) * 30 / total) by (apply Z.div_pos; lia).
  assert ((Z.of_nat idx + 1) * 30 / total ≤ 30).
  { apply Z.div_le_upper_bound; lia. }
  lia.
Qed.

Lemma progress_at_mono total i j :
  0 < total → (i ≤ j)%nat → progress_at total i ≤ progress_at total j.
Proof.
  intros Ht Hij. unfold progress_at.
  assert ((Z.of_nat i + 1) * 30 / total ≤ (Z.of_nat j + 1) * 30 / total).
  { apply Z.div_le_mono; lia. }
  lia.
Qed.

Lemma checkpoints_elem total file_list :
  ∀ idx v,
    v ∈ checkpoints total idx file_list →
    ∃ i e, file_list !! i = Some e ∧ reaches e = true
           ∧ (Z.of_nat (idx + i) + 1) mod 10 = 0
           ∧ v = progress_at total (idx + i).
Proof.
  induction file_list as [|e rest IH]; intros idx v Hv; cbn in Hv.
  - by apply elem_of_nil in Hv.
  - apply elem_of_app in Hv as [Hv|Hv].
    + destruct (reaches e) eqn:Hr; cbn in Hv; [|by apply elem_of_nil in Hv].
      destruct (_ =? _) eqn:Hm; [|by apply elem_of_nil in Hv].
      apply list_elem_of_singleton in Hv as ->. exists 0%nat, e.
      rewrite Nat.add_0_r. repeat split; [done|lia].
    + apply IH in Hv as (i & e' & Hi & Hr & Hm & ->).
      exists (S i), e'. rewrite <- Nat.add_succ_comm. done.
Qed.

Lemma checkpoints_complete total file_list :
  ∀ idx i e,
    file_list !! i = Some e → reaches e = true →
    (Z.of_nat (idx + i) + 1) mod 10 = 0 →
    progress_at total (idx + i) ∈ checkpoints total idx file_list.
Proof.
  induction file_list as [|e0 rest IH]; intros idx i e Hi Hr Hm; [done|].
  cbn [checkpoints]. destruct i as [|i]; cbn in Hi.
  - injection Hi as ->. rewrite Nat.add_0_r in *. rewrite Hr.
    apply Z.eqb_eq in Hm. rewrite Hm. cbn. apply list_elem_of_here.
  - apply elem_of_app. right. rewrite <- Nat.add_succ_comm in *.
    by eapply IH.
Qed.

Lemma checkpoints_sorted total file_list :
  0 < total →
  ∀ idx lo,
    lo ≤ progress_at total idx →
    Sorted Z.le (lo :: checkpoints total idx file_list).
Proof.
  intros Ht. induction file_list as [|e rest IH]; intros idx lo Hlo.
  - repeat constructor.
  - cbn [checkpoints]. destruct (reaches e && _); cbn [app].
    + constructor; [|by constructor].
      apply IH. apply progress_at_mono; lia.
    + apply IH. etrans; [exact Hlo|]. apply progress_at_mono; lia.
Qed.

(** ** C4 *)

Lemma pair_of_fst {A B} (x : A * B) a : x.1 = a → x = (a, x.2).
Proof. destruct x. cbn. by intros ->. Qed.

(** C4 (as amended).  The progress update sits at the end of the loop
    body, after every [continue].  When the loop returns, the progress
    values it has persisted are, in order, those of [checkpoints]: one for
    each 1-based index [i] that is a multiple of 10 and whose entry gets
    past every [continue] (it is uploaded: accepted, or a duplicate
    spreadsheet).  The value is [10 + floor (i * 30 / totalEntries)] and
    lies between 10 and 40.  No checkpoint is persisted at an index whose
    entry is a directory marker or is skipped as junk, unreadable, empty or
    too small. *)
Theorem C4_checkpoints E jid bucket unzip_prefix file_list a w a' w' :
  let total := Z.of_nat (length file_list) in
  extract_entries E jid bucket unzip_prefix total 0 file_list a w
  = (inr a', w') →
  ∃ delta,
    w_trace w' = w_trace w ++ delta
    ∧ progress_writes delta = checkpoints total 0 file_list
    ∧ (∀ i e, file_list !! i = Some e → (Z.of_nat i + 1) mod 10 = 0 →
              reaches e = true →
              10 + (Z.of_nat i + 1) * 30 / total ∈ progress_writes delta)
    ∧ (∀ v, v ∈ progress_writes delta →
            10 ≤ v ≤ 40
            ∧ ∃ i e, file_list !! i = Some e ∧ (Z.of_nat i + 1) mod 10 = 0
                     ∧ reaches e = true
                     ∧ v = 10 + (Z.of_nat i + 1) * 30 / total).
Proof.
  intros total H.
  apply extract_entries_trace in H as (delta & Ht & Hp & _).
  exists delta. split; [exact Ht|]. split; [exact Hp|]. rewrite Hp. split.
  - intros i e Hi Hm Hr.
    exact (checkpoints_complete total file_list 0 i e Hi Hr Hm).
  - intros v Hv. apply checkpoints_elem in Hv as (i & e & Hi & Hr & Hm & ->).
    cbn [Nat.add] in *. split; [|by eauto 10].
    apply progress_at_bounds. apply lookup_lt_Some in Hi. subst total. lia.
Qed.

(** Ten entries, the tenth uploaded: one checkpoint, of value 40. *)
Lemma C4_checkpoints_witness :
  let E := sample_env [] ok_payload in
  let file_list :=
    (λ n, file_of_size n 1024) <$>
      ["1.pdf"; "2.pdf"; "3.pdf"; "4.pdf"; "5.pdf"; "6.pdf"; "7.pdf";
       "8.pdf"; "9.pdf"; "10.pdf"] in
  let run := extract_entries E (Some "J1") (Some "exams") "out/" 10 0
                             file_list acc0 zip_world in
  ∃ delta, w_trace run.2 = [] ++ delta ∧ progress_writes delta = [40].
Proof.
  intros E file_list run.
  destruct (C4_checkpoints E (Some "J1") (Some "exams") "out/" file_list
              acc0 zip_world _ run.2
              (pair_of_fst _ _ (extract_entries_total E (Some "J1") "exams"
                                  "out/" 10 file_list (λ _, eq_refl)
                                  0%nat acc0 zip_world)))
    as (delta & Ht & Hp & _).
  exists delta. split; [exact Ht|]. rewrite Hp. vm_compute. reflexivity.
Defined.

(** Ten entries, the tenth a junk file: the loop returns and has
    persisted no checkpoint, although index 10 is a multiple of 10. *)
Lemma C4_counterexample :
  let E := sample_env [] ok_payload in
  let file_list :=
    ((λ n, file_of_size n 1024) <$>
       ["1.pdf"; "2.pdf"; "3.pdf"; "4.pdf"; "5.pdf"; "6.pdf"; "7.pdf";
        "8.pdf"; "9.pdf"]) ++ [file_of_size ".DS_Store" 100] in
  let run := extract_entries E (Some "J1") (Some "exams") "out/" 10 0
                             file_list acc0 zip_world in
  length file_list = 10%nat
  ∧ is_Some (file_list !! 9%nat)
  ∧ (∃ a', run.1 = inr a')
  ∧ progress_writes (w_trace run.2) = []
  ∧ 10 + 10 * 30 / 10 ∉ progress_writes (w_trace run.2).
Proof.
  vm_compute. split; [reflexivity|]. split; [eauto|]. split; [eauto|].
  split; [reflexivity|]. apply not_elem_of_nil.
Qed.

(** ** A successful run, taken apart *)

Lemma get_object_inv b k zip_bytes w w1 :
  get_object b k w = (inr zip_bytes, w1) →
  w1 = World (w_db w) (w_s3 w) (w_tick w) (w_trace w ++ [OpGet b k]).
Proof.
  unfold get_object, bind, log, read_world.
  destruct b as [bn|], k as [kn|]; cbn; try discriminate.
  destruct (w_s3 w !! (bn, kn)); cbn; [|discriminate]. by intros [= _ <-].
Qed.

Lemma zip_open_inv E zip_bytes file_list w w1 :
  zip_open E zip_bytes w = (inr file_list, w1) → w1 = w.
Proof.
  unfold zip_open. destruct (env_zip_open E zip_bytes); [discriminate|].
  by intros [= _ <-].
Qed.

Lemma invoke_lambda2_sync_run E jid w :
  invoke_lambda2_sync E jid w
  = (inr (l2_of_outcome (env_invoke E jid)),
     World (w_db w) (w_s3 w) (w_tick w) (w_trace w ++ [OpInvoke jid])).
Proof. reflexivity. Qed.

(** [delete_zip_file] always returns; what it logs writes neither a
    progress value nor a status. *)
Lemma delete_zip_file_returns E bucket key jid w :
  ∃ ok w1 del_ops,
    delete_zip_file E bucket key jid w = (inr ok, w1)
    ∧ w_trace w1 = w_trace w ++ del_ops ∧ Forall quiet del_ops.
Proof.
  unfold delete_zip_file, try_except, delete_object, bind, log. cbn.
  destruct bucket as [bn|], key as [kn|];
    try (eexists _, _, [_]; split; [reflexivity|];
         split; [reflexivity|]; by repeat constructor).
  destruct (env_delete_error E bn kn).
  - eexists _, _, [_]. split; [reflexivity|]. split; [reflexivity|].
    by repeat constructor.
  - eexists _, _, [_; _]. cbn. split; [reflexivity|].
    split; [by rewrite <- app_assoc|]. by repeat constructor.
Qed.

Lemma maybe_delete_returns E (flag : bool) bucket key jid w ok w1 :
  (if flag then delete_zip_file E bucket key jid else ret false) w
  = (inr ok, w1) →
  ∃ del_ops, w_trace w1 = w_trace w ++ del_ops ∧ Forall quiet del_ops.
Proof.
  destruct flag; intros H.
  - destruct (delete_zip_file_returns E bucket key jid w)
      as (ok' & w1' & del_ops & Hd & Ht & Hq).
    rewrite Hd in H. injection H as _ <-. eauto.
  - injection H as _ <-. exists []. split; [by rewrite app_nil_r|constructor].
Qed.

Lemma quiet_no_progress del_ops :
  Forall quiet del_ops → progress_writes del_ops = [].
Proof.
  induction 1 as [|o t [Ho _] _ IH]; [reflexivity|].
  unfold progress_writes in *. change (omap ?f (o :: t)) with
    (match f o with Some z => z :: omap f t | None => omap f t end).
  by rewrite Ho.
Qed.

Lemma quiet_no_status del_ops :
  Forall quiet del_ops → status_writes del_ops = [].
Proof.
  induction 1 as [|o t [_ Ho] _ IH]; [reflexivity|].
  by rewrite status_writes_cons, Ho.
Qed.

Lemma lambda_handler_returns E ev w r w' :
  lambda_handler E ev w = (inr r, w') → r_statusCode r = 200 →
  (p <- parse_step E ev ;; handler_steps E p) w = (inr r, w').
Proof.
  intros Hrun H200. unfold lambda_handler, try_except in Hrun.
  destruct ((p <- parse_step E ev ;; handler_steps E p) w) as [[e|r0] w0];
    [|exact Hrun].
  rewrite failure_boundary_run in Hrun. injection Hrun as <- _.
  discriminate.
Qed.

Lemma success_run E ev w r w' :
  lambda_handler E ev w = (inr r, w') → r_statusCode r = 200 →
  ∃ p file_list inserted fs0 fs1 loop_delta fs2 del_ops now_millis,
    parse_event E ev = inr (Some p)
    ∧ w_trace w'
      = w_trace w
        ++ [ OpUpsert (p_jobId p) fs0 inserted; OpUpdate (p_jobId p) fs1;
             OpGet (p_s3Bucket p) (p_s3Key p) ]
        ++ loop_delta
        ++ [ OpUpdate (p_jobId p) fs2; OpInvoke (p_jobId p) ]
        ++ del_ops
        ++ [ OpUpdate (p_jobId p) [ ("status", FStr "COMPLETED");
                                    (UPDATED_ON, FInt now_millis) ] ]
    ∧ (field_of "progress" fs0 = Some (FInt 0)
       ∧ field_of "status" fs0 = Some (FStr "PENDING"))
    ∧ (field_of "progress" fs1 = Some (FInt 10)
       ∧ field_of "status" fs1 = Some (FStr "UNZIPPING"))
    ∧ (field_of "progress" fs2 = Some (FInt 40)
       ∧ field_of "status" fs2 = Some (FStr "UNZIPPED"))
    ∧ progress_writes loop_delta
      = checkpoints (Z.of_nat (length file_list)) 0 file_list
    ∧ Forall (loop_op (p_jobId p)) loop_delta
    ∧ Forall quiet del_ops.
Proof.
  intros Hrun H200. apply lambda_handler_returns in Hrun; [|exact H200].
  destruct (parse_event E ev) as [e|[p|]] eqn:Hp;
    try (unfold bind, parse_step in Hrun; rewrite Hp in Hrun; discriminate).
  rewrite (parse_step_ok _ _ _ _ _ Hp) in Hrun.
  unfold handler_steps in Hrun.
  erewrite bind_inr in Hrun by apply get_ist_millis_run.
  cbn [w_db w_s3 w_tick w_trace] in Hrun.
  erewrite bind_inr in Hrun by apply update_one_upsert_run.
  cbn [w_db w_s3 w_tick w_trace] in Hrun.
  unfold steps_after_create in Hrun.
  erewrite bind_inr in Hrun by apply update_one_run.
  cbn [w_db w_s3 w_tick w_trace] in Hrun.
  apply bind_inv_inr in Hrun as (zip_bytes & w3 & Hget & Hrun).
  apply get_object_inv in Hget as ->.
  apply bind_inv_inr in Hrun as (file_list & w4 & Hzip & Hrun).
  apply zip_open_inv in Hzip as ->.
  apply bind_inv_inr in Hrun as (a & w5 & Hloop & Hrun).
  apply extract_entries_trace in Hloop as (loop_delta & Ht5 & Hcp & Hops).
  destruct (excel_file a) as [xl|]; [|discriminate].
  case_bool_decide; [discriminate|].
  erewrite bind_inr in Hrun by apply get_ist_millis_run.
  cbn [w_db w_s3 w_tick w_trace] in Hrun.
  erewrite bind_inr in Hrun by apply update_one_run.
  cbn [w_db w_s3 w_tick w_trace] in Hrun.
  erewrite bind_inr in Hrun by apply invoke_lambda2_sync_run.
  cbn [w_db w_s3 w_tick w_trace] in Hrun.
  destruct (l2_of_outcome _) as [response|error_msg].
  2:{ erewrite bind_inr in Hrun by apply get_ist_millis_run.
      erewrite bind_inr in Hrun by apply update_one_run. discriminate. }
  apply bind_inv_inr in Hrun as (ok & w6 & Hdel & Hrun).
  apply maybe_delete_returns in Hdel as (del_ops & Ht6 & Hquiet).
  cbn [w_trace] in Ht6.
  erewrite bind_inr in Hrun by apply get_ist_millis_run.
  cbn [w_db w_s3 w_tick w_trace] in Hrun.
  erewrite bind_inr in Hrun by apply update_one_run.
  cbn [w_db w_s3 w_tick w_trace] in Hrun.
  injection Hrun as _ <-. cbn [w_trace].
  eexists p, file_list, _, _, _, loop_delta, _, del_ops, _.
  split; [reflexivity|]. split.
  { rewrite Ht6, Ht5. cbn [w_trace]. rewrite <- !app_assoc. reflexivity. }
  repeat split; try reflexivity; assumption.
Qed.

(** ** C3 *)

Lemma checkpoints_bounds total file_list idx :
  Z.of_nat (idx + length file_list) ≤ total →
  Forall (λ v, 10 ≤ v ≤ 40) (checkpoints total idx file_list).
Proof.
  intros Hlen. apply Forall_forall. intros v Hv.
  apply checkpoints_elem in Hv as (i & e & Hi & _ & _ & ->).
  apply progress_at_bounds. apply lookup_lt_Some in Hi. lia.
Qed.

Lemma Sorted_le_snoc (l : list Z) hi :
  Sorted Z.le l → Forall (λ v, v ≤ hi) l → Sorted Z.le (l ++ [hi]).
Proof.
  induction 1 as [|x l Hs IH Hhd]; intros Hall; cbn.
  - repeat constructor.
  - apply Forall_cons in Hall as [Hx Hall]. constructor; [by apply IH|].
    destruct Hhd; cbn; constructor; done.
Qed.

Lemma progress_band_sorted file_list :
  Sorted Z.le
    (10 :: checkpoints (Z.of_nat (length file_list)) 0 file_list ++ [40]).
Proof.
  apply (Sorted_le_snoc (10 :: _)).
  - destruct file_list as [|e rest]; [repeat constructor|].
    apply checkpoints_sorted; [cbn [length]; lia|].
    apply progress_at_bounds. cbn [length]. lia.
  - constructor; [lia|].
    eapply Forall_impl; [apply checkpoints_bounds; cbn; lia|].
    cbn. intros v ?. lia.
Qed.

(** C3 (as amended).  Within a successful invocation the persisted
    progress values never decrease: they are 0 (when the job document is
    created by this invocation), 10, the checkpoints of the loop, each
    between 10 and 40, and 40.  Two consecutive values can be equal.  The
    last call of the invocation is the update that sets the terminal
    status COMPLETED; it writes no progress value, and no terminal status
    is written before it. *)
Theorem C3_progress_non_decreasing E ev w r w' :
  lambda_handler E ev w = (inr r, w') → r_statusCode r = 200 →
  ∃ delta last cps,
    w_trace w' = w_trace w ++ delta ++ [last]
    ∧ Sorted Z.le (progress_writes delta)
    ∧ (progress_writes delta = [0; 10] ++ cps ++ [40]
       ∨ progress_writes delta = [10] ++ cps ++ [40])
    ∧ Forall (λ v, 10 ≤ v ≤ 40) cps
    ∧ str_written "status" last = Some "COMPLETED"
    ∧ int_written "progress" last = None
    ∧ Forall (λ s, s ≠ "COMPLETED" ∧ s ≠ "FAILED") (status_writes delta).
Proof.
  intros Hrun H200.
  destruct (success_run E ev w r w' Hrun H200)
    as (p & file_list & inserted & fs0 & fs1 & loop_delta & fs2 & del_ops
        & now_millis & _ & Ht & [Hp0 Hs0] & [Hp1 Hs1] & [Hp2 Hs2]
        & Hcp & Hloop & Hquiet).
  exists ([OpUpsert (p_jobId p) fs0 inserted; OpUpdate (p_jobId p) fs1;
            OpGet (p_s3Bucket p) (p_s3Key p)]
           ++ loop_delta
           ++ [OpUpdate (p_jobId p) fs2; OpInvoke (p_jobId p)] ++ del_ops),
    (OpUpdate (p_jobId p) [("status", FStr "COMPLETED");
                           (UPDATED_ON, FInt now_millis)]),
    (checkpoints (Z.of_nat (length file_list)) 0 file_list).
  split; [rewrite Ht; by rewrite <- !app_assoc|].
  assert (progress_writes
            ([OpUpsert (p_jobId p) fs0 inserted; OpUpdate (p_jobId p) fs1;
              OpGet (p_s3Bucket p) (p_s3Key p)]
             ++ loop_delta
             ++ [OpUpdate (p_jobId p) fs2; OpInvoke (p_jobId p)] ++ del_ops)
          = (if inserted then [0] else [])
            ++ 10 :: checkpoints (Z.of_nat (length file_list)) 0 file_list
            ++ [40]) as Hpw.
  { rewrite !progress_writes_app, Hcp, (quiet_no_progress _ Hquiet), app_nil_r.
    unfold progress_writes. cbn. unfold int_written. cbn.
    rewrite Hp1, Hp2. destruct inserted; cbn; by rewrite ?Hp0. }
  assert (status_writes
            ([OpUpsert (p_jobId p) fs0 inserted; OpUpdate (p_jobId p) fs1;
              OpGet (p_s3Bucket p) (p_s3Key p)]
             ++ loop_delta
             ++ [OpUpdate (p_jobId p) fs2; OpInvoke (p_jobId p)] ++ del_ops)
          = (if inserted then ["PENDING"] else [])
            ++ ["UNZIPPING"; "UNZIPPED"]) as Hsw.
  { rewrite !status_writes_app, (loop_op_no_status _ _ Hloop),
      (quiet_no_status _ Hquiet), app_nil_r.
    unfold status_writes. cbn. unfold str_written. cbn.
    rewrite Hs1, Hs2. destruct inserted; cbn; by rewrite ?Hs0. }
  rewrite Hpw, Hsw. split; [|split; [|split; [|split; [|split]]]].
  - pose proof (progress_band_sorted file_list) as Hsorted.
    destruct inserted; [|exact Hsorted].
    cbn. constructor; [exact Hsorted|]. constructor. lia.
  - destruct inserted; [by left | by right].
  - apply checkpoints_bounds. cbn. lia.
  - reflexivity.
  - reflexivity.
  - destruct inserted; repeat constructor; discriminate.
Qed.

(** Ten uploaded entries: the checkpoint at index 10 is 40, and so is the
    update that follows the loop. *)
Lemma C3_counterexample :
  let file_list :=
    (λ n, file_of_size n 2048) <$>
      ["1.pdf"; "2.pdf"; "3.pdf"; "4.pdf"; "5.pdf"; "6.pdf"; "7.pdf";
       "8.pdf"; "9.pdf"; "marks.xlsx"] in
  let run := lambda_handler (sample_env file_list ok_payload)
                            direct_event zip_world in
  run.1 = inr (Result 200 (Some "J1") "SUCCESS" None)
  ∧ progress_writes (w_trace run.2) = [0; 10; 40; 40]
  ∧ ¬ Sorted Z.lt (progress_writes (w_trace run.2)).
Proof.
  vm_compute. split; [reflexivity|]. split; [reflexivity|].
  intros Hs. apply Sorted_inv in Hs as [Hs _]. apply Sorted_inv in Hs as [Hs _].
  apply Sorted_inv in Hs as [_ Hhd]. apply HdRel_inv in Hhd. discriminate.
Qed.

Lemma C3_progress_non_decreasing_witness :
  let file_list :=
    (λ n, file_of_size n 2048) <$>
      ["1.pdf"; "2.pdf"; "3.pdf"; "4.pdf"; "5.pdf"; "6.pdf"; "7.pdf";
       "8.pdf"; "9.pdf"; "marks.xlsx"] in
  let run := lambda_handler (sample_env file_list ok_payload)
                            direct_event zip_world in
  ∃ delta last, w_trace run.2 = [] ++ delta ++ [last]
                ∧ Sorted Z.le (progress_writes delta).
Proof.
  intros file_list run.
  destruct (C3_progress_non_decreasing
              (sample_env file_list ok_payload) direct_event zip_world
              (Result 200 (Some "J1") "SUCCESS" None) run.2)
    as (delta & last & cps & Ht & Hs & _).
  - apply pair_of_fst. vm_compute. reflexivity.
  - reflexivity.
  - exists delta, last. split; [exact Ht | exact Hs].
Defined.

(** ** The accumulators after the loop *)

Lemma classify_skip_reason e name reason :
  classify e = VSkip name reason → ze_read e ≠ inl "Duplicate" →
  reason ≠ "Duplicate".
Proof.
  unfold classify.
  destruct (Str.endswith (ze_name e) "/"); [discriminate|].
  destruct (is_junk_file (ze_name e)); [by intros [= <- <-]|].
  destruct (ze_read e) as [err|file_data]; [intros [= <- <-]; congruence|].
  cbv zeta.
  destruct (_ =? 0); [by intros [= <- <-]|].
  destruct (Str.endswith _ ".pdf").
  { destruct (negb _); [|discriminate]. by intros [= <- <-]. }
  destruct (_ || _); [|discriminate].
  destruct (negb _); [|discriminate]. by intros [= <- <-].
Qed.

Lemma omap_cons_match {A B} (f : A → option B) x l :
  omap f (x :: l)
  = match f x with Some y => y :: omap f l | None => omap f l end.
Proof. reflexivity. Qed.

Lemma foldl_step_acc_pdf bucket unzip_prefix file_list :
  ∀ a, pdf_files (foldl (step_acc bucket unzip_prefix) a file_list)
       = pdf_files a ++ omap (accepted_pdf bucket unzip_prefix) file_list.
Proof.
  induction file_list as [|e rest IH]; intros a; cbn [foldl].
  - by rewrite app_nil_r.
  - rewrite IH, omap_cons_match.
    unfold step_acc, accepted_pdf, accept_excel.
    destruct (classify e); cbn; try reflexivity.
    + by rewrite <- app_assoc.
    + by destruct (excel_file a).
Qed.

(** Once a spreadsheet is held, it stays, and every later qualifying
    spreadsheet is recorded as a duplicate. *)
Lemma foldl_step_acc_excel_held bucket unzip_prefix file_list :
  ∀ a x,
    excel_file a = Some x →
    let a' := foldl (step_acc bucket unzip_prefix) a file_list in
    excel_file a' = Some x
    ∧ (∀ s, s ∈ skipped_files a → s ∈ skipped_files a')
    ∧ (∀ y, y ∈ omap qualifying_spreadsheet file_list →
            duplicate_of y ∈ skipped_files a')
    ∧ ((∀ e, e ∈ file_list → ze_read e ≠ inl "Duplicate") →
       filter is_duplicate (skipped_files a')
       = filter is_duplicate (skipped_files a)
         ++ (duplicate_of <$> omap qualifying_spreadsheet file_list)).
Proof.
  induction file_list as [|e rest IH]; intros a x Hx; cbn [foldl].
  - cbn. split; [done|]. split; [done|]. split.
    + intros y Hy. by apply elem_of_nil in Hy.
    + intros _. by rewrite app_nil_r.
  - assert (excel_file (step_acc bucket unzip_prefix a e) = Some x) as Hx'.
    { unfold step_acc, accept_excel. rewrite Hx. by destruct (classify e). }
    destruct (IH _ x Hx') as (H1 & H2 & H3 & H4).
    rewrite omap_cons_match.
    split; [exact H1|]. split; [|split].
    + intros s Hs. apply H2. unfold step_acc, accept_excel. rewrite Hx.
      destruct (classify e); cbn; try done; apply elem_of_app; by left.
    + intros y Hy. unfold qualifying_spreadsheet in Hy at 1.
      destruct (classify e) eqn:Hc; try by apply H3.
      apply elem_of_cons in Hy as [->|Hy]; [|by apply H3].
      apply H2. unfold step_acc, accept_excel. rewrite Hc, Hx. cbn.
      apply elem_of_app. right. apply list_elem_of_here.
    + intros Hread. rewrite H4.
      2:{ intros e' He'. apply Hread. by apply elem_of_cons; right. }
      unfold qualifying_spreadsheet at 2, step_acc, accept_excel.
      rewrite Hx.
      assert (∀ name reason, classify e = VSkip name reason →
                             reason ≠ "Duplicate") as Hreason.
      { intros name reason Hc. eapply classify_skip_reason; [exact Hc|].
        apply Hread, list_elem_of_here. }
      destruct (classify e) eqn:Hc; cbn; try reflexivity.
      * rewrite filter_app, filter_cons_False, filter_nil, app_nil_r;
          [reflexivity|]. by apply (Hreason name).
      * rewrite filter_app, filter_cons_True by reflexivity.
        rewrite filter_nil, <- app_assoc. reflexivity.
Qed.

(** Before any spreadsheet is held: the first qualifying one is taken. *)
Lemma foldl_step_acc_excel_first bucket unzip_prefix file_list :
  ∀ a q rest,
    excel_file a = None →
    omap qualifying_spreadsheet file_list = q :: rest →
    let a' := foldl (step_acc bucket unzip_prefix) a file_list in
    excel_file a' = Some (excel_item_of bucket unzip_prefix q.1 q.2)
    ∧ (∀ y, y ∈ rest → duplicate_of y ∈ skipped_files a')
    ∧ ((∀ e, e ∈ file_list → ze_read e ≠ inl "Duplicate") →
       filter is_duplicate (skipped_files a')
       = filter is_duplicate (skipped_files a) ++ (duplicate_of <$> rest)).
Proof.
  induction file_list as [|e l IH]; intros a q rest Hnone Hq; [done|].
  cbn [foldl].
  rewrite omap_cons_match in Hq.
  assert (∀ name reason, (∀ e', e' ∈ e :: l → ze_read e' ≠ inl "Duplicate") →
            classify e = VSkip name reason → reason ≠ "Duplicate") as Hreason.
  { intros name reason Hread Hc. eapply classify_skip_reason; [exact Hc|].
    apply Hread, list_elem_of_here. }
  unfold qualifying_spreadsheet in Hq at 1.
  destruct (classify e) eqn:Hc.
  - (* directory *)
    assert (step_acc bucket unzip_prefix a e = a) as ->
      by (unfold step_acc; by rewrite Hc).
    destruct (IH a q rest Hnone Hq) as (H1 & H2 & H3).
    split; [exact H1|]. split; [exact H2|]. intros Hread. apply H3.
    intros e' He'. apply Hread. by apply elem_of_cons; right.
  - (* skipped *)
    assert (step_acc bucket unzip_prefix a e = add_skip a name reason) as ->
      by (unfold step_acc; by rewrite Hc).
    destruct (IH (add_skip a name reason) q rest Hnone Hq) as (H1 & H2 & H3).
    split; [exact H1|]. split; [exact H2|]. intros Hread. rewrite H3.
    2:{ intros e' He'. apply Hread. by apply elem_of_cons; right. }
    cbn. rewrite filter_app, filter_cons_False, filter_nil, app_nil_r;
      [reflexivity|]. by apply (Hreason name reason Hread).
  - (* PDF *)
    destruct (IH (step_acc bucket unzip_prefix a e) q rest) as (H1 & H2 & H3);
      [unfold step_acc; by rewrite Hc | exact Hq |].
    split; [exact H1|]. split; [exact H2|]. intros Hread. rewrite H3.
    + unfold step_acc. by rewrite Hc.
    + intros e' He'. apply Hread. by apply elem_of_cons; right.
  - (* the first qualifying spreadsheet *)
    injection Hq as <- Hrest.
    assert (step_acc bucket unzip_prefix a e
            = set_excel a (excel_item_of bucket unzip_prefix
                                         base_name file_data)) as ->
      by (unfold step_acc, accept_excel; by rewrite Hc, Hnone).
    destruct (foldl_step_acc_excel_held bucket unzip_prefix l
                (set_excel a (excel_item_of bucket unzip_prefix
                                            base_name file_data))
                _ eq_refl) as (H1 & _ & H3 & H4).
    rewrite Hrest in *. split; [exact H1|]. split; [exact H3|].
    intros Hread. apply H4.
    intros e' He'. apply Hread. by apply elem_of_cons; right.
  - (* other file *)
    destruct (IH (step_acc bucket unzip_prefix a e) q rest) as (H1 & H2 & H3);
      [unfold step_acc; by rewrite Hc | exact Hq |].
    split; [exact H1|]. split; [exact H2|]. intros Hread. rewrite H3.
    + unfold step_acc. by rewrite Hc.
    + intros e' He'. apply Hread. by apply elem_of_cons; right.
Qed.

(** ** C5 *)

Lemma endswith_last s suf :
  Str.endswith s suf = true → suf ≠ "" → last_char s = last_char suf.
Proof.
  intros H Hsuf. induction s as [|c r IH]; cbn [Str.endswith] in H.
  - rewrite orb_false_r in H. apply bool_decide_eq_true in H. congruence.
  - apply orb_true_iff in H as [H|H].
    + apply bool_decide_eq_true in H. by subst.
    + rewrite <- (IH H). destruct r; [|reflexivity].
      cbn in H. rewrite orb_false_r in H.
      apply bool_decide_eq_true in H. congruence.
Qed.

Lemma spreadsheet_not_pdf s :
  Str.endswith s ".xlsx" || Str.endswith s ".xls" = true →
  Str.endswith s ".pdf" = false.
Proof.
  intros H. destruct (Str.endswith s ".pdf") eqn:Hpdf; [|reflexivity].
  apply endswith_last in Hpdf; [|done].
  apply orb_true_iff in H as [H|H]; apply endswith_last in H; try done;
    rewrite Hpdf in H; discriminate.
Qed.

(** A qualifying spreadsheet, in the words of the source: not a directory
    marker, not junk, readable, and [is_valid_excel] on its base name and
    size. *)
Lemma qualifying_spreadsheet_spec e base_name file_data :
  qualifying_spreadsheet e = Some (base_name, file_data)
  ↔ Str.endswith (ze_name e) "/" = false
    ∧ is_junk_file (ze_name e) = false
    ∧ ze_read e = inr file_data
    ∧ base_name = Str.basename (ze_name e)
    ∧ is_valid_excel base_name (size_of file_data) = true.
Proof.
  unfold qualifying_spreadsheet, classify, is_valid_excel, size_of.
  destruct (Str.endswith (ze_name e) "/");
    [split; [done | by intros (? & _)]|].
  destruct (is_junk_file (ze_name e));
    [split; [done | by intros (_ & ? & _)]|].
  destruct (ze_read e) as [err|data];
    [split; [done | by intros (_ & _ & ? & _)]|].
  cbv zeta.
  destruct (Z.of_nat (length data) =? 0) eqn:Hz.
  { apply Z.eqb_eq in Hz. split; [done|].
    intros (_ & _ & [= <-] & _ & H). apply andb_true_iff in H as [_ H].
    apply Z.leb_le in H. lia. }
  destruct (Str.endswith (Str.lower (Str.basename (ze_name e))) ".xlsx"
            || Str.endswith (Str.lower (Str.basename (ze_name e))) ".xls")
    eqn:Hx.
  - rewrite (spreadsheet_not_pdf _ Hx). cbn [andb].
    destruct (2048 <=? Z.of_nat (length data)) eqn:Hsz; cbn [negb].
    + split.
      * intros [= <- <-]. by rewrite Hx, Hsz.
      * intros (_ & _ & [= <-] & -> & _). reflexivity.
    + split; [done|]. intros (_ & _ & [= <-] & -> & H).
      rewrite Hx, Hsz in H. discriminate.
  - destruct (Str.endswith _ ".pdf").
    + destruct (negb _); split; try done;
        intros (_ & _ & [= <-] & -> & H); rewrite Hx in H; discriminate.
    + split; [done|].
      intros (_ & _ & [= <-] & -> & H); rewrite Hx in H; discriminate.
Qed.

(** C5 (as amended).  Call a spreadsheet qualifying when it is not junk,
    is read without error, has extension .xlsx or .xls (case-insensitive,
    on its base name) and at least 2048 bytes.  When the loop returns on
    an archive with N >= 1 qualifying spreadsheets, the manifest slot
    holds the first of them in entry order, and each of the other N-1 is
    recorded as skipped with reason "Duplicate" (exactly these, unless the
    text of some read error is itself "Duplicate"). *)
Theorem C5_first_spreadsheet E jid bucket unzip_prefix total
    file_list w a' w' q rest :
  extract_entries E jid bucket unzip_prefix total 0 file_list acc0 w
  = (inr a', w') →
  omap qualifying_spreadsheet file_list = q :: rest →
  excel_file a' = Some (excel_item_of bucket unzip_prefix q.1 q.2)
  ∧ (∀ y, y ∈ rest → duplicate_of y ∈ skipped_files a')
  ∧ ((∀ e, e ∈ file_list → ze_read e ≠ inl "Duplicate") →
     filter is_duplicate (skipped_files a') = duplicate_of <$> rest).
Proof.
  intros Hrun Hq. apply extract_entries_acc in Hrun as ->.
  exact (foldl_step_acc_excel_first bucket unzip_prefix file_list acc0 q rest
           eq_refl Hq).
Qed.

Lemma C5_first_spreadsheet_witness :
  let E := sample_env [] ok_payload in
  let file_list := [ file_of_size "a/marks.xlsx" 2048;
                     file_of_size "b/MARKS2.XLS" 3000 ] in
  let run := extract_entries E (Some "J1") (Some "exams") "out/" 2 0
                             file_list acc0 zip_world in
  ∃ a', run.1 = inr a'
        ∧ xl_fileName <$> excel_file a' = Some "marks.xlsx"
        ∧ Skip "MARKS2.XLS" "Duplicate" ∈ skipped_files a'.
Proof.
  intros E file_list run.
  pose proof (extract_entries_total E (Some "J1") "exams" "out/" 2 file_list
                (λ _, eq_refl) 0%nat acc0 zip_world) as Hrun.
  eexists. split; [exact Hrun|].
  destruct (C5_first_spreadsheet E (Some "J1") (Some "exams") "out/" 2
              file_list zip_world _ run.2
              ("marks.xlsx", repeat Byte.x00 2048)
              [("MARKS2.XLS", repeat Byte.x00 3000)]
              (pair_of_fst _ _ Hrun) eq_refl) as (Hx & Hdup & _).
  split; [by rewrite Hx|].
  apply (Hdup ("MARKS2.XLS", repeat Byte.x00 3000)), list_elem_of_here.
Defined.

(** Two spreadsheets with extension .xlsx and 3000 bytes each, the first
    of them junk by its name: the one accepted is the second, and the
    other is recorded with reason "Junk", not "Duplicate". *)
Lemma C5_counterexample :
  let E := sample_env [] ok_payload in
  let file_list := [ file_of_size "cache.xlsx" 3000;
                     file_of_size "marks.xlsx" 3000 ] in
  let run := extract_entries E (Some "J1") (Some "exams") "out/" 2 0
                             file_list acc0 zip_world in
  Forall (λ e, is_valid_excel (Str.basename (ze_name e)) 3000 = true) file_list
  ∧ ∃ a', run.1 = inr a'
          ∧ xl_fileName <$> excel_file a' = Some "marks.xlsx"
          ∧ skipped_files a' = [Skip "cache.xlsx" "Junk"].
Proof.
  split; [repeat constructor|]. eexists. vm_compute. repeat split.
Qed.

(** ** C6 *)

(** C6, at a failing input.  An archive with two valid spreadsheets: the
    second is recorded as skipped with reason "Duplicate", and it has been
    uploaded all the same: a put to its destination key is performed and
    the object is in the blob store afterwards. *)
Theorem C6_duplicate_is_uploaded :
  let E := sample_env [] ok_payload in
  let file_list := [ file_of_size "marks.xlsx" 2048;
                     file_of_size "marks_copy.xlsx" 4096 ] in
  let run := extract_entries E (Some "J1") (Some "exams") "out/" 2 0
                             file_list acc0 zip_world in
  ∃ a', run.1 = inr a'
        ∧ xl_fileName <$> excel_file a' = Some "marks.xlsx"
        ∧ skipped_files a' = [Skip "marks_copy.xlsx" "Duplicate"]
        ∧ omap put_summary (w_trace run.2)
          = [("out/marks.xlsx", 2048%nat); ("out/marks_copy.xlsx", 4096%nat)]
        ∧ w_s3 zip_world !! ("exams", "out/marks_copy.xlsx") = None
        ∧ length ∘ blob_body <$> w_s3 run.2 !! ("exams", "out/marks_copy.xlsx")
          = Some 4096%nat.
Proof. eexists. vm_compute. repeat split. Qed.

(** When the duplicate has the base name of the accepted spreadsheet, its
    upload replaces the accepted object: the manifest records 2048 bytes
    and the object at its key has 4096. *)
Example duplicate_overwrites_accepted :
  let E := sample_env [] ok_payload in
  let file_list := [ file_of_size "final/marks.xlsx" 2048;
                     file_of_size "draft/marks.xlsx" 4096 ] in
  let run := extract_entries E (Some "J1") (Some "exams") "out/" 2 0
                             file_list acc0 zip_world in
  ∃ a', run.1 = inr a'
        ∧ excel_file a'
          = Some (ExcelItem "out/marks.xlsx" "marks.xlsx" 2048 (Some "exams"))
        ∧ skipped_files a' = [Skip "marks.xlsx" "Duplicate"]
        ∧ length ∘ blob_body <$> w_s3 run.2 !! ("exams", "out/marks.xlsx")
          = Some 4096%nat.
Proof. eexists. vm_compute. repeat split. Qed.

(** The other kinds of skipped entries are indeed left out of the blob
    store: an entry that does not get past a [continue] changes nothing. *)
Lemma skipped_before_upload E jid bucket unzip_prefix total idx e a w :
  reaches e = false →
  (loop_body E jid bucket unzip_prefix total idx e a w).2 = w.
Proof.
  intros Hr. unfold loop_body.
  destruct (route_not_reached E bucket unzip_prefix e a w Hr) as (a1 & H & _).
  by erewrite bind_inr by exact H.
Qed.

(** ** C10 *)







(** ** C7 *)

Lemma preserves_bind_ret {A B} (I : world → Prop) (a : A) (k : A → M B) :
  preserves I (k a) → preserves I (bind (ret a) k).
Proof. intros H w Hw. exact (H w Hw). Qed.

Lemma preserves_bind_raise {A B} (I : world → Prop) e (k : A → M B) :
  preserves I (bind (raise e) k).
Proof. intros w Hw. exact Hw. Qed.

Lemma preserves_lambda_handler (I : world → Prop) E ev :
  let jid := job_id_of_parse (parse_event E ev) in
  closed (late_op jid) I →
  (∀ fs b, log_closed I (OpUpsert jid fs b)) →
  (∀ fs w, I w → w_db w !! jid = None →
           I (World (<[jid := set_fields (("jobId", fopt jid) :: fs) ∅]> (w_db w))
                    (w_s3 w) (w_tick w) (w_trace w))) →
  preserves I (lambda_handler E ev).
Proof.
  intros jid HI Hlog Hins. unfold lambda_handler. fold jid.
  apply preserves_try; [|intros msg; by apply preserves_failure_boundary].
  unfold parse_step. subst jid.
  destruct (parse_event E ev) as [e|[p|]];
    try apply preserves_bind_raise.
  cbn [job_id_of_parse] in *.
  apply preserves_bind_ret. unfold handler_steps.
  apply preserves_bind; [apply preserves_clock, HI|]. intros now_millis.
  apply preserves_bind.
  - apply preserves_upsert; [intros b; apply Hlog | intros w; apply Hins].
  - intros _. by apply preserves_steps_after_create.
Qed.

Lemma created_at_closed k v jid : closed (late_op jid) (created_at k v).
Proof.
  split; [|split; [|split]].
  - intros w Hw. exact Hw.
  - intros w f Hw. exact Hw.
  - intros o _ w Hw. exact Hw.
  - intros j fs (_ & Hfs & _) w (d & Hd & Hv). unfold created_at. cbn.
    rewrite lookup_alter. case_decide; [subst j|by eauto].
    exists (set_fields fs d). rewrite Hd. split; [reflexivity|].
    by rewrite lookup_set_fields, Hfs.
Qed.

Lemma stamped_or_deletion_closed w0 jid :
  closed (late_op jid) (since w0 (λ o, stamped o ∨ deletion_update o)).
Proof.
  eapply closed_weaken; [|apply since_closed].
  intros o. destruct o; cbn; try tauto.
Qed.

(** C7 (as amended).  The creation timestamp is write-once: a second
    create-if-absent on the same identifier leaves the collection as the
    first one left it, and a whole invocation of the handler keeps the
    creation timestamp of every document that already has one.  Every
    [$set] issued by an invocation also sets the last-update timestamp,
    except the one of [delete_zip_file], which sets the deletion flag and
    the deletion timestamp only. *)
Theorem C7_timestamps E ev w :
  let w' := (lambda_handler E ev w).2 in
  (∀ jid fs1 fs2 w0,
     w_db (update_one_upsert jid fs2 (update_one_upsert jid fs1 w0).2).2
     = w_db (update_one_upsert jid fs1 w0).2)
  ∧ (∀ k v, created_at k v w → created_at k v w')
  ∧ ∃ delta, w_trace w' = w_trace w ++ delta
             ∧ Forall (λ o, stamped o ∨ deletion_update o) delta.
Proof.
  intros w'. split; [|split].
  - intros jid fs1 fs2 w0. rewrite !update_one_upsert_run. cbn [snd w_db].
    destruct (w_db w0 !! jid) eqn:Hj.
    + by rewrite Hj.
    + by rewrite lookup_insert_eq.
  - intros k v Hk.
    apply (preserves_lambda_handler (created_at k v)); [| | |exact Hk].
    + apply created_at_closed.
    + intros fs b w0 Hw0. exact Hw0.
    + intros fs w0 (d & Hd & Hv) Hnone. exists d. cbn.
      split; [|exact Hv]. rewrite lookup_insert_ne; [exact Hd|].
      intros <-. congruence.
  - apply (preserves_lambda_handler
             (since w (λ o, stamped o ∨ deletion_update o)));
      [| | |apply since_refl].
    + apply stamped_or_deletion_closed.
    + intros fs b. apply since_closed. by left.
    + intros fs w0 Hw0 _. exact Hw0.
Qed.

Lemma C7_timestamps_witness :
  let E := sample_env [file_of_size "tiny.pdf" 500] ok_payload in
  let w := World {[ Some "J1" := {[ CREATED_ON := FInt 42 ]} ]}
                 (w_s3 zip_world) 7 [] in
  created_at (Some "J1") (FInt 42) (lambda_handler E direct_event w).2.
Proof.
  intros E w.
  apply (proj1 (proj2 (C7_timestamps E direct_event w))).
  eexists. split; [apply lookup_singleton_eq|]. apply lookup_singleton_eq.
Defined.

(** A successful run with archive deletion enabled: the ninth call is the
    [$set] of [delete_zip_file], and it does not set the last-update
    timestamp. *)
Lemma C7_counterexample :
  let file_list := [ file_of_size "answer.pdf" 1024;
                     file_of_size "marks.xlsx" 2048 ] in
  let run := lambda_handler (sample_env file_list ok_payload)
                            direct_event zip_world in
  let fs := [ ("originalZipDeleted", FBool true);
              ("zipDeletedAt_KJUSYSCommon_DateTime", FInt 1700000000002) ] in
  run.1 = inr (Result 200 (Some "J1") "SUCCESS" None)
  ∧ w_trace run.2 !! 8%nat = Some (OpUpdate (Some "J1") fs)
  ∧ field_of UPDATED_ON fs = None
  ∧ ¬ stamped (OpUpdate (Some "J1") fs).
Proof.
  vm_compute. split; [reflexivity|]. split; [reflexivity|].
  split; [reflexivity|]. intros [v Hv]. discriminate.
Qed.

(** ** C9 *)

(** When the invoker reports success, in terms of the answer itself. *)
Lemma l2_of_outcome_ok o pl :
  l2_of_outcome o = L2Ok pl
  ↔ ∃ sc, o = InvokeReturns sc pl
          ∧ pl_errorMessage pl = Absent
          ∧ (pl_statusCode pl = Val 200
             ∨ pl_statusCode pl = Absent ∧ sc = Some 200).
Proof.
  unfold l2_of_outcome. split.
  - destruct o as [msg|sc pl0]; [discriminate|].
    destruct (pl_errorMessage pl0) eqn:Hem; cbn [fhas]; try discriminate.
    case_bool_decide as Hst; [|discriminate]. intros [= <-].
    exists sc. split; [reflexivity|]. split; [exact Hem|].
    destruct (pl_statusCode pl0) as [| |z]; cbn [fget_default] in Hst.
    + right. split; [reflexivity|].
      destruct sc as [z|]; simpl in Hst; [congruence | discriminate].
    + discriminate.
    + left. congruence.
  - intros (sc & -> & Hem & Hst). rewrite Hem. cbn [fhas].
    rewrite bool_decide_eq_true_2; [reflexivity|].
    destruct Hst as [->|[-> ->]]; reflexivity.
Qed.

(** C9 (as amended).  The invoker calls the validation function once and
    never raises.  It reports success exactly when the call returned, the
    decoded payload has no [errorMessage] key, and the payload's
    [statusCode] is 200 or, when the payload has no [statusCode] key, the
    transport status of the call is 200; the payload is then handed back
    as the response.  A key [error] in the payload does not prevent
    success.  In every other case it reports failure and captures a
    message: the text of the exception; the value of [errorMessage]
    ([None] when that value is null); or, without [errorMessage], the
    value of [error], with "Unknown error" when that key is absent.  It
    changes neither the job collection nor the blob store. *)
Theorem C9_invoker E jid w :
  let run := invoke_lambda2_sync E jid w in
  ∃ r, run.1 = inr r
       ∧ (l2_success r = true
          ↔ ∃ sc pl, env_invoke E jid = InvokeReturns sc pl
                     ∧ pl_errorMessage pl = Absent
                     ∧ (pl_statusCode pl = Val 200
                        ∨ pl_statusCode pl = Absent ∧ sc = Some 200))
       ∧ (∀ pl, r = L2Ok pl → ∃ sc, env_invoke E jid = InvokeReturns sc pl)
       ∧ (∀ msg, env_invoke E jid = InvokeRaises msg →
                 r = L2Fail (Some msg))
       ∧ (∀ sc pl, env_invoke E jid = InvokeReturns sc pl →
            match pl_errorMessage pl with
            | Val message => r = L2Fail (Some message)
            | Null => r = L2Fail None
            | Absent =>
                l2_success r = false →
                match pl_error pl with
                | Val text => r = L2Fail (Some text)
                | Null => r = L2Fail None
                | Absent => r = L2Fail (Some "Unknown error")
                end
            end)
       ∧ w_trace run.2 = w_trace w ++ [OpInvoke jid]
       ∧ w_db run.2 = w_db w ∧ w_s3 run.2 = w_s3 w.
Proof.
  intros run. subst run. rewrite invoke_lambda2_sync_run. cbn [fst snd].
  eexists. split; [reflexivity|]. cbn [w_trace w_db w_s3].
  split; [|split; [|split; [|split; [|done]]]].
  - split.
    + destruct (l2_of_outcome (env_invoke E jid)) as [pl|err] eqn:Hr;
        [|discriminate].
      intros _. apply l2_of_outcome_ok in Hr as (sc & Hinv & Hem & Hst).
      by exists sc, pl.
    + intros (sc & pl & Hinv & Hem & Hst).
      assert (l2_of_outcome (env_invoke E jid) = L2Ok pl) as ->; [|done].
      apply l2_of_outcome_ok. by exists sc.
  - intros pl Hr. apply l2_of_outcome_ok in Hr as (sc & Hinv & _).
    by exists sc.
  - by intros msg ->.
  - intros sc pl ->. unfold l2_of_outcome.
    destruct (pl_errorMessage pl); cbn [fhas fget]; try reflexivity.
    case_bool_decide; [discriminate|]. intros _.
    by destruct (pl_error pl).
Qed.

(** Two answers that carry an error text and are reported as successes:
    a payload with status code 200 and a key [error], and a payload with
    a key [error] and no status code, answered with transport status
    200.  In the second the callee's response carries no status at
    all. *)
Lemma C9_counterexample :
  let warned := Payload Absent (Val 200) (Val "warning") in
  let bare := Payload Absent Absent (Val "bad header") in
  let run pl := invoke_lambda2_sync
                  (sample_env [] (InvokeReturns (Some 200) pl))
                  (Some "J1") zip_world in
  (run warned).1 = inr (L2Ok warned)
  ∧ (run bare).1 = inr (L2Ok bare)
  ∧ fhas (pl_error warned) = true
  ∧ fhas (pl_error bare) = true ∧ fhas (pl_statusCode bare) = false.
Proof. vm_compute. repeat split. Qed.

Example invoker_ok :
  l2_of_outcome ok_payload = L2Ok (Payload Absent (Val 200) Absent).
Proof. reflexivity. Qed.

Example invoker_bad_header :
  l2_of_outcome bad_header_payload = L2Fail (Some "bad header").
Proof. reflexivity. Qed.

Example invoker_function_error :
  l2_of_outcome (InvokeReturns (Some 200)
                   (Payload (Val "Task timed out") (Val 200) Absent))
  = L2Fail (Some "Task timed out").
Proof. reflexivity. Qed.

Example invoker_transport_status :
  l2_success (l2_of_outcome (InvokeReturns (Some 200)
                               (Payload Absent Absent Absent))) = true.
Proof. reflexivity. Qed.

(** ** C8 *)

Lemma foldl_has_excel bucket unzip_prefix file_list e base_name file_data :
  e ∈ file_list → classify e = VExcel base_name file_data →
  is_Some (excel_file (foldl (step_acc bucket unzip_prefix) acc0 file_list)).
Proof.
  intros He Hc.
  assert ((base_name, file_data) ∈ omap qualifying_spreadsheet file_list) as Hq.
  { apply list_elem_of_omap. exists e. split; [exact He|].
    unfold qualifying_spreadsheet. by rewrite Hc. }
  destruct (omap qualifying_spreadsheet file_list) as [|q rest] eqn:Hom;
    [by apply elem_of_nil in Hq|].
  destruct (foldl_step_acc_excel_first bucket unzip_prefix file_list acc0
              q rest eq_refl Hom) as [Hx _].
  rewrite Hx. eauto.
Qed.

Lemma foldl_has_pdf bucket unzip_prefix file_list e base_name file_data :
  e ∈ file_list → classify e = VPdf base_name file_data →
  pdf_files (foldl (step_acc bucket unzip_prefix) acc0 file_list) ≠ [].
Proof.
  intros He Hc. rewrite foldl_step_acc_pdf. cbn [acc0 pdf_files app].
  assert (pdf_item_of bucket unzip_prefix base_name file_data
          ∈ omap (accepted_pdf bucket unzip_prefix) file_list) as Hin.
  { apply list_elem_of_omap. exists e. split; [exact He|].
    unfold accepted_pdf. by rewrite Hc. }
  intros Hnil. rewrite Hnil in Hin. by apply elem_of_nil in Hin.
Qed.

Lemma contains_self s : Str.contains s s = true.
Proof.
  assert (Str.startswith s s = true) as H.
  { induction s as [|c r IH]; [reflexivity|]. cbn.
    by rewrite bool_decide_eq_true_2, IH. }
  destruct s; cbn [Str.contains]; by rewrite H.
Qed.

Lemma contains_append pre s : Str.contains (pre +:+ s) s = true.
Proof.
  induction pre as [|c r IH]; [apply contains_self|].
  change (String c r +:+ s) with (String c (r +:+ s)).
  cbn [Str.contains]. rewrite IH. apply orb_true_r.
Qed.

(** The run up to the exception raised after a failed validation. *)
Lemma validation_failure_run E p w b k o file_list e_pdf bp dp e_xl bx dx
    sc pl err :
  p_s3Bucket p = Some b → p_s3Key p = Some k →
  w_s3 w !! (b, k) = Some o →
  env_zip_open E (blob_body o) = inr file_list →
  (∀ key, env_put_error E b key = None) →
  e_pdf ∈ file_list → classify e_pdf = VPdf bp dp →
  e_xl ∈ file_list → classify e_xl = VExcel bx dx →
  env_invoke E (p_jobId p) = InvokeReturns sc pl →
  fhas (pl_errorMessage pl) = false →
  effective_status sc pl ≠ Some 200 →
  pl_error pl = Val err →
  ∃ w1 fs0 fs1 loop_delta fs2 now_millis,
    handler_steps E p w = (inl ("Lambda 2 failed: " +:+ err), w1)
    ∧ w_trace w1
      = w_trace w
        ++ [ OpUpsert (p_jobId p) fs0 (bool_decide (w_db w !! p_jobId p = None));
             OpUpdate (p_jobId p) fs1; OpGet (Some b) (Some k) ]
        ++ loop_delta
        ++ [ OpUpdate (p_jobId p) fs2; OpInvoke (p_jobId p);
             OpUpdate (p_jobId p)
               [ ("status", FStr "VALIDATION_FAILED");
                 ("error", FStr ("Validation failed: " +:+ err));
                 (UPDATED_ON, FInt now_millis) ] ]
    ∧ field_of "status" fs0 = Some (FStr "PENDING")
    ∧ field_of "status" fs1 = Some (FStr "UNZIPPING")
    ∧ field_of "status" fs2 = Some (FStr "UNZIPPED")
    ∧ Forall (loop_op (p_jobId p)) loop_delta.
Proof.
  intros Hb Hk Ho Hzip Hput Hpdf Hcpdf Hxl Hcxl Hinv Hem Hst Herr.
  unfold handler_steps.
  erewrite bind_inr by apply get_ist_millis_run. cbn [w_db w_s3 w_tick w_trace].
  erewrite bind_inr by apply update_one_upsert_run. cbn [w_db w_s3 w_tick w_trace].
  unfold steps_after_create. rewrite Hb, Hk.
  erewrite bind_inr by apply update_one_run. cbn [w_db w_s3 w_tick w_trace].
  erewrite bind_inr by (apply get_object_run; exact Ho). cbn [w_db w_s3 w_tick w_trace].
  erewrite bind_inr by (apply zip_open_run; exact Hzip). cbn [w_db w_s3 w_tick w_trace].
  match goal with
  | |- context [bind (extract_entries ?E ?j (Some ?bn) ?pre ?tot ?idx ?l ?a) _ ?W] =>
      pose proof (pair_of_fst _ _
                    (extract_entries_total E j bn pre tot l Hput idx a W))
        as Hloop
  end.
  erewrite bind_inr by exact Hloop. cbn [w_db w_s3 w_tick w_trace].
  apply extract_entries_trace in Hloop as (loop_delta & Ht & _ & Hops).
  destruct (foldl_has_excel (Some b)
              (unzip_prefix_of (p_examCode p) (p_courseCode p))
              file_list e_xl bx dx Hxl Hcxl) as [xl Hxl'].
  rewrite Hxl'.
  rewrite bool_decide_eq_false_2
    by (exact (foldl_has_pdf _ _ _ e_pdf bp dp Hpdf Hcpdf)).
  erewrite bind_inr by apply get_ist_millis_run. cbn [w_db w_s3 w_tick w_trace].
  erewrite bind_inr by apply update_one_run. cbn [w_db w_s3 w_tick w_trace].
  erewrite bind_inr by apply invoke_lambda2_sync_run. cbn [w_db w_s3 w_tick w_trace].
  assert (l2_of_outcome (env_invoke E (p_jobId p)) = L2Fail (Some err)) as ->.
  { unfold l2_of_outcome. rewrite Hinv, Hem.
    unfold effective_status in Hst. rewrite bool_decide_eq_false_2 by done.
    by rewrite Herr. }
  erewrite bind_inr by apply get_ist_millis_run. cbn [w_db w_s3 w_tick w_trace].
  erewrite bind_inr by apply update_one_run. cbn [w_db w_s3 w_tick w_trace].
  eexists _, _, _, loop_delta, _, _. split; [reflexivity|].
  cbn [w_trace] in *. rewrite Ht. split.
  { rewrite <- !app_assoc. reflexivity. }
  repeat split; try reflexivity. exact Hops.
Qed.

(** C8.  Take a run in which the archive is fetched and decoded, every
    upload succeeds, and at least one PDF and one spreadsheet are
    accepted, so that the validation function is called.  When its answer
    has no [errorMessage], a status other than 200 and an [error] text,
    the statuses persisted by the run are, in order, PENDING (if the
    document was created by this run), UNZIPPING, UNZIPPED,
    VALIDATION_FAILED, with the error "Validation failed: <text>", and
    FAILED; the document ends with status FAILED, and the error message
    returned by the handler, "Lambda 2 failed: <text>", contains the
    text. *)
Theorem C8_validation_failure E ev w p b k o file_list
    e_pdf bp dp e_xl bx dx sc pl err :
  parse_event E ev = inr (Some p) →
  p_s3Bucket p = Some b → p_s3Key p = Some k →
  w_s3 w !! (b, k) = Some o →
  env_zip_open E (blob_body o) = inr file_list →
  (∀ key, env_put_error E b key = None) →
  e_pdf ∈ file_list → classify e_pdf = VPdf bp dp →
  e_xl ∈ file_list → classify e_xl = VExcel bx dx →
  env_invoke E (p_jobId p) = InvokeReturns sc pl →
  fhas (pl_errorMessage pl) = false →
  effective_status sc pl ≠ Some 200 →
  pl_error pl = Val err →
  let run := lambda_handler E ev w in
  let msg := "Lambda 2 failed: " +:+ err in
  run.1 = inr (Result 500 (p_jobId p) "FAILED" (Some msg))
  ∧ Str.contains msg err = true
  ∧ (∃ delta now_millis,
       w_trace run.2 = w_trace w ++ delta
       ∧ status_writes delta
         = (if bool_decide (w_db w !! p_jobId p = None)
            then ["PENDING"] else [])
           ++ ["UNZIPPING"; "UNZIPPED"; "VALIDATION_FAILED"; "FAILED"]
       ∧ OpUpdate (p_jobId p)
           [ ("status", FStr "VALIDATION_FAILED");
             ("error", FStr ("Validation failed: " +:+ err));
             (UPDATED_ON, FInt now_millis) ] ∈ delta)
  ∧ ∃ d, w_db run.2 !! p_jobId p = Some d
         ∧ d !! "status" = Some (FStr "FAILED")
         ∧ d !! "error" = Some (FStr msg).
Proof.
  intros Hp Hb Hk Ho Hzip Hput Hpdf Hcpdf Hxl Hcxl Hinv Hem Hst Herr run msg.
  destruct (validation_failure_run E p w b k o file_list e_pdf bp dp e_xl bx dx
              sc pl err Hb Hk Ho Hzip Hput Hpdf Hcpdf Hxl Hcxl Hinv Hem Hst
              Herr)
    as (w1 & fs0 & fs1 & loop_delta & fs2 & now_millis & Hsteps & Ht
        & Hs0 & Hs1 & Hs2 & Hops).
  assert ((p <- parse_step E ev ;; handler_steps E p) w = (inl msg, w1))
    as Hbody by (by rewrite (parse_step_ok _ _ _ _ _ Hp)).
  subst run. rewrite (lambda_handler_catches _ _ _ _ _ Hbody), Hp.
  cbn [job_id_of_parse].
  split; [reflexivity|]. split; [apply contains_append|]. split.
  - rewrite failure_boundary_run. cbn [snd w_trace]. rewrite Ht.
    eexists (([_; _; _] ++ loop_delta ++ [_; _; _]) ++ [_]), now_millis.
    split; [by rewrite <- !app_assoc|]. split.
    + rewrite !status_writes_app, (loop_op_no_status _ _ Hops).
      unfold status_writes. cbn. unfold str_written. cbn.
      rewrite Hs1, Hs2. case_bool_decide; cbn; by rewrite ?Hs0.
    + apply elem_of_app. left. apply elem_of_app. right.
      apply elem_of_app. right. do 2 apply list_elem_of_further.
      apply list_elem_of_here.
  - apply failed_document.
    pose proof (handler_steps_has_job E p w) as Hjob.
    by rewrite Hsteps in Hjob.
Qed.

(** Scenario C of the specification. *)
Lemma C8_validation_failure_witness :
  let file_list := [ file_of_size "answer.pdf" 2000;
                     file_of_size "marks.xlsx" 3000 ] in
  let E := sample_env file_list bad_header_payload in
  let run := lambda_handler E direct_event zip_world in
  run.1 = inr (Result 500 (Some "J1") "FAILED"
                      (Some "Lambda 2 failed: bad header"))
  ∧ status_writes (w_trace run.2)
    = ["PENDING"; "UNZIPPING"; "UNZIPPED"; "VALIDATION_FAILED"; "FAILED"].
Proof.
  intros file_list E run.
  destruct (C8_validation_failure E direct_event zip_world
              (Parsed (Some "J1") (Some "exams") (Some sample_key)
                      (Some "E1") (Some "C1") (Some "BACKEND")
                      "DIRECT_INVOCATION")
              "exams" sample_key (Blob [] None None) file_list
              (file_of_size "answer.pdf" 2000) "answer.pdf"
              (repeat Byte.x00 2000)
              (file_of_size "marks.xlsx" 3000) "marks.xlsx"
              (repeat Byte.x00 3000)
              (Some 200) (Payload Absent (Val 500) (Val "bad header"))
              "bad header")
    as (Hr & _ & (delta & now_millis & Ht & Hs & _) & _);
    try reflexivity.
  - apply list_elem_of_here.
  - apply list_elem_of_further, list_elem_of_here.
  - discriminate.
  - split; [exact Hr|].
    change (w_trace zip_world ++ delta) with delta in Ht.
    fold run in Ht. rewrite Ht, Hs. reflexivity.
Defined.

(** * Further properties *)

(** ** Strings *)

Lemma app_cons c r s : String c r +:+ s = String c (r +:+ s).
Proof. reflexivity. Qed.

Lemma app_empty_r s : s +:+ "" = s.
Proof. induction s as [|c r IH]; [reflexivity|]. by rewrite app_cons, IH. Qed.

Lemma app_assoc_str s1 s2 s3 : (s1 +:+ s2) +:+ s3 = s1 +:+ s2 +:+ s3.
Proof.
  induction s1 as [|c r IH]; [reflexivity|]. by rewrite !app_cons, IH.
Qed.

Lemma startswith_app p s : Str.startswith (p +:+ s) p = true.
Proof.
  induction p as [|c r IH]; [by destruct s|].
  rewrite app_cons. cbn. by rewrite bool_decide_eq_true_2, IH.
Qed.

Lemma drop_app p s : Str.drop (String.length p) (p +:+ s) = s.
Proof. induction p as [|c r IH]; [by destruct s|]. exact IH. Qed.

Lemma take_app p s : Str.take (String.length p) (p +:+ s) = p.
Proof.
  induction p as [|c r IH]; [by destruct s|].
  rewrite app_cons. cbn. by rewrite IH.
Qed.

Lemma contains_slash_cons c r :
  Str.contains (String c r) "/"
  = bool_decide (c = "/"%char) || Str.contains r "/".
Proof.
  cbn. f_equal. rewrite andb_comm.
  assert (Str.startswith r "" = true) as -> by (by destruct r).
  cbn. apply bool_decide_ext. split; congruence.
Qed.

Lemma contains_mono pre s sub :
  Str.contains s sub = true → Str.contains (pre +:+ s) sub = true.
Proof.
  intros H. induction pre as [|c r IH]; [exact H|].
  rewrite app_cons. cbn [Str.contains]. rewrite IH. apply orb_true_r.
Qed.

Lemma no_slash_cons c r : no_slash (String c r) ↔ c ≠ "/"%char ∧ no_slash r.
Proof.
  unfold no_slash. rewrite contains_slash_cons, orb_false_iff.
  by rewrite bool_decide_eq_false.
Qed.

Lemma contains_slash_app d s : Str.contains (d +:+ String "/" s) "/" = true.
Proof.
  apply contains_mono. rewrite contains_slash_cons.
  by rewrite bool_decide_eq_true_2.
Qed.

(** [os.path.basename] of a path whose last component has no slash. *)
Lemma basename_app d base :
  no_slash base → Str.basename (d +:+ String "/" base) = base.
Proof.
  intros Hb. induction d as [|c r IH].
  - change ("" +:+ String "/" base) with (String "/" base).
    cbn [Str.basename]. unfold no_slash in Hb. rewrite Hb.
    by rewrite bool_decide_eq_true_2.
  - rewrite app_cons. cbn [Str.basename]. by rewrite contains_slash_app.
Qed.

Lemma basename_no_slash base : no_slash base → Str.basename base = base.
Proof.
  intros Hb. destruct base as [|c r]; [reflexivity|].
  apply no_slash_cons in Hb as [Hc Hr]. cbn [Str.basename].
  unfold no_slash in Hr. rewrite Hr. by rewrite bool_decide_eq_false_2.
Qed.

Lemma rev_app_rev_app s a b :
  String.rev_app (String.rev_app s a) b = String.rev_app a (s +:+ b).
Proof.
  revert a b. induction s as [|c r IH]; intros a b; [reflexivity|].
  cbn [String.rev_app]. by rewrite IH.
Qed.

Lemma rev_rev_app seg : String.rev (String.rev_app seg "") = seg.
Proof.
  unfold String.rev. rewrite rev_app_rev_app. cbn. apply app_empty_r.
Qed.

Lemma split_go_segment seg rest cur :
  no_slash seg →
  Str.split_go cur (seg +:+ String "/" rest)
  = String.rev (String.rev_app seg cur) :: Str.split_go "" rest.
Proof.
  revert cur. induction seg as [|c r IH]; intros cur Hs.
  - change ("" +:+ String "/" rest) with (String "/" rest). cbn.
    by rewrite bool_decide_eq_true_2.
  - apply no_slash_cons in Hs as [Hc Hr]. rewrite app_cons.
    cbn [Str.split_go]. rewrite bool_decide_eq_false_2 by done.
    by rewrite IH.
Qed.

Lemma split_go_last seg cur :
  no_slash seg →
  Str.split_go cur seg = [String.rev (String.rev_app seg cur)].
Proof.
  revert cur. induction seg as [|c r IH]; intros cur Hs; [reflexivity|].
  apply no_slash_cons in Hs as [Hc Hr].
  cbn [Str.split_go]. rewrite bool_decide_eq_false_2 by done.
  by rewrite IH.
Qed.

(** ** [parse_event]: exam and course codes *)

Lemma split_go_cons cur s : ∃ x xs, Str.split_go cur s = x :: xs.
Proof.
  revert cur. induction s as [|c r IH]; intros cur; [by eexists _, _|].
  cbn [Str.split_go]. case_bool_decide; [by eexists _, _ | apply IH].
Qed.

Lemma exam_and_course_three_segments exam course file :
  no_slash exam → no_slash course →
  exam_and_course (ZIP_PREFIX +:+ exam +:+ "/" +:+ course +:+ "/" +:+ file)
  = (exam, course).
Proof.
  intros He Hc. unfold exam_and_course.
  rewrite startswith_app, drop_app. unfold Str.split_slash.
  change ("/" +:+ course +:+ "/" +:+ file)
    with (String "/" (course +:+ String "/" file)).
  rewrite split_go_segment by exact He.
  rewrite split_go_segment by exact Hc.
  rewrite !rev_rev_app.
  by destruct (split_go_cons "" file) as (x & xs & ->).
Qed.

(** X1.  For a storage event whose decoded key is
    [Answer_Scripts_Zip_Files/<exam>/<course>/<rest>], the descriptor
    carries the first two path segments as exam and course codes and a
    generated identifier [JOB-<uuid>], and the folder the entries are
    uploaded to is [Answer_Scripts_Zip_Files/<exam>/<course>/unzipped/]. *)
Theorem parse_event_storage_shape E ev record records bucket key0
    exam course file :
  ev_Records ev = Some (record :: records) →
  rec_eventSource record = Some "aws:s3" →
  rec_s3 record = Some (bucket, key0) →
  env_unquote_plus E key0
  = ZIP_PREFIX +:+ exam +:+ "/" +:+ course +:+ "/" +:+ file →
  no_slash exam → no_slash course →
  ∃ p, parse_event E ev = inr (Some p)
       ∧ p_jobId p = Some ("JOB-" +:+ env_uuid E)
       ∧ p_s3Bucket p = Some bucket
       ∧ p_s3Key p = Some (env_unquote_plus E key0)
       ∧ p_examCode p = Some exam ∧ p_courseCode p = Some course
       ∧ p_uploadedBy p = Some "S3_AUTO_TRIGGER" ∧ p_source p = "S3_EVENT"
       ∧ unzip_prefix_of (p_examCode p) (p_courseCode p)
         = ZIP_PREFIX +:+ exam +:+ "/" +:+ course +:+ "/unzipped/".
Proof.
  intros Hrec Hsrc Hs3 Hkey He Hc. unfold parse_event.
  rewrite Hrec, bool_decide_eq_true_2, Hs3 by exact Hsrc.
  rewrite Hkey, exam_and_course_three_segments by done.
  eexists. split; [reflexivity|]. cbn. repeat split; try reflexivity.
Qed.

Lemma parse_event_storage_shape_witness :
  let E := sample_env [] ok_payload in
  let ev := Event (Some [S3Record (Some "aws:s3")
                           (Some ("exams", "Answer_Scripts_Zip_Files/E7/PHY101/b.zip"))])
                  Absent Absent Absent Absent Absent Absent Absent in
  ∃ p, parse_event E ev = inr (Some p)
       ∧ unzip_prefix_of (p_examCode p) (p_courseCode p)
         = "Answer_Scripts_Zip_Files/E7/PHY101/unzipped/".
Proof.
  intros E ev.
  destruct (parse_event_storage_shape E ev _ [] "exams"
              "Answer_Scripts_Zip_Files/E7/PHY101/b.zip" "E7" "PHY101" "b.zip"
              eq_refl eq_refl eq_refl eq_refl eq_refl eq_refl)
    as (p & Hp & _ & _ & _ & _ & _ & _ & _ & Hpre).
  exists p. split; [exact Hp | exact Hpre].
Defined.

(** X2.  A key under the prefix with fewer than three path segments gets
    the codes UNKNOWN, also when its first segment is an exam code: an
    archive placed directly in an exam folder, or at the top of the
    prefix, is unpacked under [UNKNOWN/UNKNOWN]. *)
Theorem exam_and_course_short_path a b :
  no_slash a → no_slash b →
  exam_and_course (ZIP_PREFIX +:+ a +:+ "/" +:+ b) = ("UNKNOWN", "UNKNOWN")
  ∧ exam_and_course (ZIP_PREFIX +:+ a) = ("UNKNOWN", "UNKNOWN").
Proof.
  intros Ha Hb. unfold exam_and_course.
  rewrite !startswith_app, !drop_app. unfold Str.split_slash. split.
  - change ("/" +:+ b) with (String "/" b).
    rewrite split_go_segment by exact Ha.
    by rewrite split_go_last by exact Hb.
  - by rewrite split_go_last by exact Ha.
Qed.

Lemma exam_and_course_short_path_witness :
  exam_and_course "Answer_Scripts_Zip_Files/E7/batch.zip"
  = ("UNKNOWN", "UNKNOWN").
Proof.
  exact (proj1 (exam_and_course_short_path "E7" "batch.zip" eq_refl eq_refl)).
Defined.

(** ** [is_junk_file]: junk by base name, in any directory *)

(** X3.  A name without slash that is junk stays junk under any
    directory: the tests on the base name do not look at the directories,
    and the two tests on the whole path can only add junk. *)
Theorem junk_in_any_directory d base :
  no_slash base → is_junk_file base = true →
  is_junk_file (d +:+ String "/" base) = true.
Proof.
  intros Hb Hj. unfold is_junk_file in *.
  rewrite basename_app by exact Hb.
  rewrite basename_no_slash in Hj by exact Hb.
  destruct (bool_decide (d +:+ String "/" base = "")); [reflexivity|].
  destruct (bool_decide (base = "")); [reflexivity|]. cbv iota in Hj.
  destruct (existsb (Str.contains (Str.lower base)) JUNK_NAMES
            || Str.startswith base "." || Str.endswith base "~");
    [reflexivity|].
  destruct (Str.contains base ".Trash-" || Str.contains base "/tmp/") eqn:Hp.
  - apply orb_true_iff in Hp as [Hp|Hp].
    + rewrite (contains_mono d (String "/" base) ".Trash-")
        by (cbn [Str.contains]; rewrite Hp; apply orb_true_r).
      reflexivity.
    + rewrite (contains_mono d (String "/" base) "/tmp/")
        by (cbn [Str.contains]; rewrite Hp; apply orb_true_r).
      by rewrite orb_true_r.
  - destruct (Str.contains (d +:+ String "/" base) ".Trash-"
              || Str.contains (d +:+ String "/" base) "/tmp/");
      [reflexivity | exact Hj].
Qed.

Lemma junk_in_any_directory_witness :
  is_junk_file "scans/2024/Thumbs.db" = true.
Proof.
  exact (junk_in_any_directory "scans/2024" "Thumbs.db" eq_refl eq_refl).
Defined.

(** ** [parse_event] and the handler: which triggers are taken *)

(** X4.  A non-empty [Records] list whose first record is not a storage
    event makes [parse_event] return nothing, also when the trigger
    carries the keys of a direct invocation: the handler then fails on
    the missing descriptor, with job identifier [None], and calls neither
    the blob store nor the validation function. *)
Theorem foreign_record_shadows_direct_keys E ev record records w :
  ev_Records ev = Some (record :: records) →
  rec_eventSource record ≠ Some "aws:s3" →
  parse_event E ev = inr None
  ∧ (lambda_handler E ev w).1
    = inr (Result 500 None "FAILED" (Some ERR_NONE_SUBSCRIPT))
  ∧ w_trace (lambda_handler E ev w).2
    = w_trace w
      ++ [ OpUpdate None [ ("status", FStr "FAILED");
                           ("error", FStr ERR_NONE_SUBSCRIPT);
                           (UPDATED_ON, FInt (env_clock E (w_tick w))) ] ]
  ∧ w_s3 (lambda_handler E ev w).2 = w_s3 w.
Proof.
  intros Hrec Hsrc.
  assert (parse_event E ev = inr None) as Hp.
  { unfold parse_event. by rewrite Hrec, bool_decide_eq_false_2. }
  split; [exact Hp|].
  assert ((p <- parse_step E ev ;; handler_steps E p) w
          = (inl ERR_NONE_SUBSCRIPT, w)) as Hbody.
  { unfold bind, parse_step. by rewrite Hp. }
  rewrite (lambda_handler_catches _ _ _ _ _ Hbody), Hp.
  by rewrite failure_boundary_run.
Qed.

Lemma foreign_record_shadows_direct_keys_witness :
  let E := sample_env [] ok_payload in
  let ev := Event (Some [S3Record (Some "aws:sns") None])
                  (Val "J1") (Val "exams") Absent (Val sample_key)
                  Absent Absent Absent in
  (lambda_handler E ev zip_world).1
  = inr (Result 500 None "FAILED" (Some ERR_NONE_SUBSCRIPT)).
Proof.
  intros E ev.
  refine (proj1 (proj2 (foreign_record_shadows_direct_keys E ev
                          (S3Record (Some "aws:sns") None) [] zip_world
                          eq_refl _))).
  discriminate.
Defined.

Lemma lambda_handler_has_job E ev p w :
  parse_event E ev = inr (Some p) →
  has_job (p_jobId p) (lambda_handler E ev w).2.
Proof.
  intros Hp. unfold lambda_handler, try_except.
  rewrite (parse_step_ok _ _ _ _ _ Hp), Hp. cbn [job_id_of_parse].
  pose proof (handler_steps_has_job E p w) as Hjob.
  destruct (handler_steps E p w) as [[msg|r] w1]; [|exact Hjob].
  apply preserves_failure_boundary; [apply has_job_closed | exact Hjob].
Qed.

(** X5.  A direct invocation that carries an object key and no job
    identifier is taken: the descriptor has job identifier [None], the
    run goes on, and afterwards the job collection holds a document whose
    [jobId] is null, which every later such invocation shares. *)
Theorem direct_invocation_without_job_id E ev w :
  ev_Records ev = None ∨ ev_Records ev = Some [] →
  fget (ev_jobId ev) = None → fhas (ev_s3Key ev) = true →
  ∃ p, parse_event E ev = inr (Some p)
       ∧ p_jobId p = None ∧ p_s3Key p = fget (ev_s3Key ev)
       ∧ p_source p = "DIRECT_INVOCATION"
       ∧ has_job None (lambda_handler E ev w).2
       ∧ ∃ r, (lambda_handler E ev w).1 = inr r ∧ r_jobId r = None.
Proof.
  intros Hrec Hid Hkey.
  assert (∃ p, parse_event E ev = inr (Some p) ∧ p_jobId p = None
               ∧ p_s3Key p = fget (ev_s3Key ev)
               ∧ p_source p = "DIRECT_INVOCATION") as (p & Hp & Hj & Hk & Hs).
  { unfold parse_event. rewrite Hkey, orb_true_r.
    destruct Hrec as [-> | ->]; eexists; (split; [reflexivity|]);
      cbn; by rewrite Hid. }
  exists p. split; [exact Hp|]. split; [exact Hj|]. split; [exact Hk|].
  split; [exact Hs|]. split.
  - rewrite <- Hj. by apply lambda_handler_has_job.
  - unfold lambda_handler, try_except.
    rewrite (parse_step_ok _ _ _ _ _ Hp), Hp. cbn [job_id_of_parse].
    destruct (handler_steps E p w) as [[msg|r] w1] eqn:Hsteps.
    + rewrite failure_boundary_run. eexists. split; [reflexivity|exact Hj].
    + exists r. split; [reflexivity|].
      unfold handler_steps in Hsteps.
      erewrite bind_inr in Hsteps by apply get_ist_millis_run.
      erewrite bind_inr in Hsteps by apply update_one_upsert_run.
      unfold steps_after_create in Hsteps.
      repeat (apply bind_inv_inr in Hsteps as (? & ? & _ & Hsteps)).
      destruct (excel_file _); [|discriminate].
      case_bool_decide; [discriminate|].
      repeat (apply bind_inv_inr in Hsteps as (? & ? & _ & Hsteps)).
      match type of Hsteps with
      | match ?l with _ => _ end _ = _ => destruct l
      end.
      * repeat (apply bind_inv_inr in Hsteps as (? & ? & _ & Hsteps)).
        injection Hsteps as <- _. exact Hj.
      * repeat (apply bind_inv_inr in Hsteps as (? & ? & _ & Hsteps)).
        discriminate.
Qed.

Lemma direct_invocation_without_job_id_witness :
  let E := sample_env [file_of_size "tiny.pdf" 500] ok_payload in
  let ev := Event None Absent (Val "exams") Absent (Val sample_key)
                  Absent Absent Absent in
  has_job None (lambda_handler E ev zip_world).2.
Proof.
  intros E ev.
  destruct (direct_invocation_without_job_id E ev zip_world
              (or_introl eq_refl) eq_refl eq_refl)
    as (p & _ & _ & _ & _ & Hjob & _).
  exact Hjob.
Defined.

(** ** The extraction loop: accounting *)

Lemma step_acc_accounting bucket unzip_prefix a e :
  let a' := step_acc bucket unzip_prefix a e in
  valid_files_processed a' - valid_files_processed a
  = Z.of_nat (accepted_count a') - Z.of_nat (accepted_count a)
  ∧ (accepted_count a' + length (skipped_files a'))%nat
    = (accepted_count a + length (skipped_files a)
       + if is_file e then 1 else 0)%nat.
Proof.
  assert (∀ v, classify e = v → v ≠ VDir → is_file e = true) as Hfile.
  { intros v <-. unfold classify, is_file.
    by destruct (Str.endswith (ze_name e) "/"). }
  assert (classify e = VDir → is_file e = false) as Hdir.
  { unfold classify, is_file.
    destruct (Str.endswith (ze_name e) "/"); [done|].
    destruct (is_junk_file (ze_name e)); [done|].
    destruct (ze_read e); [done|]. cbv zeta.
    destruct (_ =? 0); [done|].
    destruct (Str.endswith _ ".pdf"); [by destruct (negb _)|].
    destruct (_ || _); [by destruct (negb _)|done]. }
  unfold step_acc, accepted_count, accept_excel. cbv zeta.
  destruct (classify e) eqn:Hc.
  - rewrite Hdir by done. lia.
  - rewrite (Hfile _ eq_refl) by done.
    cbn [add_skip pdf_files other_files excel_file skipped_files
         valid_files_processed].
    rewrite length_app. cbn [length]. lia.
  - rewrite (Hfile _ eq_refl) by done.
    cbn [add_pdf pdf_files other_files excel_file skipped_files
         valid_files_processed].
    rewrite length_app. cbn [length]. lia.
  - rewrite (Hfile _ eq_refl) by done.
    destruct (excel_file a) eqn:Hx;
      cbn [add_skip set_excel pdf_files other_files excel_file skipped_files
           valid_files_processed];
      rewrite ?Hx, ?length_app; cbn [length]; lia.
  - rewrite (Hfile _ eq_refl) by done.
    cbn [add_other pdf_files other_files excel_file skipped_files
         valid_files_processed].
    rewrite length_app. cbn [length]. lia.
Qed.

Lemma foldl_step_acc_accounting bucket unzip_prefix file_list :
  ∀ a,
    let a' := foldl (step_acc bucket unzip_prefix) a file_list in
    valid_files_processed a' - valid_files_processed a
    = Z.of_nat (accepted_count a') - Z.of_nat (accepted_count a)
    ∧ (accepted_count a' + length (skipped_files a'))%nat
      = (accepted_count a + length (skipped_files a)
         + length (filter (λ e, is_file e = true) file_list))%nat.
Proof.
  induction file_list as [|e rest IH]; intros a; cbn [foldl].
  - cbn. lia.
  - destruct (IH (step_acc bucket unzip_prefix a e)) as [H1 H2].
    destruct (step_acc_accounting bucket unzip_prefix a e) as [G1 G2].
    cbv zeta in *. split; [lia|]. rewrite H2, G2.
    destruct (is_file e) eqn:Hf.
    + rewrite filter_cons_True by done. cbn [length]. lia.
    + rewrite filter_cons_False by congruence. lia.
Qed.

(** X6.  When the loop returns, [valid_files_processed] is the number of
    files held by the manifests (the PDFs, the other files and the
    spreadsheet, if any), and every entry that is not a directory marker
    is accounted for exactly once, either in a manifest or in the skip
    list. *)
Theorem loop_accounts_for_every_file E jid bucket unzip_prefix total
    file_list w a' w' :
  extract_entries E jid bucket unzip_prefix total 0 file_list acc0 w
  = (inr a', w') →
  valid_files_processed a' = Z.of_nat (accepted_count a')
  ∧ (accepted_count a' + length (skipped_files a'))%nat
    = length (filter (λ e, is_file e = true) file_list).
Proof.
  intros Hrun. apply extract_entries_acc in Hrun as ->.
  destruct (foldl_step_acc_accounting bucket unzip_prefix file_list acc0)
    as [H1 H2].
  cbv zeta in *. cbn in H1, H2. split; [lia | exact H2].
Qed.

Lemma loop_accounts_for_every_file_witness :
  let E := sample_env [] ok_payload in
  let file_list := [ ZEntry "batch/" (inr []);
                     file_of_size "batch/answer.pdf" 2000;
                     file_of_size "batch/marks.xlsx" 3000;
                     file_of_size "batch/.DS_Store" 10 ] in
  let run := extract_entries E (Some "J1") (Some "exams") "out/" 4 0
                             file_list acc0 zip_world in
  ∃ a', run.1 = inr a' ∧ valid_files_processed a' = 2
        ∧ length (skipped_files a') = 1%nat.
Proof.
  intros E file_list run.
  pose proof (extract_entries_total E (Some "J1") "exams" "out/" 4 file_list
                (λ _, eq_refl) 0%nat acc0 zip_world) as Hrun.
  eexists. split; [exact Hrun|].
  destruct (loop_accounts_for_every_file E (Some "J1") (Some "exams") "out/"
              4 file_list zip_world _ run.2 (pair_of_fst _ _ Hrun))
    as [H1 H2].
  split; [rewrite H1; reflexivity|].
  vm_compute in H2. vm_compute. reflexivity.
Defined.

Lemma foldl_step_acc_skip_dirs bucket unzip_prefix file_list a :
  foldl (step_acc bucket unzip_prefix) a file_list
  = foldl (step_acc bucket unzip_prefix) a
          (filter (λ e, is_file e = true) file_list).
Proof.
  revert a. induction file_list as [|e rest IH]; intros a; [reflexivity|].
  cbn [foldl]. destruct (is_file e) eqn:Hf.
  - rewrite filter_cons_True by done. cbn [foldl]. apply IH.
  - rewrite filter_cons_False by congruence. rewrite <- IH. f_equal.
    unfold step_acc, classify. unfold is_file in Hf.
    apply negb_false_iff in Hf. by rewrite Hf.
Qed.

(** ** The extraction loop: uploads *)

Lemma after_checkpoint_puts E jid total idx w :
  omap put_call (w_trace (after_checkpoint E jid total idx w))
  = omap put_call (w_trace w).
Proof.
  unfold after_checkpoint. destruct (_ =? _); [|reflexivity].
  cbn [w_trace]. rewrite omap_app. cbn. apply app_nil_r.
Qed.

Lemma extract_entries_puts E jid bucket unzip_prefix total file_list :
  ∀ idx a w a' w',
    extract_entries E jid bucket unzip_prefix total idx file_list a w
    = (inr a', w') →
    omap put_call (w_trace w')
    = omap put_call (w_trace w)
      ++ omap (upload_call bucket unzip_prefix) file_list.
Proof.
  induction file_list as [|e rest IH]; intros idx a w a' w' H.
  - injection H as _ <-. by rewrite app_nil_r.
  - cbn [extract_entries] in H.
    apply bind_inv_inr in H as (a1 & w1 & Hbody & Hrest).
    apply IH in Hrest. rewrite Hrest, omap_cons_match.
    apply loop_body_inv in Hbody as [_ Hw]. unfold upload_call at 2.
    destruct (upload_of e) as [[[base_name file_data] ctype]|]; [|by subst].
    destruct Hw as (bn & -> & _ & ->).
    rewrite after_checkpoint_puts. cbn [after_put w_trace].
    rewrite omap_app. cbn. by rewrite <- app_assoc.
Qed.

(** X8.  When the loop returns, the uploads it has made are, in archive
    order, one per entry that passes the classifier (including duplicate
    spreadsheets), each to the key [unzip_prefix + base name] with the
    content type of its kind; no other upload is made. *)
Theorem loop_uploads E jid bucket unzip_prefix total file_list w a' w' :
  extract_entries E jid bucket unzip_prefix total 0 file_list acc0 w
  = (inr a', w') →
  ∃ delta, w_trace w' = w_trace w ++ delta
           ∧ omap put_call delta
             = omap (upload_call bucket unzip_prefix) file_list.
Proof.
  intros Hrun. pose proof Hrun as Hputs.
  apply extract_entries_trace in Hrun as (delta & Ht & _).
  apply extract_entries_puts in Hputs. exists delta. split; [exact Ht|].
  rewrite Ht, omap_app in Hputs. by apply app_inv_head in Hputs.
Qed.

Lemma loop_uploads_witness :
  let E := sample_env [] ok_payload in
  let file_list := [ file_of_size "a/answer.pdf" 1024;
                     file_of_size "a/tiny.pdf" 10;
                     file_of_size "notes.txt" 3 ] in
  let run := extract_entries E (Some "J1") (Some "exams") "out/" 3 0
                             file_list acc0 zip_world in
  ∃ delta, w_trace run.2 = [] ++ delta
           ∧ omap put_summary delta
             = [("out/answer.pdf", 1024%nat); ("out/notes.txt", 3%nat)].
Proof.
  intros E file_list run.
  destruct (loop_uploads E (Some "J1") (Some "exams") "out/" 3 file_list
              zip_world _ run.2
              (pair_of_fst _ _ (extract_entries_total E (Some "J1") "exams"
                                  "out/" 3 file_list (λ _, eq_refl)
                                  0%nat acc0 zip_world)))
    as (delta & Ht & _).
  exists delta. split; [exact Ht|].
  assert (delta = w_trace run.2) as -> by (rewrite Ht; reflexivity).
  vm_compute. reflexivity.
Defined.

(** ** The extraction loop: a failed upload *)

Lemma bind_inl_run {A B} (m : M A) (k : A → M B) w msg w' :
  m w = (inl msg, w') → bind m k w = (inl msg, w').
Proof. intros H. unfold bind. by rewrite H. Qed.

Lemma extract_entries_app E jid bucket unzip_prefix total l1 l2 :
  ∀ idx a w,
    extract_entries E jid bucket unzip_prefix total idx (l1 ++ l2) a w
    = match extract_entries E jid bucket unzip_prefix total idx l1 a w with
      | (inr a1, w1) =>
          extract_entries E jid bucket unzip_prefix total
                          (idx + length l1) l2 a1 w1
      | (inl msg, w1) => (inl msg, w1)
      end.
Proof.
  induction l1 as [|e l1 IH]; intros idx a w.
  - cbn. by rewrite Nat.add_0_r.
  - cbn [app extract_entries length]. unfold bind at 1 2.
    destruct (loop_body E jid bucket unzip_prefix total idx e a w)
      as [[msg|a0] w0]; [reflexivity|].
    rewrite IH. by rewrite <- Nat.add_succ_comm.
Qed.

Lemma loop_body_upload_fails E jid bn unzip_prefix total idx e a w
    base_name file_data ctype msg :
  upload_of e = Some (base_name, file_data, ctype) →
  env_put_error E bn (unzip_prefix +:+ base_name) = Some msg →
  loop_body E jid (Some bn) unzip_prefix total idx e a w
  = (inl msg,
     World (w_db w) (w_s3 w) (w_tick w)
           (w_trace w ++ [OpPut (Some bn) (unzip_prefix +:+ base_name)
                                file_data ctype])).
Proof.
  intros Hup Herr. unfold loop_body. rewrite route_entry_classify.
  unfold upload_of in Hup.
  destruct (classify e); try discriminate; injection Hup as -> -> <-;
    cbn [route_verdict]; unfold bind, put_object, log; cbn;
    by rewrite Herr.
Qed.

(** X9.  The loop stops at the first upload that the blob store refuses:
    the exception carries the store's message, the entries after it are
    not processed, and what was uploaded before stays in the blob store
    (nothing is rolled back). *)
Theorem failed_upload_aborts_loop E jid bn unzip_prefix total before e after
    a w a1 w1 base_name file_data ctype msg :
  extract_entries E jid (Some bn) unzip_prefix total 0 before a w
  = (inr a1, w1) →
  upload_of e = Some (base_name, file_data, ctype) →
  env_put_error E bn (unzip_prefix +:+ base_name) = Some msg →
  extract_entries E jid (Some bn) unzip_prefix total 0
                  (before ++ e :: after) a w
  = (inl msg,
     World (w_db w1) (w_s3 w1) (w_tick w1)
           (w_trace w1 ++ [OpPut (Some bn) (unzip_prefix +:+ base_name)
                                 file_data ctype])).
Proof.
  intros Hbefore Hup Herr. rewrite extract_entries_app, Hbefore.
  cbn [extract_entries].
  by erewrite bind_inl_run by (by eapply loop_body_upload_fails).
Qed.

Lemma failed_upload_aborts_loop_witness :
  let E := {| env_clock := λ n, Z.of_nat n;
              env_uuid := "0000";
              env_unquote_plus := λ s, s;
              env_DELETE_ZIP_AFTER_SUCCESS := true;
              env_zip_open := λ _, inr [];
              env_put_error :=
                λ _ k, if bool_decide (k = "out/b.pdf")
                       then Some "AccessDenied" else None;
              env_delete_error := λ _ _, None;
              env_invoke := λ _, ok_payload |} in
  let file_list := [ file_of_size "a.pdf" 1024; file_of_size "b.pdf" 1024;
                     file_of_size "c.pdf" 1024 ] in
  let run := extract_entries E (Some "J1") (Some "exams") "out/" 3 0
                             file_list acc0 zip_world in
  run.1 = inl "AccessDenied"
  ∧ is_Some (w_s3 run.2 !! ("exams", "out/a.pdf"))
  ∧ w_s3 run.2 !! ("exams", "out/c.pdf") = None.
Proof.
  intros E file_list run.
  pose proof (failed_upload_aborts_loop E (Some "J1") "exams" "out/" 3
                [file_of_size "a.pdf" 1024] (file_of_size "b.pdf" 1024)
                [file_of_size "c.pdf" 1024] acc0 zip_world
                _ _ "b.pdf" (repeat Byte.x00 1024) (Some "application/pdf")
                "AccessDenied" (pair_of_fst _ _ eq_refl) eq_refl eq_refl)
    as Hrun.
  change (extract_entries E (Some "J1") (Some "exams") "out/" 3 0
            ([file_of_size "a.pdf" 1024]
             ++ file_of_size "b.pdf" 1024 :: [file_of_size "c.pdf" 1024])
            acc0 zip_world) with run in Hrun.
  rewrite Hrun. cbn [fst snd w_s3]. split; [reflexivity|].
  vm_compute. split; [eauto | reflexivity].
Defined.

(** ** Accepted PDFs: the identifying code *)

Lemma lower_char_dot c : Str.lower_char c = "."%char → c = "."%char.
Proof.
  destruct c as [[] [] [] [] [] [] [] []]; vm_compute; intros H;
    first [reflexivity | discriminate H].
Qed.

Lemma lower_char_pdf c :
  (Str.lower_char c = "p"%char → c = "p"%char ∨ c = "P"%char)
  ∧ (Str.lower_char c = "d"%char → c = "d"%char ∨ c = "D"%char)
  ∧ (Str.lower_char c = "f"%char → c = "f"%char ∨ c = "F"%char).
Proof.
  destruct c as [[] [] [] [] [] [] [] []]; vm_compute;
    repeat split; intros H;
    first [discriminate H | left; reflexivity | right; reflexivity].
Qed.

Lemma lower_eq c r :
  Str.lower (String c r)
  = match r with
    | String c2 r2 =>
        if bool_decide (c = "196"%char ∧ c2 = "176"%char) then
          String "i" (String "204" (String "135" (Str.lower r2)))
        else
          match r2 with
          | String c3 r3 =>
              if bool_decide (c = "226"%char ∧ c2 = "132"%char
                              ∧ c3 = "170"%char)
              then String "k" (Str.lower r3)
              else String (Str.lower_char c) (Str.lower r)
          | EmptyString => String (Str.lower_char c) (Str.lower r)
          end
    | EmptyString => String (Str.lower_char c) (Str.lower r)
    end.
Proof. destruct r as [|c2 [|c3 r3]]; reflexivity. Qed.

(** The three ways [Str.lower] consumes a non-empty string. *)
Lemma lower_unfold s :
  s = "" ∧ Str.lower s = ""
  ∨ (∃ r, s = String "196" (String "176" r)
          ∧ Str.lower s
            = String "i" (String "204" (String "135" (Str.lower r))))
  ∨ (∃ r, s = String "226" (String "132" (String "170" r))
          ∧ Str.lower s = String "k" (Str.lower r))
  ∨ (∃ c r, s = String c r
            ∧ Str.lower s = String (Str.lower_char c) (Str.lower r)).
Proof.
  destruct s as [|c r]; [by left|]. right. rewrite lower_eq.
  destruct r as [|c2 r2]; [right; right; by eexists _, _|].
  case_bool_decide as H1.
  { destruct H1 as [-> ->]. left. by eexists. }
  destruct r2 as [|c3 r3]; [right; right; by eexists _, _|].
  case_bool_decide as H2.
  - destruct H2 as (-> & -> & ->). right; left. by eexists.
  - right; right. by eexists _, _.
Qed.

Lemma lower_ind (P : string → Prop) :
  P "" →
  (∀ r, P r → P (String "196" (String "176" r))) →
  (∀ r, P r → P (String "226" (String "132" (String "170" r)))) →
  (∀ c r, Str.lower (String c r) = String (Str.lower_char c) (Str.lower r) →
          P r → P (String c r)) →
  ∀ s, P s.
Proof.
  intros H0 H1 H2 H3 s.
  assert (∀ n s, (String.length s ≤ n)%nat → P s) as Hn;
    [|by apply (Hn (String.length s))].
  clear s. induction n as [|n IH]; intros s Hs.
  - destruct s; [exact H0 | cbn in Hs; lia].
  - destruct (lower_unfold s)
      as [[-> _]|[(r & -> & _)|[(r & -> & _)|(c & r & -> & Heq)]]].
    + exact H0.
    + apply H1, IH. cbn in Hs. lia.
    + apply H2, IH. cbn in Hs. lia.
    + apply H3; [exact Heq|]. apply IH. cbn in Hs. lia.
Qed.

(** A character of the lower-cased text other than [i] and [k] comes from
    one character of the text. *)
Lemma lower_cons_inv s a t :
  Str.lower s = String a t → a ≠ "i"%char → a ≠ "k"%char →
  ∃ c r, s = String c r ∧ Str.lower_char c = a ∧ Str.lower r = t.
Proof.
  intros H Hi Hk.
  destruct (lower_unfold s)
    as [[-> Hl]|[(r & -> & Hl)|[(r & -> & Hl)|(c & r & -> & Hl)]]];
    rewrite Hl in H.
  - discriminate.
  - injection H as H _. by destruct Hi.
  - injection H as H _. by destruct Hk.
  - injection H as H1 H2. by exists c, r.
Qed.

Lemma lower_nil s : Str.lower s = "" → s = "".
Proof.
  intros H.
  destruct (lower_unfold s)
    as [[-> Hl]|[(r & -> & Hl)|[(r & -> & Hl)|(c & r & -> & Hl)]]];
    [reflexivity|rewrite Hl in H; discriminate..].
Qed.

Lemma lower_eq_pdf r :
  Str.lower r = "pdf" →
  ∃ c1 c2 c3, r = String c1 (String c2 (String c3 ""))
              ∧ Str.lower_char c1 = "p"%char ∧ Str.lower_char c2 = "d"%char
              ∧ Str.lower_char c3 = "f"%char.
Proof.
  intros H.
  apply lower_cons_inv in H as (c1 & r1 & -> & H1 & H); [|done..].
  apply lower_cons_inv in H as (c2 & r2 & -> & H2 & H); [|done..].
  apply lower_cons_inv in H as (c3 & r3 & -> & H3 & H); [|done..].
  apply lower_nil in H as ->. by exists c1, c2, c3.
Qed.

Lemma lower_app_pdf s :
  ∀ pre', Str.lower s = pre' +:+ ".pdf" →
  ∃ pre c1 c2 c3,
    s = pre +:+ String "." (String c1 (String c2 (String c3 "")))
    ∧ Str.lower_char c1 = "p"%char ∧ Str.lower_char c2 = "d"%char
    ∧ Str.lower_char c3 = "f"%char.
Proof.
  induction s as [|r IH|r IH|c r Heq IH] using lower_ind; intros pre' H.
  - destruct pre'; discriminate.
  - rewrite lower_eq, bool_decide_eq_true_2 in H by done.
    destruct pre' as [|a [|b [|d pre']]]; try discriminate.
    injection H as _ _ _ H.
    apply IH in H as (pre & c1 & c2 & c3 & -> & Hc).
    by exists (String "196" (String "176" pre)), c1, c2, c3.
  - rewrite lower_eq, bool_decide_eq_false_2, bool_decide_eq_true_2 in H
      by (done || by intros [? ?]).
    destruct pre' as [|a pre']; try discriminate.
    injection H as _ H.
    apply IH in H as (pre & c1 & c2 & c3 & -> & Hc).
    by exists (String "226" (String "132" (String "170" pre))), c1, c2, c3.
  - rewrite Heq in H. destruct pre' as [|a pre'].
    + injection H as H0 H. apply lower_char_dot in H0 as ->.
      apply lower_eq_pdf in H as (c1 & c2 & c3 & -> & Hc).
      by exists "", c1, c2, c3.
    + injection H as _ H.
      apply IH in H as (pre & c1 & c2 & c3 & -> & Hc).
      by exists (String c pre), c1, c2, c3.
Qed.

Lemma endswith_app_inv x t :
  Str.endswith x t = true → ∃ pre, x = pre +:+ t.
Proof.
  induction x as [|c r IH]; cbn [Str.endswith]; intros H.
  - rewrite orb_false_r in H. apply bool_decide_eq_true in H as <-.
    by exists "".
  - apply orb_true_iff in H as [H|H].
    + apply bool_decide_eq_true in H as <-. by exists "".
    + destruct (IH H) as [pre ->]. by exists (String c pre).
Qed.

Lemma rfind_dot_ext pre c1 c2 c3 :
  c1 ≠ "."%char → c2 ≠ "."%char → c3 ≠ "."%char →
  Str.rfind_dot (pre +:+ String "." (String c1 (String c2 (String c3 ""))))
  = Some (String.length pre).
Proof.
  intros H1 H2 H3. induction pre as [|c r IH].
  - change ("" +:+ ?x) with x. cbn [Str.rfind_dot String.length].
    rewrite !bool_decide_eq_false_2 by done.
    by rewrite bool_decide_eq_true_2.
  - rewrite app_cons. cbn [Str.rfind_dot String.length]. by rewrite IH.
Qed.

Lemma startswith_dot_cons c r :
  Str.startswith (String c r) "." = bool_decide ("."%char = c).
Proof.
  cbn [Str.startswith].
  assert (Str.startswith r "" = true) as -> by (by destruct r).
  apply andb_true_r.
Qed.

Lemma not_junk_base_name name :
  is_junk_file name = false →
  Str.basename name ≠ "" ∧ Str.startswith (Str.basename name) "." = false.
Proof.
  unfold is_junk_file. destruct (bool_decide (name = "")); [discriminate|].
  case_bool_decide as Hb; [discriminate|].
  destruct (existsb _ _); [discriminate|].
  destruct (Str.startswith (Str.basename name) "."); [discriminate|]. done.
Qed.

Lemma classify_pdf_inv e base_name file_data :
  classify e = VPdf base_name file_data →
  is_junk_file (ze_name e) = false
  ∧ ze_read e = inr file_data
  ∧ base_name = Str.basename (ze_name e)
  ∧ is_valid_pdf base_name (size_of file_data) = true.
Proof.
  unfold classify, size_of.
  destruct (Str.endswith (ze_name e) "/"); [discriminate|].
  destruct (is_junk_file (ze_name e)); [discriminate|].
  destruct (ze_read e) as [err|data]; [discriminate|]. cbv zeta.
  destruct (_ =? 0); [discriminate|].
  destruct (Str.endswith _ ".pdf").
  - destruct (is_valid_pdf _ _) eqn:Hv; [|discriminate].
    cbn [negb]. by intros [= <- <-].
  - destruct (_ || _); [|discriminate]. by destruct (negb _).
Qed.

(** The item the loop records for an entry classified as a PDF. *)
Lemma accepted_pdf_item bucket unzip_prefix e item :
  accepted_pdf bucket unzip_prefix e = Some item →
  ∃ file_data ext,
    ze_read e = inr file_data
    ∧ pdf_fileName item = Str.basename (ze_name e)
    ∧ pdf_fileName item = pdf_uniqueCode item +:+ ext
    ∧ pdf_ext ext
    ∧ pdf_uniqueCode item ≠ ""
    ∧ pdf_fileSize item = size_of file_data ∧ 1024 ≤ pdf_fileSize item
    ∧ pdf_s3Key item = unzip_prefix +:+ pdf_fileName item
    ∧ pdf_s3Bucket item = bucket.
Proof.
  unfold accepted_pdf. destruct (classify e) as [| | base_name file_data| |]
    eqn:Hc; try discriminate.
  intros [= <-].
  apply classify_pdf_inv in Hc as (Hjunk & Hread & Hbase & Hvalid).
  apply not_junk_base_name in Hjunk as [Hne Hdot]. rewrite <- Hbase in *.
  unfold is_valid_pdf in Hvalid. apply andb_true_iff in Hvalid as [Hext Hsz].
  apply Z.leb_le in Hsz.
  apply endswith_app_inv in Hext as [pre' Hext].
  apply lower_app_pdf in Hext as (pre & c1 & c2 & c3 & Hsplit & H1 & H2 & H3).
  assert (c1 ≠ "."%char ∧ c2 ≠ "."%char ∧ c3 ≠ "."%char) as (N1 & N2 & N3).
  { repeat split; intros ->; discriminate. }
  assert (Str.splitext_root base_name = pre) as Hroot.
  { unfold Str.splitext_root. rewrite Hsplit, rfind_dot_ext, take_app by done.
    destruct pre as [|c0 r].
    - rewrite Hsplit in Hdot. discriminate.
    - rewrite Hsplit, app_cons, startswith_dot_cons in Hdot.
      apply bool_decide_eq_false in Hdot.
      cbn [Str.all_dots]. by rewrite bool_decide_eq_false_2 by congruence. }
  exists file_data, (String "." (String c1 (String c2 (String c3 "")))).
  cbn [pdf_item_of pdf_fileName pdf_uniqueCode pdf_fileSize pdf_s3Key
       pdf_s3Bucket].
  rewrite Hroot. split; [exact Hread|]. split; [reflexivity|].
  split; [exact Hsplit|]. split.
  { exists c1, c2, c3. split; [reflexivity|].
    destruct (lower_char_pdf c1) as (P1 & _ & _).
    destruct (lower_char_pdf c2) as (_ & P2 & _).
    destruct (lower_char_pdf c3) as (_ & _ & P3). auto. }
  split.
  { intros ->. rewrite Hsplit in Hdot. discriminate. }
  done.
Qed.

(** X10.  When the loop returns, every item of the PDF manifest comes from
    an entry of the archive that was read, and its identifying code is the
    base name of that entry without the extension: the file name is the
    code followed by a dot and the letters p, d, f in either case; the
    code is not empty, the size is that of the data read and at least
    1024, the key is the unzip prefix followed by the file name, and the
    bucket is that of the event. *)
Theorem accepted_pdf_unique_code E jid bucket unzip_prefix total file_list
    w a' w' item :
  extract_entries E jid bucket unzip_prefix total 0 file_list acc0 w
  = (inr a', w') →
  item ∈ pdf_files a' →
  ∃ e file_data ext,
    e ∈ file_list ∧ ze_read e = inr file_data
    ∧ pdf_fileName item = Str.basename (ze_name e)
    ∧ pdf_fileName item = pdf_uniqueCode item +:+ ext
    ∧ pdf_ext ext
    ∧ pdf_uniqueCode item ≠ ""
    ∧ pdf_fileSize item = size_of file_data ∧ 1024 ≤ pdf_fileSize item
    ∧ pdf_s3Key item = unzip_prefix +:+ pdf_fileName item
    ∧ pdf_s3Bucket item = bucket.
Proof.
  intros Hrun Hin.
  apply extract_entries_acc in Hrun as ->.
  rewrite foldl_step_acc_pdf in Hin. cbn [acc0 pdf_files app] in Hin.
  apply list_elem_of_omap in Hin as (e & He & Hitem).
  apply accepted_pdf_item in Hitem as (file_data & ext & Hitem).
  by exists e, file_data, ext.
Qed.

Lemma accepted_pdf_unique_code_witness :
  let E := sample_env [] ok_payload in
  let file_list := [ file_of_size "batch/R2024.017.PDF" 1024;
                     file_of_size "notes.txt" 3 ] in
  let run := extract_entries E (Some "J1") (Some "exams") "out/" 2 0
                             file_list acc0 zip_world in
  let item := PdfItem "out/R2024.017.PDF" "R2024.017.PDF" "R2024.017" 1024
                      (Some "exams") in
  ∃ a', run.1 = inr a' ∧ item ∈ pdf_files a'
        ∧ ∃ ext, pdf_fileName item = pdf_uniqueCode item +:+ ext
                 ∧ pdf_ext ext.
Proof.
  intros E file_list run item.
  pose proof (extract_entries_total E (Some "J1") "exams" "out/" 2 file_list
                (λ _, eq_refl) 0%nat acc0 zip_world) as Hrun.
  assert (item ∈ pdf_files (foldl (step_acc (Some "exams") "out/") acc0
                                  file_list)) as Hin
    by (vm_compute; constructor).
  eexists. split; [exact Hrun|]. split; [exact Hin|].
  destruct (accepted_pdf_unique_code E (Some "J1") (Some "exams") "out/" 2
              file_list zip_world _ run.2 item (pair_of_fst _ _ Hrun) Hin)
    as (e & file_data & ext & _ & _ & _ & Hname & Hext & _).
  by exists ext.
Defined.

(** ** The handler, stage by stage *)

Lemma lookup_set_fields_Some fs (d : doc) name v :
  field_of name fs = Some v → set_fields fs d !! name = Some v.
Proof. intros H. by rewrite lookup_set_fields, H. Qed.

Lemma lookup_set_fields_None fs (d : doc) name :
  field_of name fs = None → set_fields fs d !! name = d !! name.
Proof. intros H. by rewrite lookup_set_fields, H. Qed.

(** The steps up to the end of the loop, when the archive is fetched and
    decoded and every upload is accepted. *)
Lemma steps_to_finish E p now_millis w b k o file_list :
  p_s3Bucket p = Some b → p_s3Key p = Some k →
  w_s3 w !! (b, k) = Some o →
  env_zip_open E (blob_body o) = inr file_list →
  (∀ key, env_put_error E b key = None) →
  ∃ w5 fs1 loop_delta,
    steps_after_create E p now_millis w
    = finish_job E p (Z.of_nat (length file_list))
        (foldl (step_acc (Some b)
                  (unzip_prefix_of (p_examCode p) (p_courseCode p)))
               acc0 file_list) w5
    ∧ w_trace w5
      = w_trace w ++ [OpUpdate (p_jobId p) fs1; OpGet (Some b) (Some k)]
        ++ loop_delta
    ∧ field_of "status" fs1 = Some (FStr "UNZIPPING")
    ∧ Forall (loop_op (p_jobId p)) loop_delta
    ∧ (has_job (p_jobId p) w → has_job (p_jobId p) w5).
Proof.
  intros Hb Hk Ho Hzip Hput. unfold steps_after_create, finish_job.
  rewrite Hb, Hk.
  erewrite bind_inr by apply update_one_run. cbn [w_db w_s3 w_tick w_trace].
  erewrite bind_inr by (apply get_object_run; exact Ho).
  cbn [w_db w_s3 w_tick w_trace].
  erewrite bind_inr by (apply zip_open_run; exact Hzip).
  match goal with
  | |- context [bind (extract_entries ?E ?j (Some ?bn) ?pre ?tot ?idx ?l ?a) _ ?W] =>
      pose proof (pair_of_fst _ _
                    (extract_entries_total E j bn pre tot l Hput idx a W))
        as Hloop;
      pose proof (preserves_extract_entries E (has_job j) j (Some bn) pre tot
                    l (has_job_closed j _) idx a W) as Hjob
  end.
  erewrite bind_inr by exact Hloop.
  apply extract_entries_trace in Hloop as (loop_delta & Ht & _ & Hops).
  eexists _, _, loop_delta. split; [reflexivity|].
  cbn [w_trace] in Ht. rewrite Ht. split; [by rewrite <- !app_assoc|].
  split; [reflexivity|]. split; [exact Hops|].
  intros [d Hd]. apply Hjob. unfold has_job. cbn [w_db].
  rewrite lookup_alter, decide_True, Hd by reflexivity. cbn. eauto.
Qed.

Lemma delete_object_run E bucket key w :
  ∃ r s3',
    delete_object E bucket key w
    = (r, World (w_db w) s3' (w_tick w) (w_trace w ++ [OpDelete bucket key]))
    ∧ match r with
      | inr _ => ∃ bn kn, bucket = Some bn ∧ key = Some kn
                          ∧ env_delete_error E bn kn = None
                          ∧ s3' = delete (bn, kn) (w_s3 w)
      | inl _ => s3' = w_s3 w
                 ∧ ¬ ∃ bn kn, bucket = Some bn ∧ key = Some kn
                              ∧ env_delete_error E bn kn = None
      end.
Proof.
  unfold delete_object, bind, log.
  destruct bucket as [bn|], key as [kn|];
    try (eexists (inl _), _; split; [reflexivity|]; split; [reflexivity|];
         by intros (? & ? & ? & ? & _)).
  destruct (env_delete_error E bn kn) eqn:Herr.
  - eexists (inl _), _. split; [reflexivity|]. split; [reflexivity|].
    intros (? & ? & [= <-] & [= <-] & ?). congruence.
  - eexists (inr _), _. split; [reflexivity|]. by eexists _, _.
Qed.

Lemma delete_zip_file_document E bucket key jid w d :
  w_db w !! jid = Some d →
  ∃ ok w1 d1,
    delete_zip_file E bucket key jid w = (inr ok, w1)
    ∧ w_db w1 !! jid = Some d1
    ∧ ∀ name, name ≠ "originalZipDeleted" →
              name ≠ "zipDeletedAt_KJUSYSCommon_DateTime" →
              d1 !! name = d !! name.
Proof.
  intros Hd. unfold delete_zip_file, try_except.
  destruct (delete_object_run E bucket key w) as ([msg|[]] & s3' & Hrun & _).
  - erewrite bind_inl_run by exact Hrun. by eexists _, _, d.
  - erewrite bind_inr by exact Hrun.
    erewrite bind_inr by apply get_ist_millis_run.
    erewrite bind_inr by apply update_one_run.
    eexists _, _, _. split; [reflexivity|]. cbn [w_db].
    rewrite lookup_alter, decide_True, Hd by reflexivity.
    split; [reflexivity|]. intros name H1 H2. rewrite lookup_set_fields.
    cbn [field_of]. by rewrite !bool_decide_eq_false_2 by congruence.
Qed.

(** X11.  The happy path.  When the archive is fetched and decoded, every
    upload is accepted, at least one PDF and one spreadsheet pass the
    classifier, and the validation function answers with status 200 and
    no [errorMessage], the handler returns the success result and the job
    document ends with status COMPLETED, progress 40, the number of
    archive entries, and the manifests: all accepted PDFs, in order, their
    number, and the first qualifying spreadsheet.  A failure of the
    archive deletion changes none of this. *)
Theorem successful_run E ev w p b k o file_list e_pdf bp dp q rest sc pl :
  parse_event E ev = inr (Some p) →
  p_s3Bucket p = Some b → p_s3Key p = Some k →
  w_s3 w !! (b, k) = Some o →
  env_zip_open E (blob_body o) = inr file_list →
  (∀ key, env_put_error E b key = None) →
  e_pdf ∈ file_list → classify e_pdf = VPdf bp dp →
  omap qualifying_spreadsheet file_list = q :: rest →
  env_invoke E (p_jobId p) = InvokeReturns sc pl →
  fhas (pl_errorMessage pl) = false →
  effective_status sc pl = Some 200 →
  let run := lambda_handler E ev w in
  let unzip_prefix := unzip_prefix_of (p_examCode p) (p_courseCode p) in
  let pdfs := omap (accepted_pdf (Some b) unzip_prefix) file_list in
  run.1 = inr (Result 200 (p_jobId p) "SUCCESS" None)
  ∧ ∃ d, w_db run.2 !! p_jobId p = Some d
         ∧ d !! "status" = Some (FStr "COMPLETED")
         ∧ d !! "progress" = Some (FInt 40)
         ∧ d !! "totalFiles" = Some (FInt (Z.of_nat (length file_list)))
         ∧ d !! "totalPDFs" = Some (FInt (Z.of_nat (length pdfs)))
         ∧ d !! "pdfFiles" = Some (FPdfs pdfs)
         ∧ d !! "excelFile"
           = Some (FExcel (excel_item_of (Some b) unzip_prefix q.1 q.2))
         ∧ d !! "unzipFolderPath" = Some (FStr unzip_prefix).
Proof.
  intros Hp Hb Hk Ho Hzip Hput Hpdf Hcpdf Hq Hinv Hem Hst run unzip_prefix pdfs.
  subst run. unfold lambda_handler, try_except.
  rewrite (parse_step_ok _ _ _ _ _ Hp). unfold handler_steps.
  erewrite bind_inr by apply get_ist_millis_run.
  erewrite bind_inr by apply update_one_upsert_run.
  match goal with
  | |- context [steps_after_create E p ?now ?W] =>
      destruct (steps_to_finish E p now W b k o file_list Hb Hk Ho Hzip Hput)
        as (w5 & fs1 & loop_delta & -> & _ & _ & _ & Hjob);
      assert (has_job (p_jobId p) W) as HW
  end.
  { unfold has_job. cbn [w_db]. destruct (w_db w !! p_jobId p) eqn:Hj.
    - rewrite Hj. eauto.
    - rewrite lookup_insert_eq. eauto. }
  destruct (Hjob HW) as [d5 Hd5]. clear Hjob HW.
  unfold finish_job. fold unzip_prefix.
  destruct (foldl_step_acc_excel_first (Some b) unzip_prefix file_list acc0
              q rest eq_refl Hq) as [Hxl _].
  rewrite Hxl.
  rewrite bool_decide_eq_false_2
    by (exact (foldl_has_pdf _ _ _ e_pdf bp dp Hpdf Hcpdf)).
  rewrite foldl_step_acc_pdf. cbn [acc0 pdf_files app]. fold pdfs.
  erewrite bind_inr by apply get_ist_millis_run.
  cbn [w_db w_s3 w_tick w_trace].
  erewrite bind_inr by apply update_one_run.
  cbn [w_db w_s3 w_tick w_trace].
  erewrite bind_inr by apply invoke_lambda2_sync_run.
  cbn [w_db w_s3 w_tick w_trace].
  assert (l2_of_outcome (env_invoke E (p_jobId p)) = L2Ok pl) as ->.
  { unfold l2_of_outcome. rewrite Hinv, Hem. unfold effective_status in Hst.
    by rewrite bool_decide_eq_true_2. }
  match goal with
  | |- context [bind (if ?flag then delete_zip_file ?E ?bb ?kk ?j else _) _ ?W] =>
      assert (∃ ok w6 d6,
                (if flag then delete_zip_file E bb kk j else ret false) W
                = (inr ok, w6)
                ∧ w_db w6 !! j = Some d6
                ∧ ∀ name, name ≠ "originalZipDeleted" →
                          name ≠ "zipDeletedAt_KJUSYSCommon_DateTime" →
                          d6 !! name = W.(w_db) !! j ≫= (.!! name))
        as (ok & w6 & d6 & Hdel & Hd6 & Hsame)
  end.
  { destruct (env_DELETE_ZIP_AFTER_SUCCESS E).
    - match goal with
      | |- context [delete_zip_file ?E ?bb ?kk ?j ?W] =>
          destruct (delete_zip_file_document E bb kk j W _
                      ltac:(cbn [w_db]; rewrite lookup_alter, decide_True, Hd5
                              by reflexivity; reflexivity))
            as (ok & w6 & d6 & Hdel & Hd6 & Hsame)
      end.
      exists ok, w6, d6. split; [exact Hdel|]. split; [exact Hd6|].
      intros name H1 H2. rewrite (Hsame name H1 H2). cbn [w_db].
      by rewrite lookup_alter, decide_True, Hd5 by reflexivity.
    - eexists _, _, _. split; [reflexivity|]. cbn [w_db].
      rewrite lookup_alter, decide_True, Hd5 by reflexivity. cbn.
      split; [reflexivity|]. done. }
  erewrite bind_inr by exact Hdel.
  erewrite bind_inr by apply get_ist_millis_run.
  erewrite bind_inr by apply update_one_run.
  cbn [ret fst snd w_db]. split; [reflexivity|].
  eexists. rewrite lookup_alter, decide_True, Hd6 by reflexivity.
  split; [reflexivity|].
  split; [by apply lookup_set_fields_Some|].
  rewrite !lookup_set_fields_None by reflexivity.
  rewrite !Hsame by discriminate. cbn [w_db].
  rewrite lookup_alter, decide_True, Hd5 by reflexivity. cbn [mbind option_bind].
  repeat split; by apply lookup_set_fields_Some.
Qed.

(** Scenario A of the specification. *)
Lemma successful_run_witness :
  let file_list := [ file_of_size "answer.pdf" 2000;
                     file_of_size "marks.xlsx" 3000;
                     file_of_size ".DS_Store" 100 ] in
  let E := sample_env file_list ok_payload in
  let run := lambda_handler E direct_event zip_world in
  run.1 = inr (Result 200 (Some "J1") "SUCCESS" None)
  ∧ ∃ d, w_db run.2 !! Some "J1" = Some d
         ∧ d !! "status" = Some (FStr "COMPLETED")
         ∧ d !! "totalPDFs" = Some (FInt 1).
Proof.
  intros file_list E run.
  destruct (successful_run E direct_event zip_world
              (Parsed (Some "J1") (Some "exams") (Some sample_key)
                      (Some "E1") (Some "C1") (Some "BACKEND")
                      "DIRECT_INVOCATION")
              "exams" sample_key (Blob [] None None) file_list
              (file_of_size "answer.pdf" 2000) "answer.pdf"
              (repeat Byte.x00 2000)
              ("marks.xlsx", repeat Byte.x00 3000) []
              (Some 200) (Payload Absent (Val 200) Absent))
    as (Hr & d & Hd & Hs & _ & _ & Hn & _); try reflexivity.
  - apply list_elem_of_here.
  - split; [exact Hr|]. exists d. split; [exact Hd|]. split; [exact Hs|].
    exact Hn.
Defined.

(** X12.  An archive with an accepted spreadsheet and no accepted PDF
    fails with "No PDF files found": the job document ends with status
    FAILED and that error, and the validation function is not called. *)
Theorem missing_pdf_fails E ev w p b k o file_list q rest :
  parse_event E ev = inr (Some p) →
  p_s3Bucket p = Some b → p_s3Key p = Some k →
  w_s3 w !! (b, k) = Some o →
  env_zip_open E (blob_body o) = inr file_list →
  (∀ key, env_put_error E b key = None) →
  omap qualifying_spreadsheet file_list = q :: rest →
  (∀ e base_name file_data, e ∈ file_list →
                            classify e ≠ VPdf base_name file_data) →
  let run := lambda_handler E ev w in
  run.1 = inr (Result 500 (p_jobId p) "FAILED" (Some "No PDF files found"))
  ∧ (∃ d, w_db run.2 !! p_jobId p = Some d
          ∧ d !! "status" = Some (FStr "FAILED")
          ∧ d !! "error" = Some (FStr "No PDF files found"))
  ∧ ∃ delta, w_trace run.2 = w_trace w ++ delta
             ∧ OpInvoke (p_jobId p) ∉ delta.
Proof.
  intros Hp Hb Hk Ho Hzip Hput Hq Hnopdf run.
  assert (∃ w1 delta,
            handler_steps E p w = (inl "No PDF files found", w1)
            ∧ w_trace w1 = w_trace w ++ delta
            ∧ OpInvoke (p_jobId p) ∉ delta) as (w1 & delta & Hsteps & Ht & Hno).
  { unfold handler_steps.
    erewrite bind_inr by apply get_ist_millis_run.
    erewrite bind_inr by apply update_one_upsert_run.
    match goal with
    | |- context [steps_after_create E p ?now ?W] =>
        destruct (steps_to_finish E p now W b k o file_list Hb Hk Ho Hzip Hput)
          as (w5 & fs1 & loop_delta & -> & Ht & _ & Hops & _)
    end.
    unfold finish_job.
    destruct (foldl_step_acc_excel_first (Some b)
                (unzip_prefix_of (p_examCode p) (p_courseCode p))
                file_list acc0 q rest eq_refl Hq) as [Hxl _].
    rewrite Hxl, foldl_step_acc_pdf. cbn [acc0 pdf_files app].
    assert (omap (accepted_pdf (Some b)
                    (unzip_prefix_of (p_examCode p) (p_courseCode p)))
                 file_list = []) as ->.
    { destruct (omap (accepted_pdf (Some b)
                        (unzip_prefix_of (p_examCode p) (p_courseCode p)))
                     file_list) as [|x xs] eqn:Hx; [reflexivity|].
      assert (x ∈ x :: xs) as Hin by apply list_elem_of_here.
      rewrite <- Hx in Hin.
      apply list_elem_of_omap in Hin as (e & He & Hacc).
      unfold accepted_pdf in Hacc.
      destruct (classify e) eqn:Hc; try discriminate.
      by destruct (Hnopdf e _ _ He Hc). }
    rewrite bool_decide_eq_true_2 by reflexivity.
    eexists _, _. split; [reflexivity|]. cbn [w_trace] in Ht.
    split; [rewrite Ht; by rewrite <- app_assoc|].
    intros Hin. apply elem_of_app in Hin as [Hin|Hin].
    - apply list_elem_of_singleton in Hin. discriminate.
    - apply elem_of_app in Hin as [Hin|Hin].
      + apply elem_of_cons in Hin as [Hin|Hin]; [discriminate|].
        apply list_elem_of_singleton in Hin. discriminate.
      + rewrite Forall_forall in Hops. by apply Hops in Hin. }
  assert ((p <- parse_step E ev ;; handler_steps E p) w
          = (inl "No PDF files found", w1)) as Hbody
    by (by rewrite (parse_step_ok _ _ _ _ _ Hp)).
  subst run. rewrite (lambda_handler_catches _ _ _ _ _ Hbody), Hp.
  cbn [job_id_of_parse]. split; [reflexivity|]. split.
  - apply failed_document.
    pose proof (handler_steps_has_job E p w) as Hjob.
    by rewrite Hsteps in Hjob.
  - rewrite failure_boundary_run. cbn [snd w_trace]. rewrite Ht.
    exists (delta ++ [OpUpdate (p_jobId p)
                        [("status", FStr "FAILED");
                         ("error", FStr "No PDF files found");
                         (UPDATED_ON, FInt (env_clock E (w_tick w1)))]]).
    split; [by rewrite <- app_assoc|].
    intros Hin. apply elem_of_app in Hin as [Hin|Hin]; [done|].
    apply list_elem_of_singleton in Hin. discriminate.
Qed.

Lemma missing_pdf_fails_witness :
  let file_list := [ file_of_size "marks.xlsx" 3000;
                     file_of_size "tiny.pdf" 500 ] in
  let E := sample_env file_list ok_payload in
  (lambda_handler E direct_event zip_world).1
  = inr (Result 500 (Some "J1") "FAILED" (Some "No PDF files found")).
Proof.
  intros file_list E.
  refine (proj1 (missing_pdf_fails E direct_event zip_world
                   (Parsed (Some "J1") (Some "exams") (Some sample_key)
                           (Some "E1") (Some "C1") (Some "BACKEND")
                           "DIRECT_INVOCATION")
                   "exams" sample_key (Blob [] None None) file_list
                   ("marks.xlsx", repeat Byte.x00 3000) []
                   eq_refl eq_refl eq_refl eq_refl eq_refl
                   (λ _, eq_refl) eq_refl _)).
  intros e base_name file_data He.
  apply elem_of_cons in He as [->|He];
    [|apply list_elem_of_singleton in He as ->]; discriminate.
Defined.

(** ** The handler: the archive cannot be fetched or decoded *)

(** What the run leaves when it fails before the loop: four calls, the
    blob store as it was, the document FAILED with progress 10. *)
Lemma early_failure E ev w p msg w3 :
  parse_event E ev = inr (Some p) →
  (∀ now_millis w2,
     w_s3 w2 = w_s3 w →
     ∃ fs1,
       steps_after_create E p now_millis w2
       = (inl msg, World (alter (set_fields fs1) (p_jobId p) (w_db w2))
                         (w_s3 w2) (w_tick w2)
                         (w_trace w2 ++ [OpUpdate (p_jobId p) fs1;
                                         OpGet (p_s3Bucket p) (p_s3Key p)]))
       ∧ field_of "progress" fs1 = Some (FInt 10)) →
  w3 = (lambda_handler E ev w).2 →
  (lambda_handler E ev w).1
  = inr (Result 500 (p_jobId p) "FAILED" (Some msg))
  ∧ w_s3 w3 = w_s3 w
  ∧ (∃ fs0 inserted fs1 fs2,
       w_trace w3
       = w_trace w ++ [ OpUpsert (p_jobId p) fs0 inserted;
                        OpUpdate (p_jobId p) fs1;
                        OpGet (p_s3Bucket p) (p_s3Key p);
                        OpUpdate (p_jobId p) fs2 ])
  ∧ ∃ d, w_db w3 !! p_jobId p = Some d
         ∧ d !! "status" = Some (FStr "FAILED")
         ∧ d !! "error" = Some (FStr msg)
         ∧ d !! "progress" = Some (FInt 10).
Proof.
  intros Hp Hsteps ->.
  assert (∃ w1 fs1 d1,
            handler_steps E p w = (inl msg, w1)
            ∧ w_s3 w1 = w_s3 w
            ∧ (∃ fs0 inserted,
                 w_trace w1 = w_trace w ++ [ OpUpsert (p_jobId p) fs0 inserted;
                                             OpUpdate (p_jobId p) fs1;
                                             OpGet (p_s3Bucket p) (p_s3Key p) ])
            ∧ w_db w1 !! p_jobId p = Some d1
            ∧ d1 !! "progress" = Some (FInt 10))
    as (w1 & fs1 & d1 & Hrun & Hs3 & (fs0 & ins & Ht) & Hd1 & Hprog).
  { unfold handler_steps.
    erewrite bind_inr by apply get_ist_millis_run.
    erewrite bind_inr by apply update_one_upsert_run.
    match goal with
    | |- context [steps_after_create E p ?now ?W] =>
        destruct (Hsteps now W eq_refl) as (fs1 & -> & Hprog);
        assert (has_job (p_jobId p) W) as [d Hd]
    end.
    { unfold has_job. cbn [w_db]. destruct (w_db w !! p_jobId p) eqn:Hj.
      - rewrite Hj. eauto.
      - rewrite lookup_insert_eq. eauto. }
    eexists _, fs1, _. split; [reflexivity|]. cbn [w_s3 w_trace w_db].
    split; [reflexivity|]. split.
    { eexists _, _. by rewrite <- app_assoc. }
    rewrite lookup_alter, decide_True by reflexivity.
    cbn [w_db] in Hd. rewrite Hd. split; [reflexivity|].
    by apply lookup_set_fields_Some. }
  assert ((p <- parse_step E ev ;; handler_steps E p) w = (inl msg, w1))
    as Hbody by (by rewrite (parse_step_ok _ _ _ _ _ Hp)).
  rewrite (lambda_handler_catches _ _ _ _ _ Hbody), Hp.
  cbn [job_id_of_parse]. rewrite failure_boundary_run.
  cbn [fst snd w_s3 w_trace w_db].
  split; [reflexivity|]. split; [exact Hs3|]. split.
  { eexists fs0, ins, fs1, _. rewrite Ht. by rewrite <- app_assoc. }
  eexists. rewrite lookup_alter, decide_True, Hd1 by reflexivity.
  split; [reflexivity|].
  split; [by apply lookup_set_fields_Some|].
  split; [by apply lookup_set_fields_Some|].
  by rewrite lookup_set_fields_None by reflexivity.
Qed.

(** X13.  When the archive cannot be fetched (no bucket, no key, or no
    such object), the run fails before anything is uploaded: the handler
    makes four calls (create, update to UNZIPPING, the fetch, update to
    FAILED), leaves the blob store as it was, and the job document ends
    with status FAILED, the error text and progress 10. *)
Theorem missing_archive_fails E ev w p :
  parse_event E ev = inr (Some p) →
  p_s3Bucket p = None ∨ p_s3Key p = None
  ∨ (∃ bn kn, p_s3Bucket p = Some bn ∧ p_s3Key p = Some kn
              ∧ w_s3 w !! (bn, kn) = None) →
  let run := lambda_handler E ev w in
  ∃ msg,
    run.1 = inr (Result 500 (p_jobId p) "FAILED" (Some msg))
    ∧ w_s3 run.2 = w_s3 w
    ∧ (∃ fs0 inserted fs1 fs2,
         w_trace run.2
         = w_trace w ++ [ OpUpsert (p_jobId p) fs0 inserted;
                          OpUpdate (p_jobId p) fs1;
                          OpGet (p_s3Bucket p) (p_s3Key p);
                          OpUpdate (p_jobId p) fs2 ])
    ∧ ∃ d, w_db run.2 !! p_jobId p = Some d
           ∧ d !! "status" = Some (FStr "FAILED")
           ∧ d !! "error" = Some (FStr msg)
           ∧ d !! "progress" = Some (FInt 10).
Proof.
  intros Hp Hmiss run.
  assert (∃ msg, ∀ w2 : world,
            w_s3 w2 = w_s3 w →
            get_object (p_s3Bucket p) (p_s3Key p) w2
            = (inl msg, World (w_db w2) (w_s3 w2) (w_tick w2)
                              (w_trace w2 ++ [OpGet (p_s3Bucket p)
                                                    (p_s3Key p)])))
    as [msg Hget].
  { unfold get_object, bind, log, read_world.
    destruct Hmiss as [->|[->|(bn & kn & -> & -> & Hnone)]].
    - by eexists.
    - destruct (p_s3Bucket p); by eexists.
    - eexists. intros w2 Hs3. cbn. by rewrite Hs3, Hnone. }
  exists msg. eapply early_failure; [exact Hp| |reflexivity].
  intros now_millis w2 Hs3. unfold steps_after_create.
  erewrite bind_inr by apply update_one_run.
  erewrite bind_inl_run by (apply Hget; exact Hs3).
  eexists. split; [cbn [w_db w_s3 w_tick w_trace]; by rewrite <- app_assoc|].
  reflexivity.
Qed.

Lemma missing_archive_fails_witness :
  let E := sample_env [] ok_payload in
  let run := lambda_handler E direct_event (World ∅ ∅ 0 []) in
  ∃ msg, run.1 = inr (Result 500 (Some "J1") "FAILED" (Some msg))
         ∧ w_s3 run.2 = ∅.
Proof.
  intros E run.
  destruct (missing_archive_fails E direct_event (World ∅ ∅ 0 [])
              (Parsed (Some "J1") (Some "exams") (Some sample_key)
                      (Some "E1") (Some "C1") (Some "BACKEND")
                      "DIRECT_INVOCATION") eq_refl)
    as (msg & Hr & Hs3 & _).
  - right. right. by exists "exams", sample_key.
  - exists msg. split; [exact Hr | exact Hs3].
Defined.

(** X14.  When the fetched object is not a readable archive, the run
    fails in the same way, with the text of the decoding error: nothing is
    uploaded, and the job document ends with status FAILED, that text and
    progress 10. *)
Theorem unreadable_archive_fails E ev w p b k o msg :
  parse_event E ev = inr (Some p) →
  p_s3Bucket p = Some b → p_s3Key p = Some k →
  w_s3 w !! (b, k) = Some o →
  env_zip_open E (blob_body o) = inl msg →
  let run := lambda_handler E ev w in
  run.1 = inr (Result 500 (p_jobId p) "FAILED" (Some msg))
  ∧ w_s3 run.2 = w_s3 w
  ∧ (∃ fs0 inserted fs1 fs2,
       w_trace run.2
       = w_trace w ++ [ OpUpsert (p_jobId p) fs0 inserted;
                        OpUpdate (p_jobId p) fs1;
                        OpGet (p_s3Bucket p) (p_s3Key p);
                        OpUpdate (p_jobId p) fs2 ])
  ∧ ∃ d, w_db run.2 !! p_jobId p = Some d
         ∧ d !! "status" = Some (FStr "FAILED")
         ∧ d !! "error" = Some (FStr msg)
         ∧ d !! "progress" = Some (FInt 10).
Proof.
  intros Hp Hb Hk Ho Hzip run.
  eapply early_failure; [exact Hp| |reflexivity].
  intros now_millis w2 Hs3. unfold steps_after_create.
  erewrite bind_inr by apply update_one_run.
  rewrite Hb, Hk.
  erewrite bind_inr
    by (apply get_object_run; cbn [w_s3]; rewrite Hs3; exact Ho).
  assert (∀ w', zip_open E (blob_body o) w' = (inl msg, w')) as Hopen
    by (intros w'; unfold zip_open; by rewrite Hzip).
  erewrite bind_inl_run by apply Hopen.
  eexists. split; [cbn [w_db w_s3 w_tick w_trace]; by rewrite <- app_assoc|].
  reflexivity.
Qed.

Lemma unreadable_archive_fails_witness :
  let E := {| env_clock := λ n, Z.of_nat n;
              env_uuid := "0000";
              env_unquote_plus := λ s, s;
              env_DELETE_ZIP_AFTER_SUCCESS := true;
              env_zip_open := λ _, inl "File is not a zip file";
              env_put_error := λ _ _, None;
              env_delete_error := λ _ _, None;
              env_invoke := λ _, ok_payload |} in
  (lambda_handler E direct_event zip_world).1
  = inr (Result 500 (Some "J1") "FAILED" (Some "File is not a zip file")).
Proof.
  intros E.
  exact (proj1 (unreadable_archive_fails E direct_event zip_world
                  (Parsed (Some "J1") (Some "exams") (Some sample_key)
                          (Some "E1") (Some "C1") (Some "BACKEND")
                          "DIRECT_INVOCATION")
                  "exams" sample_key (Blob [] None None)
                  "File is not a zip file"
                  eq_refl eq_refl eq_refl eq_refl eq_refl)).
Defined.

(** ** [delete_zip_file] *)

(** X15.  [delete_zip_file] never raises.  When it returns [True],
    bucket and key were given, the blob store accepted the deletion, and
    the job document, if there is one, has the deletion flag and the
    deletion time.  When the blob store accepts the deletion the object is
    gone, whatever is returned.  When bucket or key is missing or the blob
    store refuses the deletion, [False] is returned and the blob store and
    the job collection are as they were.  (Nothing is stated from [False]
    alone: the update of the job document sits in the same [try], so in
    the program a failure of that update also gives [False], with the
    object gone.  The model, whose job collection does not raise, has no
    such run.) *)
Theorem delete_zip_file_outcome E bucket key jid w :
  ∃ ok w1,
    delete_zip_file E bucket key jid w = (inr ok, w1)
    ∧ (ok = true →
       ∃ bn kn, bucket = Some bn ∧ key = Some kn
                ∧ env_delete_error E bn kn = None
                ∧ w_db w1
                  = alter (set_fields
                             [ ("originalZipDeleted", FBool true);
                               ("zipDeletedAt_KJUSYSCommon_DateTime",
                                FInt (env_clock E (w_tick w))) ])
                          jid (w_db w))
    ∧ (∀ bn kn, bucket = Some bn → key = Some kn →
                env_delete_error E bn kn = None →
                w_s3 w1 = delete (bn, kn) (w_s3 w))
    ∧ ((¬ ∃ bn kn, bucket = Some bn ∧ key = Some kn
                   ∧ env_delete_error E bn kn = None) →
       ok = false ∧ w_s3 w1 = w_s3 w ∧ w_db w1 = w_db w).
Proof.
  unfold delete_zip_file, try_except.
  destruct (delete_object_run E bucket key w) as ([msg|[]] & s3' & Hrun & Hr).
  - erewrite bind_inl_run by exact Hrun. destruct Hr as [-> Hno].
    eexists false, _. split; [reflexivity|]. split; [done|].
    split; [|done].
    intros bn kn Hb Hk Herr. destruct Hno. by exists bn, kn.
  - erewrite bind_inr by exact Hrun.
    erewrite bind_inr by apply get_ist_millis_run.
    erewrite bind_inr by apply update_one_run.
    destruct Hr as (bn & kn & -> & -> & Herr & ->).
    eexists true, _. split; [reflexivity|]. cbn [w_s3 w_db w_tick].
    split; [intros _; by eexists _, _|].
    split; [by intros ? ? [= <-] [= <-] _|].
    intros Hno. destruct Hno. by exists bn, kn.
Qed.

(** ** The result of the handler *)

Lemma handler_steps_returns E p w r w' :
  handler_steps E p w = (inr r, w') →
  r = Result 200 (p_jobId p) "SUCCESS" None
  ∧ ∃ d, w_db w' !! p_jobId p = Some d
         ∧ d !! "status" = Some (FStr "COMPLETED").
Proof.
  intros Hsteps. pose proof (handler_steps_has_job E p w) as Hjob.
  rewrite Hsteps in Hjob. cbn [snd] in Hjob.
  unfold handler_steps in Hsteps.
  erewrite bind_inr in Hsteps by apply get_ist_millis_run.
  erewrite bind_inr in Hsteps by apply update_one_upsert_run.
  unfold steps_after_create in Hsteps.
  do 4 (apply bind_inv_inr in Hsteps as (? & ? & _ & Hsteps)).
  destruct (excel_file _); [|discriminate].
  case_bool_decide; [discriminate|].
  do 3 (apply bind_inv_inr in Hsteps as (? & ? & _ & Hsteps)).
  match type of Hsteps with
  | match ?l with _ => _ end _ = _ => destruct l
  end.
  2:{ repeat (apply bind_inv_inr in Hsteps as (? & ? & _ & Hsteps)).
      discriminate. }
  apply bind_inv_inr in Hsteps as (ok & w6 & _ & Hsteps).
  erewrite bind_inr in Hsteps by apply get_ist_millis_run.
  erewrite bind_inr in Hsteps by apply update_one_run.
  injection Hsteps as <- <-. split; [reflexivity|].
  unfold has_job in Hjob. cbn [w_db] in *.
  rewrite lookup_alter, decide_True in * by reflexivity.
  destruct Hjob as [d Hd]. exists d. split; [exact Hd|].
  destruct (w_db w6 !! p_jobId p) as [d6|]; [|discriminate].
  injection Hd as <-. by apply lookup_set_fields_Some.
Qed.

(** X16.  The handler always returns a result, never an exception, and
    the result carries the job identifier of the descriptor ([None] when
    the trigger was not recognised).  It is either the success result, and
    then the job document has status COMPLETED, or a failure result with
    an error text, and then the job document, if there is one, has status
    FAILED and that text. *)
Theorem lambda_handler_result E ev w :
  let run := lambda_handler E ev w in
  let jid := job_id_of_parse (parse_event E ev) in
  (run.1 = inr (Result 200 jid "SUCCESS" None)
   ∧ ∃ d, w_db run.2 !! jid = Some d
          ∧ d !! "status" = Some (FStr "COMPLETED"))
  ∨ ∃ msg, run.1 = inr (Result 500 jid "FAILED" (Some msg))
           ∧ ∀ d, w_db run.2 !! jid = Some d →
                  d !! "status" = Some (FStr "FAILED")
                  ∧ d !! "error" = Some (FStr msg).
Proof.
  intros run jid. subst run. unfold lambda_handler, try_except. fold jid.
  destruct ((p <- parse_step E ev ;; handler_steps E p) w)
    as [[msg|r] w1] eqn:Hbody.
  - right. exists msg. rewrite failure_boundary_run. cbn [fst snd w_db].
    split; [reflexivity|]. intros d. rewrite lookup_alter, decide_True
      by reflexivity.
    destruct (w_db w1 !! jid) as [d1|]; [|discriminate].
    intros [= <-]. split; by apply lookup_set_fields_Some.
  - left. unfold bind, parse_step in Hbody. subst jid.
    destruct (parse_event E ev) as [e|[p|]]; try discriminate.
    cbn [ret] in Hbody. apply handler_steps_returns in Hbody as [-> Hd].
    split; [reflexivity | exact Hd].
Qed.

(** ** The archive is deleted only after a success *)

Lemma not_delete_closed w0 jid :
  closed (loop_op jid) (since w0 not_delete)
  ∧ (∀ j fs, preserves (since w0 not_delete) (update_one j fs))
  ∧ (∀ E, preserves (since w0 not_delete) (get_ist_millis E)).
Proof.
  pose proof (since_closed w0 not_delete) as (Ht & Hs & Hl & Hd).
  split; [|split].
  - eapply closed_weaken; [|apply since_closed]. by intros [].
  - intros j fs. apply preserves_update_one; [by apply Hl | by apply Hd].
  - intros E. by apply preserves_clock.
Qed.

Lemma not_delete_failure_boundary E w0 jid msg :
  preserves (since w0 not_delete) (failure_boundary E jid msg).
Proof.
  destruct (not_delete_closed w0 jid) as (_ & Hupd & Hclock).
  unfold failure_boundary.
  apply preserves_bind; [apply Hclock|]. intros t.
  apply preserves_bind; [apply Hupd|]. intros _. apply preserves_ret.
Qed.

Lemma guarded_closed w0 jid b k :
  tick_closed (guarded w0 jid b k) ∧ s3_closed (guarded w0 jid b k)
  ∧ (∀ f, db_closed (guarded w0 jid b k) f)
  ∧ (∀ o, not_delete o ∨ o = OpDelete b k →
          log_closed (guarded w0 jid b k) o).
Proof.
  split; [|split; [|split]].
  - intros w Hw. exact Hw.
  - intros w f Hw. exact Hw.
  - intros f w Hw. exact Hw.
  - intros o Ho w (delta & Ht & pre & post & -> & Hpre & Hpost).
    exists ((pre ++ OpInvoke jid :: post) ++ [o]). cbn [w_trace].
    split; [by rewrite Ht, <- !app_assoc|].
    exists pre, (post ++ [o]).
    split; [by rewrite <- app_assoc, <- app_comm_cons|].
    split; [exact Hpre|]. apply Forall_app. split; [exact Hpost|].
    by constructor.
Qed.

Lemma guarded_update_one w0 jid b k j fs :
  preserves (guarded w0 jid b k) (update_one j fs).
Proof.
  destruct (guarded_closed w0 jid b k) as (_ & _ & Hd & Hl).
  apply preserves_update_one; [apply Hl; by left | apply Hd].
Qed.

Lemma guarded_failure_boundary E w0 jid b k j msg :
  preserves (guarded w0 jid b k) (failure_boundary E j msg).
Proof.
  destruct (guarded_closed w0 jid b k) as (Ht & _).
  unfold failure_boundary.
  apply preserves_bind; [by apply preserves_clock|]. intros t.
  apply preserves_bind; [apply guarded_update_one|]. intros _.
  apply preserves_ret.
Qed.

Lemma guarded_delete_zip_file E w0 jid b k :
  preserves (guarded w0 jid b k) (delete_zip_file E b k jid).
Proof.
  destruct (guarded_closed w0 jid b k) as (Ht & Hs & Hd & Hl).
  unfold delete_zip_file.
  apply preserves_try; [|intros _; apply preserves_ret].
  apply preserves_bind.
  { apply preserves_delete_object; [apply Hl; by right | exact Hs]. }
  intros _. apply preserves_bind; [by apply preserves_clock|]. intros t.
  apply preserves_bind; [apply guarded_update_one|]. intros _.
  apply preserves_ret.
Qed.

Lemma post_bind {A B} (I Q : world → Prop) (m : M A) (k : A → M B) :
  preserves I m → (∀ w, I w → Q w) → (∀ a w, I w → Q (k a w).2) →
  ∀ w, I w → Q (bind m k w).2.
Proof.
  intros Hm HIQ Hk w Hw. unfold bind. specialize (Hm w Hw).
  destruct (m w) as [[e|a] w1]; [by apply HIQ | by apply Hk].
Qed.

(** After [steps_after_create], either nothing was deleted, or deletion is
    enabled, the invoker reported success, and the only deletions are
    those of the archive, after the invocation. *)
Lemma steps_after_create_guarded E p now_millis w0 w :
  since w0 not_delete w →
  let w' := (steps_after_create E p now_millis w).2 in
  since w0 not_delete w'
  ∨ (env_DELETE_ZIP_AFTER_SUCCESS E = true
     ∧ (∃ pl, l2_of_outcome (env_invoke E (p_jobId p)) = L2Ok pl)
     ∧ guarded w0 (p_jobId p) (p_s3Bucket p) (p_s3Key p) w').
Proof.
  destruct (not_delete_closed w0 (p_jobId p)) as (Hloop & Hupd & Hclock).
  pose proof (since_closed w0 not_delete) as (_ & _ & Hl & _).
  cbv zeta.
  pose (Q := λ w' : world,
          since w0 not_delete w'
          ∨ (env_DELETE_ZIP_AFTER_SUCCESS E = true
             ∧ (∃ pl, l2_of_outcome (env_invoke E (p_jobId p)) = L2Ok pl)
             ∧ guarded w0 (p_jobId p) (p_s3Bucket p) (p_s3Key p) w')).
  assert (∀ w1, since w0 not_delete w1 → Q w1) as HAQ
    by (intros w1 H1; by left).
  enough (∀ w1, since w0 not_delete w1 →
                Q (steps_after_create E p now_millis w1).2) as Hgoal
    by (intros Hw; exact (Hgoal w Hw)).
  clear w. unfold steps_after_create.
  apply (post_bind (since w0 not_delete) Q);
    [apply Hupd | exact HAQ | intros _].
  apply (post_bind (since w0 not_delete) Q);
    [apply preserves_get_object; by apply Hl | exact HAQ | intros zip_bytes].
  apply (post_bind (since w0 not_delete) Q);
    [|exact HAQ | intros file_list].
  { unfold zip_open. destruct (env_zip_open E zip_bytes);
      [apply preserves_raise | apply preserves_ret]. }
  apply (post_bind (since w0 not_delete) Q);
    [by apply preserves_extract_entries | exact HAQ | intros a].
  destruct (excel_file a); [|exact HAQ].
  case_bool_decide; [exact HAQ|].
  apply (post_bind (since w0 not_delete) Q);
    [apply Hclock | exact HAQ | intros t1].
  apply (post_bind (since w0 not_delete) Q);
    [apply Hupd | exact HAQ | intros _].
  clear HAQ. subst Q. cbv beta.
  intros w Hw.
  erewrite bind_inr by apply invoke_lambda2_sync_run.
  assert (since w0 not_delete
            (World (w_db w) (w_s3 w) (w_tick w)
                   (w_trace w ++ [OpInvoke (p_jobId p)]))) as HA
    by (by apply (Hl (OpInvoke (p_jobId p)))).
  assert (guarded w0 (p_jobId p) (p_s3Bucket p) (p_s3Key p)
            (World (w_db w) (w_s3 w) (w_tick w)
                   (w_trace w ++ [OpInvoke (p_jobId p)]))) as HG.
  { destruct Hw as (delta & Ht & Hnd).
    exists (delta ++ [OpInvoke (p_jobId p)]). cbn [w_trace].
    split; [by rewrite Ht, <- app_assoc|].
    exists delta, []. by repeat split. }
  destruct (guarded_closed w0 (p_jobId p) (p_s3Bucket p) (p_s3Key p))
    as (Gt & _).
  destruct (l2_of_outcome (env_invoke E (p_jobId p))) as [pl|err] eqn:Hl2;
    cbv beta iota.
  - destruct (env_DELETE_ZIP_AFTER_SUCCESS E) eqn:Hflag; cbv beta iota.
    + right. split; [reflexivity|]. split; [by exists pl|].
      match goal with
      | |- guarded _ _ _ _ (?m ?W).2 =>
          assert (preserves
                    (guarded w0 (p_jobId p) (p_s3Bucket p) (p_s3Key p)) m)
            as HP; [|exact (HP W HG)]
      end.
      apply preserves_bind; [apply guarded_delete_zip_file|]. intros _.
      apply preserves_bind; [by apply preserves_clock|]. intros t.
      apply preserves_bind; [apply guarded_update_one|]. intros _.
      apply preserves_ret.
    + left.
      match goal with
      | |- since _ _ (?m ?W).2 =>
          assert (preserves (since w0 not_delete) m) as HP;
          [|exact (HP W HA)]
      end.
      apply preserves_bind; [apply preserves_ret|]. intros _.
      apply preserves_bind; [apply Hclock|]. intros t.
      apply preserves_bind; [apply Hupd|]. intros _.
      apply preserves_ret.
  - left.
    match goal with
    | |- since _ _ (?m ?W).2 =>
        assert (preserves (since w0 not_delete) m) as HP;
        [|exact (HP W HA)]
    end.
    apply preserves_bind; [apply Hclock|]. intros t.
    apply preserves_bind; [apply Hupd|]. intros _.
    apply preserves_raise.
Qed.

Lemma post_try {A} (Q : world → Prop) (m : M A) (h : string → M A) w :
  Q (m w).2 → (∀ e, preserves Q (h e)) → Q (try_except m h w).2.
Proof.
  unfold try_except. intros HQ Hh.
  destruct (m w) as [[e|a] w1]; [by apply Hh | exact HQ].
Qed.

Lemma lambda_handler_guarded E ev w :
  let w' := (lambda_handler E ev w).2 in
  since w not_delete w'
  ∨ ∃ p, parse_event E ev = inr (Some p)
         ∧ env_DELETE_ZIP_AFTER_SUCCESS E = true
         ∧ (∃ pl, l2_of_outcome (env_invoke E (p_jobId p)) = L2Ok pl)
         ∧ guarded w (p_jobId p) (p_s3Bucket p) (p_s3Key p) w'.
Proof.
  cbv zeta. unfold lambda_handler, parse_step.
  destruct (parse_event E ev) as [e|[p|]] eqn:Hparse.
  - left. apply (post_try (since w not_delete));
      [apply since_refl | intros msg; apply not_delete_failure_boundary].
  - pose (Q := λ w' : world,
            since w not_delete w'
            ∨ (env_DELETE_ZIP_AFTER_SUCCESS E = true
               ∧ (∃ pl, l2_of_outcome (env_invoke E (p_jobId p)) = L2Ok pl)
               ∧ guarded w (p_jobId p) (p_s3Bucket p) (p_s3Key p) w')).
    match goal with
    | |- since _ _ ?W ∨ _ =>
        enough (Q W) as [HA|(Hflag & Hl2 & HG)];
        [by left | right; by exists p |]
    end.
    apply (post_try Q).
    + change (Q (handler_steps E p w).2). unfold handler_steps.
      erewrite bind_inr by apply get_ist_millis_run.
      erewrite bind_inr by apply update_one_upsert_run.
      match goal with
      | |- Q (steps_after_create E p ?now ?W).2 =>
          apply (steps_after_create_guarded E p now w W)
      end.
      eexists [_]. split; [reflexivity|]. by repeat constructor.
    + intros msg w1 [HA|(Hflag & Hl2 & HG)].
      * left. by apply not_delete_failure_boundary.
      * right. split; [exact Hflag|]. split; [exact Hl2|].
        by apply guarded_failure_boundary.
  - left. apply (post_try (since w not_delete));
      [apply since_refl | intros msg; apply not_delete_failure_boundary].
Qed.

(** X17.  The archive is deleted only after the validation function has
    reported success.  If a run of the handler makes a deletion in the
    blob store, then the trigger was recognised, the deleted object is the
    archive of the event, deletion after success is enabled, the answer of
    the validation function had no [errorMessage] and status 200, and the
    deletion comes after the call to the validation function, with no
    deletion before that call.  In particular a run that fails before or
    at validation deletes nothing. *)
Theorem deletion_only_after_validation E ev w delta b k :
  w_trace (lambda_handler E ev w).2 = w_trace w ++ delta →
  OpDelete b k ∈ delta →
  ∃ p sc pl pre post,
    parse_event E ev = inr (Some p)
    ∧ b = p_s3Bucket p ∧ k = p_s3Key p
    ∧ env_DELETE_ZIP_AFTER_SUCCESS E = true
    ∧ env_invoke E (p_jobId p) = InvokeReturns sc pl
    ∧ pl_errorMessage pl = Absent
    ∧ (pl_statusCode pl = Val 200
       ∨ pl_statusCode pl = Absent ∧ sc = Some 200)
    ∧ delta = pre ++ OpInvoke (p_jobId p) :: post
    ∧ Forall not_delete pre.
Proof.
  intros Ht Hin.
  destruct (lambda_handler_guarded E ev w)
    as [(delta' & Ht' & Hnd)
       |(p & Hparse & Hflag & [pl Hl2] & delta' & Ht' & pre & post & Hd
           & Hpre & Hpost)];
    rewrite Ht' in Ht; apply app_inv_head in Ht as ->.
  - rewrite Forall_forall in Hnd. destruct (Hnd _ Hin).
  - apply l2_of_outcome_ok in Hl2 as (sc & Hinv & Hem & Hst).
    exists p, sc, pl, pre, post. subst delta.
    assert (b = p_s3Bucket p ∧ k = p_s3Key p) as [-> ->].
    { apply elem_of_app in Hin as [Hin|Hin].
      - rewrite Forall_forall in Hpre. destruct (Hpre _ Hin).
      - apply elem_of_cons in Hin as [Hin|Hin]; [discriminate|].
        rewrite Forall_forall in Hpost.
        destruct (Hpost _ Hin) as [[]|[= -> ->]]. done. }
    done.
Qed.

Lemma deletion_only_after_validation_witness :
  let file_list := [ file_of_size "answer.pdf" 2000;
                     file_of_size "marks.xlsx" 3000 ] in
  let E := sample_env file_list ok_payload in
  let run := lambda_handler E direct_event zip_world in
  OpDelete (Some "exams") (Some sample_key) ∈ w_trace run.2
  ∧ ∃ pre post, w_trace run.2 = pre ++ OpInvoke (Some "J1") :: post
                ∧ Forall not_delete pre.
Proof.
  intros file_list E run.
  assert (OpDelete (Some "exams") (Some sample_key) ∈ w_trace run.2) as Hin
    by (vm_compute; repeat constructor).
  split; [exact Hin|].
  assert (w_trace run.2 = w_trace zip_world ++ w_trace run.2) as Ht
    by (vm_compute; reflexivity).
  destruct (deletion_only_after_validation E direct_event zip_world
              (w_trace run.2) (Some "exams") (Some sample_key)
              Ht Hin)
    as (p & sc & pl & pre & post & Hp & _ & _ & _ & _ & _ & _ & Hd & Hpre).
  vm_compute in Hp. injection Hp as <-.
  exists pre, post. split; [exact Hd | exact Hpre].
Defined.

(** ** Other jobs *)

(** X18.  An invocation writes one document only, that of its
    job identifier: every other document of the job collection is after
    the invocation what it was before (and a document absent before is
    still absent). *)
Theorem other_documents_untouched E ev w k :
  k ≠ job_id_of_parse (parse_event E ev) →
  w_db (lambda_handler E ev w).2 !! k = w_db w !! k.
Proof.
  intros Hk.
  apply (preserves_lambda_handler (λ w', w_db w' !! k = w_db w !! k));
    [| | |reflexivity].
  - split; [|split; [|split]]; try (intros; intros w0 Hw0; exact Hw0).
    + intros w0 f Hw0. exact Hw0.
    + intros j fs [-> _] w0 Hw0. cbn. by rewrite lookup_alter_ne.
  - intros fs b w0 Hw0. exact Hw0.
  - intros fs w0 Hw0 _. cbn. by rewrite lookup_insert_ne.
Qed.

Lemma other_documents_untouched_witness :
  let E := sample_env [file_of_size "tiny.pdf" 500] ok_payload in
  let w := World {[ Some "J2" := {[ "status" := FStr "COMPLETED" ]} ]}
                 (w_s3 zip_world) 0 [] in
  w_db (lambda_handler E direct_event w).2 !! Some "J2"
  = Some {[ "status" := FStr "COMPLETED" ]}.
Proof.
  intros E w.
  rewrite (other_documents_untouched E direct_event w (Some "J2"))
    by discriminate.
  apply lookup_singleton_eq.
Defined.

(** ** The blob store *)

Section Footprint.

Context (E : Env) (F : blobs → Prop).
Context (bucket : option string) (unzip_prefix : string) (key : option string).
Hypothesis Hput : ∀ bn base o s,
  bucket = Some bn → F s → F (<[(bn, unzip_prefix +:+ base) := o]> s).
Hypothesis Hdel : ∀ bn kn s,
  bucket = Some bn → key = Some kn → F s → F (delete (bn, kn) s).

Lemma footprint_clock : preserves (on_blobs F) (get_ist_millis E).
Proof. intros w Hw. exact Hw. Qed.

Lemma footprint_update_one jid fs : preserves (on_blobs F) (update_one jid fs).
Proof. intros w Hw. exact Hw. Qed.

Lemma footprint_upsert jid fs :
  preserves (on_blobs F) (update_one_upsert jid fs).
Proof. intros w Hw. rewrite update_one_upsert_run. exact Hw. Qed.

Lemma footprint_invoke jid : preserves (on_blobs F) (invoke_lambda2_sync E jid).
Proof. intros w Hw. exact Hw. Qed.

Lemma footprint_get_object b k : preserves (on_blobs F) (get_object b k).
Proof.
  apply preserves_get_object. intros w Hw. exact Hw.
Qed.

Lemma footprint_put base body ctype :
  preserves (on_blobs F)
            (put_object E bucket (unzip_prefix +:+ base) body ctype).
Proof.
  intros w Hw. unfold put_object, bind, log.
  destruct bucket as [bn|] eqn:Hb; [|exact Hw].
  destruct (env_put_error E bn _); [exact Hw|].
  cbn. by apply Hput.
Qed.

Lemma footprint_delete : preserves (on_blobs F) (delete_object E bucket key).
Proof.
  intros w Hw. unfold delete_object, bind, log.
  destruct bucket as [bn|] eqn:Hb, key as [kn|] eqn:Hk; try exact Hw.
  destruct (env_delete_error E bn kn); [exact Hw|].
  cbn. by apply Hdel.
Qed.

Lemma footprint_checkpoint jid total idx :
  preserves (on_blobs F) (checkpoint E jid total idx).
Proof.
  unfold checkpoint. destruct (_ =? _); [|apply preserves_ret].
  apply preserves_bind; [apply footprint_clock|]. intros t.
  apply footprint_update_one.
Qed.

Lemma footprint_loop_body jid total idx e a :
  preserves (on_blobs F) (loop_body E jid bucket unzip_prefix total idx e a).
Proof.
  unfold loop_body. rewrite route_entry_classify.
  apply preserves_bind.
  - destruct (classify e); cbn [route_verdict];
      try apply preserves_ret;
      (apply preserves_bind; [apply footprint_put|]; intros _;
       apply preserves_ret).
  - intros [a'|a']; [apply preserves_ret|].
    apply preserves_bind; [apply footprint_checkpoint|]. intros _.
    apply preserves_ret.
Qed.

Lemma footprint_extract_entries jid total file_list :
  ∀ idx a,
    preserves (on_blobs F)
      (extract_entries E jid bucket unzip_prefix total idx file_list a).
Proof.
  induction file_list as [|e rest IH]; intros idx a.
  - apply preserves_ret.
  - cbn [extract_entries]. apply preserves_bind.
    + apply footprint_loop_body.
    + intros a'. apply IH.
Qed.

Lemma footprint_delete_zip_file jid :
  preserves (on_blobs F) (delete_zip_file E bucket key jid).
Proof.
  unfold delete_zip_file.
  apply preserves_try; [|intros _; apply preserves_ret].
  apply preserves_bind; [apply footprint_delete|]. intros _.
  apply preserves_bind; [apply footprint_clock|]. intros t.
  apply preserves_bind; [apply footprint_update_one|]. intros _.
  apply preserves_ret.
Qed.

Lemma footprint_failure_boundary jid msg :
  preserves (on_blobs F) (failure_boundary E jid msg).
Proof.
  unfold failure_boundary.
  apply preserves_bind; [apply footprint_clock|]. intros t.
  apply preserves_bind; [apply footprint_update_one|]. intros _.
  apply preserves_ret.
Qed.

Lemma footprint_handler_steps p :
  p_s3Bucket p = bucket → p_s3Key p = key →
  unzip_prefix_of (p_examCode p) (p_courseCode p) = unzip_prefix →
  preserves (on_blobs F) (handler_steps E p).
Proof.
  intros Hb Hk Hpre. unfold handler_steps.
  apply preserves_bind; [apply footprint_clock|]. intros t0.
  apply preserves_bind; [apply footprint_upsert|]. intros _.
  unfold steps_after_create. rewrite Hb, Hk, Hpre.
  apply preserves_bind; [apply footprint_update_one|]. intros _.
  apply preserves_bind; [apply footprint_get_object|]. intros zip_bytes.
  apply preserves_bind.
  { unfold zip_open. destruct (env_zip_open E zip_bytes);
      [apply preserves_raise | apply preserves_ret]. }
  intros file_list.
  apply preserves_bind; [apply footprint_extract_entries|]. intros a.
  destruct (excel_file a); [|apply preserves_raise].
  case_bool_decide; [apply preserves_raise|].
  apply preserves_bind; [apply footprint_clock|]. intros t1.
  apply preserves_bind; [apply footprint_update_one|]. intros _.
  apply preserves_bind; [apply footprint_invoke|].
  intros [response|error_msg].
  - apply preserves_bind.
    { destruct (env_DELETE_ZIP_AFTER_SUCCESS E);
        [apply footprint_delete_zip_file | apply preserves_ret]. }
    intros _.
    apply preserves_bind; [apply footprint_clock|]. intros t2.
    apply preserves_bind; [apply footprint_update_one|]. intros _.
    apply preserves_ret.
  - apply preserves_bind; [apply footprint_clock|]. intros t2.
    apply preserves_bind; [apply footprint_update_one|]. intros _.
    apply preserves_raise.
Qed.

End Footprint.

Lemma foldl_store_upload_present (bn k : string) ups :
  ∀ s o, s !! (bn, k) = Some o → blob_sse o = Some "AES256" →
  ∃ o', foldl store_upload s ups !! (bn, k) = Some o'
        ∧ blob_sse o' = Some "AES256".
Proof.
  induction ups as [|u rest IH]; intros s o Hs Hsse; [by eauto|].
  cbn [foldl]. destruct u as [| | |[bn'|] k' body' ctype'| |];
    cbn [store_upload]; try (by eapply IH).
  destruct (decide ((bn', k') = (bn, k))) as [->|Hne].
  - eapply IH; [apply lookup_insert_eq | reflexivity].
  - eapply IH; [|exact Hsse]. by rewrite lookup_insert_ne.
Qed.

Lemma extract_entries_store E jid bucket unzip_prefix total file_list :
  ∀ idx a w a' w',
    extract_entries E jid bucket unzip_prefix total idx file_list a w
    = (inr a', w') →
    w_s3 w'
    = foldl store_upload (w_s3 w)
            (omap (upload_call bucket unzip_prefix) file_list).
Proof.
  induction file_list as [|e rest IH]; intros idx a w a' w' H.
  - by injection H as _ <-.
  - cbn [extract_entries] in H.
    apply bind_inv_inr in H as (a1 & w1 & Hbody & Hrest).
    apply IH in Hrest. rewrite Hrest, omap_cons_match.
    apply loop_body_inv in Hbody as [_ Hw]. unfold upload_call at 2.
    destruct (upload_of e) as [[[base_name file_data] ctype]|]; [|by subst].
    destruct Hw as (bn & -> & _ & ->). cbn [foldl store_upload].
    f_equal. unfold after_checkpoint. by destruct (_ =? _).
Qed.

Lemma extract_entries_bucket E jid bucket unzip_prefix total file_list :
  ∀ idx a w a' w',
    extract_entries E jid bucket unzip_prefix total idx file_list a w
    = (inr a', w') →
    ∀ e, e ∈ file_list → is_Some (upload_of e) → ∃ bn, bucket = Some bn.
Proof.
  induction file_list as [|x rest IH]; intros idx a w a' w' H e He Hu;
    [by apply elem_of_nil in He|].
  cbn [extract_entries] in H.
  apply bind_inv_inr in H as (a1 & w1 & Hbody & Hrest).
  apply elem_of_cons in He as [->|He]; [|by eapply IH].
  apply loop_body_inv in Hbody as [_ Hw]. destruct Hu as [u Hu].
  rewrite Hu in Hw. destruct u as [[b d] c].
  destruct Hw as (bn & -> & _). by eauto.
Qed.

(** X19.  When the loop returns, the blob store is the one it started
    from with the uploads stored in archive order, a later upload to the
    same key replacing an earlier one; every object is stored with
    server-side encryption AES256, and every entry that passes the
    classifier has an object at [unzip_prefix + base name]. *)
Theorem loop_blob_store E jid bucket unzip_prefix total file_list w a' w' :
  extract_entries E jid bucket unzip_prefix total 0 file_list acc0 w
  = (inr a', w') →
  w_s3 w'
  = foldl store_upload (w_s3 w)
          (omap (upload_call bucket unzip_prefix) file_list)
  ∧ ∀ e base_name file_data ctype,
      e ∈ file_list → upload_of e = Some (base_name, file_data, ctype) →
      ∃ bn o, bucket = Some bn
              ∧ w_s3 w' !! (bn, unzip_prefix +:+ base_name) = Some o
              ∧ blob_sse o = Some "AES256".
Proof.
  intros Hrun. pose proof (extract_entries_store _ _ _ _ _ _ _ _ _ _ _ Hrun)
    as Hs3.
  split; [exact Hs3|]. intros e base_name file_data ctype He Hup.
  rewrite Hs3. clear Hs3.
  destruct (extract_entries_bucket _ _ _ _ _ _ _ _ _ _ _ Hrun e He
              ltac:(by rewrite Hup)) as [bn ->].
  exists bn. clear Hrun.
  cut (∃ o, foldl store_upload (w_s3 w)
              (omap (upload_call (Some bn) unzip_prefix) file_list)
            !! (bn, unzip_prefix +:+ base_name) = Some o
            ∧ blob_sse o = Some "AES256").
  { intros (o & Ho & Hsse). by exists o. }
  generalize (w_s3 w). intros s0.
  induction file_list as [|x rest IH] in s0, He |- *;
    [by apply elem_of_nil in He|].
  rewrite omap_cons_match.
  apply elem_of_cons in He as [<-|He].
  - unfold upload_call at 1. rewrite Hup. cbn [foldl store_upload].
    eapply foldl_store_upload_present; [apply lookup_insert_eq | reflexivity].
  - destruct (upload_call (Some bn) unzip_prefix x) as [u|]; cbn [foldl];
      by apply IH.
Qed.

Lemma loop_blob_store_witness :
  let E := sample_env [] ok_payload in
  let file_list := [ file_of_size "a/answer.pdf" 1024;
                     file_of_size "b/answer.pdf" 2000 ] in
  let run := extract_entries E (Some "J1") (Some "exams") "out/" 2 0
                             file_list acc0 zip_world in
  w_s3 run.2 !! ("exams", "out/answer.pdf")
  = Some (Blob (repeat Byte.x00 2000) (Some "application/pdf")
               (Some "AES256")).
Proof.
  intros E file_list run.
  destruct (loop_blob_store E (Some "J1") (Some "exams") "out/" 2 file_list
              zip_world _ run.2
              (pair_of_fst _ _ (extract_entries_total E (Some "J1") "exams"
                                  "out/" 2 file_list (λ _, eq_refl)
                                  0%nat acc0 zip_world)))
    as [-> _].
  vm_compute. reflexivity.
Defined.

(** X20.  An invocation writes the blob store only under the unzip prefix
    of the event's bucket and deletes only the archive: every other
    object, in that bucket or another, is after the invocation what it
    was before, whether the invocation succeeds or fails; when the event
    cannot be parsed the whole blob store is unchanged. *)
Theorem blob_store_footprint E ev w bn kn :
  (∀ p, parse_event E ev = inr (Some p) → outside_footprint p bn kn) →
  w_s3 (lambda_handler E ev w).2 !! (bn, kn) = w_s3 w !! (bn, kn).
Proof.
  intros Hout.
  pose (F := λ s : blobs, s !! (bn, kn) = w_s3 w !! (bn, kn)).
  change (on_blobs F (lambda_handler E ev w).2).
  assert (preserves (on_blobs F) (lambda_handler E ev)) as Hpres;
    [|by apply Hpres].
  unfold lambda_handler.
  apply preserves_try; [|intros msg; apply footprint_failure_boundary].
  unfold parse_step.
  destruct (parse_event E ev) as [e|[p|]]; try apply preserves_bind_raise.
  apply preserves_bind_ret.
  specialize (Hout p eq_refl).
  apply footprint_handler_steps
    with (bucket := p_s3Bucket p) (key := p_s3Key p)
         (unzip_prefix := unzip_prefix_of (p_examCode p) (p_courseCode p));
    try reflexivity.
  - intros bn' base o s Hb Hs. unfold F.
    rewrite lookup_insert_ne; [exact Hs|].
    intros [= -> <-]. destruct (Hout Hb) as [_ Hsw].
    by rewrite startswith_app in Hsw.
  - intros bn' kn' s Hb Hk Hs. unfold F.
    rewrite lookup_delete_ne; [exact Hs|].
    intros [= -> ->]. destruct (Hout Hb) as [Hne _]. by apply Hne.
Qed.

Lemma blob_store_footprint_witness :
  let file_list := [ file_of_size "answer.pdf" 2000;
                     file_of_size "marks.xlsx" 3000 ] in
  let E := sample_env file_list ok_payload in
  let w := World ∅ {[ ("exams", sample_key) := Blob [] None None;
                      ("exams", "other/readme.txt") := Blob [] None None ]}
                 0 [] in
  w_s3 (lambda_handler E direct_event w).2 !! ("exams", "other/readme.txt")
  = Some (Blob [] None None).
Proof.
  intros file_list E w.
  rewrite (blob_store_footprint E direct_event w "exams" "other/readme.txt").
  - vm_compute. reflexivity.
  - intros p Hp _. vm_compute in Hp. injection Hp as <-.
    split; [discriminate | vm_compute; reflexivity].
Defined.

(** ** What is uploaded *)

Lemma basename_flat p : no_slash (Str.basename p).
Proof.
  induction p as [|c r IH]; [reflexivity|].
  cbn [Str.basename]. destruct (Str.contains r "/") eqn:Hr; [exact IH|].
  case_bool_decide as Hc; [exact Hr|].
  apply no_slash_cons. by split.
Qed.

(** What the classifier lets through to an upload. *)
Lemma upload_of_inv e base_name file_data ctype :
  upload_of e = Some (base_name, file_data, ctype) →
  let lower_name := Str.lower base_name in
  base_name = Str.basename (ze_name e)
  ∧ no_slash base_name ∧ base_name ≠ ""
  ∧ is_junk_file (ze_name e) = false
  ∧ ze_read e = inr file_data ∧ file_data ≠ []
  ∧ (ctype = Some "application/pdf"
     ∧ Str.endswith lower_name ".pdf" = true ∧ 1024 ≤ size_of file_data
     ∨ ctype = Some XLSX_TYPE
       ∧ Str.endswith lower_name ".pdf" = false
       ∧ Str.endswith lower_name ".xlsx" || Str.endswith lower_name ".xls"
         = true
       ∧ 2048 ≤ size_of file_data
     ∨ ctype = None
       ∧ Str.endswith lower_name ".pdf" = false
       ∧ Str.endswith lower_name ".xlsx" || Str.endswith lower_name ".xls"
         = false).
Proof.
  unfold upload_of, classify, size_of.
  destruct (Str.endswith (ze_name e) "/"); [discriminate|].
  destruct (is_junk_file (ze_name e)) eqn:Hjunk; [discriminate|].
  destruct (ze_read e) as [err|data]; [discriminate|]. cbv zeta.
  destruct (Z.of_nat (length data) =? 0) eqn:Hempty; [discriminate|].
  apply Z.eqb_neq in Hempty.
  assert (∀ b d, b = Str.basename (ze_name e) → d = data →
            b = Str.basename (ze_name e) ∧ no_slash b ∧ b ≠ ""
            ∧ false = false ∧ @inr string bytes data = inr d ∧ d ≠ [])
    as Hcommon.
  { intros b d -> ->. split; [reflexivity|]. split; [apply basename_flat|].
    split; [by apply not_junk_base_name|]. split; [reflexivity|].
    split; [reflexivity|]. intros ->. by apply Hempty. }
  destruct (Str.endswith (Str.lower (Str.basename (ze_name e))) ".pdf")
    eqn:Hpdf.
  - unfold is_valid_pdf. rewrite Hpdf. cbn [andb].
    destruct (1024 <=? _) eqn:Hsz; [|discriminate]. cbn [negb].
    intros [= <- <- <-]. apply Z.leb_le in Hsz.
    destruct (Hcommon _ _ eq_refl eq_refl) as (? & ? & ? & ? & ? & ?).
    repeat (split; [done|]). left. by rewrite Hpdf.
  - destruct (_ || _) eqn:Hxl.
    + unfold is_valid_excel. rewrite Hxl. cbn [andb].
      destruct (2048 <=? _) eqn:Hsz; [|discriminate]. cbn [negb].
      intros [= <- <- <-]. apply Z.leb_le in Hsz.
      destruct (Hcommon _ _ eq_refl eq_refl) as (? & ? & ? & ? & ? & ?).
      repeat (split; [done|]). right. left. by rewrite Hpdf, Hxl.
    + intros [= <- <- <-].
      destruct (Hcommon _ _ eq_refl eq_refl) as (? & ? & ? & ? & ? & ?).
      repeat (split; [done|]). right. right. by rewrite Hpdf, Hxl.
Qed.

Lemma extract_entries_accepts E jid bucket unzip_prefix total file_list :
  ∀ idx a w a' w',
    extract_entries E jid bucket unzip_prefix total idx file_list a w
    = (inr a', w') →
    ∀ e base_name file_data ctype,
      e ∈ file_list → upload_of e = Some (base_name, file_data, ctype) →
      ∃ bn, bucket = Some bn
            ∧ env_put_error E bn (unzip_prefix +:+ base_name) = None.
Proof.
  induction file_list as [|x rest IH];
    intros idx a w a' w' H e base_name file_data ctype He Hu;
    [by apply elem_of_nil in He|].
  cbn [extract_entries] in H.
  apply bind_inv_inr in H as (a1 & w1 & Hbody & Hrest).
  apply elem_of_cons in He as [->|He]; [|by eapply IH].
  apply loop_body_inv in Hbody as [_ Hw]. rewrite Hu in Hw.
  destruct Hw as (bn & -> & Herr & _). by eauto.
Qed.

Lemma loop_body_returns E jid bucket unzip_prefix total idx e a w :
  (∀ base_name file_data ctype,
     upload_of e = Some (base_name, file_data, ctype) →
     ∃ bn, bucket = Some bn
           ∧ env_put_error E bn (unzip_prefix +:+ base_name) = None) →
  ∃ a1 w1,
    loop_body E jid bucket unzip_prefix total idx e a w = (inr a1, w1).
Proof.
  unfold loop_body, upload_of. rewrite route_entry_classify.
  destruct (classify e); cbn [route_verdict]; intros H;
    try (by eexists _, _);
    destruct (H _ _ _ eq_refl) as (bn & -> & Herr);
    (erewrite bind_inr;
     [|erewrite bind_inr by (apply put_object_run, Herr); reflexivity]);
    cbv beta iota; (erewrite bind_inr by apply checkpoint_run);
    by eexists _, _.
Qed.

Lemma extract_entries_returns E jid bucket unzip_prefix total file_list :
  (∀ e base_name file_data ctype,
     e ∈ file_list → upload_of e = Some (base_name, file_data, ctype) →
     ∃ bn, bucket = Some bn
           ∧ env_put_error E bn (unzip_prefix +:+ base_name) = None) →
  ∀ idx a w,
    ∃ a' w',
      extract_entries E jid bucket unzip_prefix total idx file_list a w
      = (inr a', w').
Proof.
  induction file_list as [|e rest IH]; intros Hok idx a w.
  - by eexists _, _.
  - cbn [extract_entries].
    destruct (loop_body_returns E jid bucket unzip_prefix total idx e a w)
      as (a1 & w1 & Hbody).
    { intros b d c Hu. eapply Hok; [apply list_elem_of_here | exact Hu]. }
    erewrite bind_inr by exact Hbody. apply IH.
    intros e' b d c He'. apply Hok. by apply list_elem_of_further.
Qed.

Lemma omap_upload_call_files bucket unzip_prefix (file_list : list zentry) :
  omap (upload_call bucket unzip_prefix)
       (filter (λ e, is_file e = true) file_list)
  = omap (upload_call bucket unzip_prefix) file_list.
Proof.
  induction file_list as [|e rest IH]; [reflexivity|].
  destruct (is_file e) eqn:Hf.
  - rewrite filter_cons_True by done. rewrite !omap_cons_match. by rewrite IH.
  - rewrite filter_cons_False by congruence. rewrite omap_cons_match, IH.
    unfold upload_call, upload_of, classify. unfold is_file in Hf.
    apply negb_false_iff in Hf. by rewrite Hf.
Qed.

(** X7.  Directory markers do not count in the loop.  When the loop
    returns on an archive, it also returns on the same archive without
    its directory markers, whatever total is used for the progress values,
    with the same accumulators (manifests, skip list and counter), the
    same uploads in the same order and the same blob store.  (The markers
    count only in [totalFiles] and in the index that decides the progress
    updates.) *)
Theorem directories_do_not_count E jid bucket unzip_prefix total total'
    file_list w a' w' :
  extract_entries E jid bucket unzip_prefix total 0 file_list acc0 w
  = (inr a', w') →
  ∃ w'',
    extract_entries E jid bucket unzip_prefix total' 0
                    (filter (λ e, is_file e = true) file_list) acc0 w
    = (inr a', w'')
    ∧ omap put_call (w_trace w'') = omap put_call (w_trace w')
    ∧ w_s3 w'' = w_s3 w'.
Proof.
  intros Hrun.
  destruct (extract_entries_returns E jid bucket unzip_prefix total'
              (filter (λ e, is_file e = true) file_list)) with
    (idx := 0%nat) (a := acc0) (w := w) as (a2 & w2 & Hrun2).
  { intros e b d c He Hu. apply list_elem_of_filter in He as [_ He].
    by eapply extract_entries_accepts. }
  exists w2.
  pose proof (extract_entries_acc _ _ _ _ _ _ _ _ _ _ _ Hrun) as Ha.
  pose proof (extract_entries_acc _ _ _ _ _ _ _ _ _ _ _ Hrun2) as Ha2.
  rewrite <- foldl_step_acc_skip_dirs in Ha2.
  split; [by rewrite Hrun2, Ha2, Ha|].
  rewrite (extract_entries_puts _ _ _ _ _ _ _ _ _ _ _ Hrun),
    (extract_entries_puts _ _ _ _ _ _ _ _ _ _ _ Hrun2),
    (extract_entries_store _ _ _ _ _ _ _ _ _ _ _ Hrun),
    (extract_entries_store _ _ _ _ _ _ _ _ _ _ _ Hrun2).
  by rewrite omap_upload_call_files.
Qed.

Lemma directories_do_not_count_witness :
  let E := sample_env [] ok_payload in
  let file_list := [ file_of_size "batch/" 0;
                     file_of_size "batch/answer.pdf" 1024;
                     file_of_size "batch/sub/" 0;
                     file_of_size "batch/sub/marks.xlsx" 2048 ] in
  let run := extract_entries E (Some "J1") (Some "exams") "out/" 4 0
                             file_list acc0 zip_world in
  ∃ w'',
    extract_entries E (Some "J1") (Some "exams") "out/" 2 0
                    [ file_of_size "batch/answer.pdf" 1024;
                      file_of_size "batch/sub/marks.xlsx" 2048 ]
                    acc0 zip_world
    = (run.1, w'')
    ∧ w_s3 w'' = w_s3 run.2.
Proof.
  intros E file_list run.
  pose proof (extract_entries_total E (Some "J1") "exams" "out/" 4 file_list
                (λ _, eq_refl) 0%nat acc0 zip_world) as Hrun.
  destruct (directories_do_not_count E (Some "J1") (Some "exams") "out/" 4 2
              file_list zip_world _ run.2 (pair_of_fst _ _ Hrun))
    as (w'' & Hrun2 & _ & Hs3).
  exists w''. split; [|exact Hs3].
  fold run in Hrun. rewrite Hrun. exact Hrun2.
Defined.

(** X21.  Whatever the loop uploads comes from an entry of the archive
    that is readable, not empty and not junk, and goes to the bucket of
    the event under the entry's base name: the key is the unzip prefix
    followed by a non-empty name without any slash, so the directories of
    the archive are flattened; the body is the data read.  The content
    type follows the extension of the lower-cased base name: PDF (at
    least 1024 bytes), the [.xlsx] type for both [.xlsx] and [.xls] (at
    least 2048 bytes), and none for any other name, which has no size
    floor. *)
Theorem uploaded_entry E jid bucket unzip_prefix total file_list w a' w'
    delta b k body ctype :
  extract_entries E jid bucket unzip_prefix total 0 file_list acc0 w
  = (inr a', w') →
  w_trace w' = w_trace w ++ delta →
  OpPut b k body ctype ∈ delta →
  ∃ e, let base_name := Str.basename (ze_name e) in
       let lower_name := Str.lower base_name in
       e ∈ file_list ∧ b = bucket ∧ k = unzip_prefix +:+ base_name
       ∧ no_slash base_name ∧ base_name ≠ ""
       ∧ is_junk_file (ze_name e) = false
       ∧ ze_read e = inr body ∧ body ≠ []
       ∧ (ctype = Some "application/pdf"
          ∧ Str.endswith lower_name ".pdf" = true ∧ 1024 ≤ size_of body
          ∨ ctype = Some XLSX_TYPE
            ∧ Str.endswith lower_name ".pdf" = false
            ∧ Str.endswith lower_name ".xlsx"
              || Str.endswith lower_name ".xls" = true
            ∧ 2048 ≤ size_of body
          ∨ ctype = None
            ∧ Str.endswith lower_name ".pdf" = false
            ∧ Str.endswith lower_name ".xlsx"
              || Str.endswith lower_name ".xls" = false).
Proof.
  intros Hrun Ht Hin.
  apply extract_entries_puts in Hrun as Hputs.
  rewrite Ht, omap_app in Hputs. apply app_inv_head in Hputs.
  assert (OpPut b k body ctype ∈ omap put_call delta) as Hin'.
  { apply list_elem_of_omap. by exists (OpPut b k body ctype). }
  rewrite Hputs in Hin'.
  apply list_elem_of_omap in Hin' as (e & He & Hcall).
  unfold upload_call in Hcall.
  destruct (upload_of e) as [[[base_name file_data] ct]|] eqn:Hup;
    [|discriminate].
  injection Hcall as <- <- <- <-.
  destruct (upload_of_inv _ _ _ _ Hup)
    as (-> & Hflat & Hne & Hjunk & Hread & Hdata & Hkind).
  exists e. cbv zeta. by repeat (split; [done|]).
Qed.

Lemma uploaded_entry_witness :
  let E := sample_env [] ok_payload in
  let file_list := [ file_of_size "batch1/sheet/Marks.XLS" 2048 ] in
  let run := extract_entries E (Some "J1") (Some "exams") "out/" 1 0
                             file_list acc0 zip_world in
  w_trace run.2
  = [ OpPut (Some "exams") "out/Marks.XLS" (repeat Byte.x00 2048)
            (Some XLSX_TYPE) ]
  ∧ no_slash "Marks.XLS".
Proof.
  intros E file_list run.
  pose proof (extract_entries_total E (Some "J1") "exams" "out/" 1 file_list
                (λ _, eq_refl) 0%nat acc0 zip_world) as Hrun.
  assert (w_trace run.2
          = w_trace zip_world
            ++ [ OpPut (Some "exams") "out/Marks.XLS" (repeat Byte.x00 2048)
                       (Some XLSX_TYPE) ]) as Ht
    by (vm_compute; reflexivity).
  destruct (uploaded_entry E (Some "J1") (Some "exams") "out/" 1 file_list
              zip_world _ run.2 _ _ _ _ _ (pair_of_fst _ _ Hrun) Ht
              (list_elem_of_here _ _))
    as (e & He & _ & Hk & Hflat & _).
  apply list_elem_of_singleton in He as ->.
  split; [exact Ht | exact Hflat].
Defined.
